(** * Audio capture and live transcription pipeline

    A shallow embedding of the two React hooks [useAudioRecorder] and
    [useDeepgramLive] and of the [DeepgramLiveTranscription] client they
    drive, together with the properties the specification states about them.

    The hooks are event driven: every callback of the source (a hook method,
    the continuation after an [await], a listener of the recorder or of the
    channel) is one atomic transition here, and a run of the program is a
    list of such transitions.  The browser objects the hooks hold (device
    streams, interval timers, object URLs, recorders, audio contexts,
    channels) live in an explicit platform part of the state, so that
    "the microphone is still open" is a statement about that state. *)

From Stdlib Require Import ZArith QArith Qround Lia String List DecimalString DecimalN.
From stdpp Require Import base gmap sets list strings.

Local Open Scope Z_scope.

(** ** Frame conversion ([onaudioprocess] in useDeepgramLive.ts) *)

Module Pcm.

(** A JavaScript Number.  The samples of a [Float32Array] are binary
    fractions, and so is their product with [32768 = 2^15] (a float32
    scaled by a power of two fits a double without rounding), hence the
    finite values are modelled as exact rationals. *)
Inductive number : Type :=
  | Fin (q : Q)
  | PosInf
  | NegInf
  | NaN.

(** [x * 32768] *)
Definition times_32768 (x : number) : number :=
  match x with
  | Fin q => Fin (q * 32768)
  | PosInf => PosInf
  | NegInf => NegInf
  | NaN => NaN
  end.

(** [Math.min(a, b)] *)
Definition Math_min (a b : number) : number :=
  match a, b with
  | NaN, _ | _, NaN => NaN
  | NegInf, _ | _, NegInf => NegInf
  | PosInf, y => y
  | x, PosInf => x
  | Fin p, Fin q => if Qle_bool p q then Fin p else Fin q
  end.

(** [Math.max(a, b)] *)
Definition Math_max (a b : number) : number :=
  match a, b with
  | NaN, _ | _, NaN => NaN
  | PosInf, _ | _, PosInf => PosInf
  | NegInf, y => y
  | x, NegInf => x
  | Fin p, Fin q => if Qle_bool p q then Fin q else Fin p
  end.

(** Truncation toward zero, the first step of ECMAScript's integer
    conversions. *)
Definition truncate (q : Q) : Z := Z.quot (Qnum q) (Z.pos (Qden q)).

(** Two's complement reading of the low 16 bits. *)
Definition wrap16 (i : Z) : Z :=
  let m := i mod 65536 in
  if 32768 <=? m then m - 65536 else m.

(** ECMAScript [ToInt16], applied by the store into an [Int16Array]:
    NaN and the infinities become 0, everything else is truncated and
    wrapped modulo [2^16]. *)
Definition ToInt16 (v : number) : Z :=
  match v with
  | Fin q => wrap16 (truncate q)
  | PosInf | NegInf | NaN => 0
  end.

(** The loop body:
    [int16Array[i] = Math.max(-32768, Math.min(32767, inputData[i] * 32768))]. *)
Definition float32_to_int16 (x : number) : Z :=
  ToInt16 (Math_max (Fin (-32768)) (Math_min (Fin 32767) (times_32768 x))).

(** The whole loop over [inputData]. *)
Definition convert_frame (inputData : list number) : list Z :=
  map float32_to_int16 inputData.

(** The clamp of the specification, on exact rationals. *)
Definition clamp (lo hi v : Q) : Q :=
  if Qle_bool v lo then lo else if Qle_bool hi v then hi else v.

(** The quantisation the specification describes: scale, clamp to the
    representable range, keep the integer part.  It never wraps. *)
Definition quantize_spec (x : Q) : Z :=
  truncate (clamp (-32768) 32767 (x * 32768)).

End Pcm.

(** ** Values shared by both hooks *)

Module Browser.

(** What a [catch (err)] can receive: an [Error] (a [DOMException] is
    one) with its [name] and [message], or any other thrown value. *)
Inductive Thrown : Type :=
  | ErrorObject (name message : string)
  | NonError.

(** How the promise of [getUserMedia] settles. *)
Inductive AcquireResult : Type :=
  | Granted
  | Rejected (err : Thrown).

End Browser.

(** ** The recorder hook (useAudioRecorder.ts) *)

Module Recorder.

Export Browser.
Local Open Scope string_scope.

(** [type RecordingState = 'inactive' | 'recording' | 'paused' | 'stopped'] *)
Inductive RecordingState : Type :=
  | inactive
  | recording
  | paused
  | stopped.

#[global] Instance RecordingState_eq_dec : EqDecision RecordingState.
Proof. solve_decision. Defined.

(** A [Blob]: its bytes and its type label. *)
Record Blob : Type := {
  blob_bytes : list Byte.byte;
  blob_type : string
}.

Definition blob_size (b : Blob) : nat := length (blob_bytes b).

(** [new Blob(parts, { type })] concatenates the parts in order. *)
Definition new_Blob (parts : list Blob) (type : string) : Blob :=
  {| blob_bytes := concat (map blob_bytes parts); blob_type := type |}.

(** A platform [MediaRecorder]: the stream it records, the negotiated
    mime type its listeners closed over, and its [state] attribute. *)
Record MediaRecorder : Type := {
  mr_stream : nat;
  mr_mimeType : string;
  mr_state : RecordingState
}.

(** What the platform answers during the continuation of
    [startRecording]: whether [window.MediaRecorder] exists, which mime
    types it supports, whether the constructor or [start] throws, and the
    reading of [Date.now()]. *)
Record Env : Type := {
  hasMediaRecorder : bool;
  isTypeSupported : string -> bool;
  ctorThrows : option Thrown;
  startThrows : option Thrown;
  now : Z
}.

(** The [useState] cells.  An object URL is identified by a number. *)
Record Hook : Type := {
  recordingState : RecordingState;
  audioURL : option nat;
  error : option string;
  duration : Z
}.

(** The [useRef] cells.  [setInterval] returns an integer greater than
    zero, so a stored timer id is always truthy. *)
Record Refs : Type := {
  mediaRecorderRef : option nat;
  audioChunksRef : list Blob;
  streamRef : option nat;
  startTimeRef : Z;
  durationIntervalRef : option positive
}.

(** The browser side: the [getUserMedia] promises not yet settled, the
    streams whose tracks are live (the microphone is open exactly when
    this set is not empty), the interval timers still firing, the object
    URLs not revoked, the recorders created, and the next fresh handles. *)
Record Platform : Type := {
  pendingAcquire : nat;
  liveStreams : gset nat;
  liveTimers : gset positive;
  objectURLs : gmap nat Blob;
  recorders : gmap nat MediaRecorder;
  nextStream : nat;
  nextRecorder : nat;
  nextURL : nat;
  nextTimer : positive
}.

Record World : Type := {
  hook : Hook;
  refs : Refs;
  plat : Platform
}.

Definition with_hook (f : Hook -> Hook) (w : World) : World :=
  {| hook := f (hook w); refs := refs w; plat := plat w |}.

Definition with_refs (f : Refs -> Refs) (w : World) : World :=
  {| hook := hook w; refs := f (refs w); plat := plat w |}.

Definition with_plat (f : Platform -> Platform) (w : World) : World :=
  {| hook := hook w; refs := refs w; plat := f (plat w) |}.

Definition setRecordingState (v : RecordingState) (w : World) : World :=
  with_hook (fun x =>
      {| recordingState := v; audioURL := audioURL x; error := error x;
      duration := duration x |}) w.

Definition setAudioURL (v : option nat) (w : World) : World :=
  with_hook (fun x =>
      {| recordingState := recordingState x; audioURL := v; error := error x;
      duration := duration x |}) w.

Definition setError (v : option string) (w : World) : World :=
  with_hook (fun x =>
      {| recordingState := recordingState x; audioURL := audioURL x; error :=
      v; duration := duration x |}) w.

Definition setDuration (v : Z) (w : World) : World :=
  with_hook (fun x =>
      {| recordingState := recordingState x; audioURL := audioURL x; error :=
      error x; duration := v |}) w.

Definition set_mediaRecorderRef (v : option nat) (w : World) : World :=
  with_refs (fun x =>
      {| mediaRecorderRef := v; audioChunksRef := audioChunksRef x; streamRef
      := streamRef x; startTimeRef := startTimeRef x; durationIntervalRef :=
      durationIntervalRef x |}) w.

Definition set_audioChunksRef (v : list Blob) (w : World) : World :=
  with_refs (fun x =>
      {| mediaRecorderRef := mediaRecorderRef x; audioChunksRef := v;
      streamRef := streamRef x; startTimeRef := startTimeRef x;
      durationIntervalRef := durationIntervalRef x |}) w.

Definition set_streamRef (v : option nat) (w : World) : World :=
  with_refs (fun x =>
      {| mediaRecorderRef := mediaRecorderRef x; audioChunksRef :=
      audioChunksRef x; streamRef := v; startTimeRef := startTimeRef x;
      durationIntervalRef := durationIntervalRef x |}) w.

Definition set_startTimeRef (v : Z) (w : World) : World :=
  with_refs (fun x =>
      {| mediaRecorderRef := mediaRecorderRef x; audioChunksRef :=
      audioChunksRef x; streamRef := streamRef x; startTimeRef := v;
      durationIntervalRef := durationIntervalRef x |}) w.

Definition set_durationIntervalRef (v : option positive) (w : World) : World :=
  with_refs (fun x =>
      {| mediaRecorderRef := mediaRecorderRef x; audioChunksRef :=
      audioChunksRef x; streamRef := streamRef x; startTimeRef := startTimeRef
      x; durationIntervalRef := v |}) w.

Definition set_pendingAcquire (v : nat) (w : World) : World :=
  with_plat (fun x =>
      {| pendingAcquire := v; liveStreams := liveStreams x; liveTimers :=
      liveTimers x; objectURLs := objectURLs x; recorders := recorders x;
      nextStream := nextStream x; nextRecorder := nextRecorder x; nextURL :=
      nextURL x; nextTimer := nextTimer x |}) w.

Definition set_liveStreams (v : gset nat) (w : World) : World :=
  with_plat (fun x =>
      {| pendingAcquire := pendingAcquire x; liveStreams := v; liveTimers :=
      liveTimers x; objectURLs := objectURLs x; recorders := recorders x;
      nextStream := nextStream x; nextRecorder := nextRecorder x; nextURL :=
      nextURL x; nextTimer := nextTimer x |}) w.

Definition set_liveTimers (v : gset positive) (w : World) : World :=
  with_plat (fun x =>
      {| pendingAcquire := pendingAcquire x; liveStreams := liveStreams x;
      liveTimers := v; objectURLs := objectURLs x; recorders := recorders x;
      nextStream := nextStream x; nextRecorder := nextRecorder x; nextURL :=
      nextURL x; nextTimer := nextTimer x |}) w.

Definition set_objectURLs (v : gmap nat Blob) (w : World) : World :=
  with_plat (fun x =>
      {| pendingAcquire := pendingAcquire x; liveStreams := liveStreams x;
      liveTimers := liveTimers x; objectURLs := v; recorders := recorders x;
      nextStream := nextStream x; nextRecorder := nextRecorder x; nextURL :=
      nextURL x; nextTimer := nextTimer x |}) w.

Definition set_recorders (v : gmap nat MediaRecorder) (w : World) : World :=
  with_plat (fun x =>
      {| pendingAcquire := pendingAcquire x; liveStreams := liveStreams x;
      liveTimers := liveTimers x; objectURLs := objectURLs x; recorders := v;
      nextStream := nextStream x; nextRecorder := nextRecorder x; nextURL :=
      nextURL x; nextTimer := nextTimer x |}) w.

Definition set_nextStream (v : nat) (w : World) : World :=
  with_plat (fun x =>
      {| pendingAcquire := pendingAcquire x; liveStreams := liveStreams x;
      liveTimers := liveTimers x; objectURLs := objectURLs x; recorders :=
      recorders x; nextStream := v; nextRecorder := nextRecorder x; nextURL :=
      nextURL x; nextTimer := nextTimer x |}) w.

Definition set_nextRecorder (v : nat) (w : World) : World :=
  with_plat (fun x =>
      {| pendingAcquire := pendingAcquire x; liveStreams := liveStreams x;
      liveTimers := liveTimers x; objectURLs := objectURLs x; recorders :=
      recorders x; nextStream := nextStream x; nextRecorder := v; nextURL :=
      nextURL x; nextTimer := nextTimer x |}) w.

Definition set_nextURL (v : nat) (w : World) : World :=
  with_plat (fun x =>
      {| pendingAcquire := pendingAcquire x; liveStreams := liveStreams x;
      liveTimers := liveTimers x; objectURLs := objectURLs x; recorders :=
      recorders x; nextStream := nextStream x; nextRecorder := nextRecorder x;
      nextURL := v; nextTimer := nextTimer x |}) w.

Definition set_nextTimer (v : positive) (w : World) : World :=
  with_plat (fun x =>
      {| pendingAcquire := pendingAcquire x; liveStreams := liveStreams x;
      liveTimers := liveTimers x; objectURLs := objectURLs x; recorders :=
      recorders x; nextStream := nextStream x; nextRecorder := nextRecorder x;
      nextURL := nextURL x; nextTimer := v |}) w.

(** *** Platform operations *)

(** [stream.getTracks().forEach(track => track.stop())] *)
Definition stop_tracks (s : nat) (w : World) : World :=
  set_liveStreams (liveStreams (plat w) ∖ {[s]}) w.

(** [clearInterval(id)] *)
Definition clearInterval (t : positive) (w : World) : World :=
  set_liveTimers (liveTimers (plat w) ∖ {[t]}) w.

(** [URL.revokeObjectURL(url)]; revoking an unknown URL does nothing. *)
Definition revokeObjectURL (u : nat) (w : World) : World :=
  set_objectURLs (delete u (objectURLs (plat w))) w.

(** [URL.createObjectURL(blob)]: a fresh URL for the blob. *)
Definition createObjectURL (b : Blob) (w : World) : nat * World :=
  let u := nextURL (plat w) in
  (u, set_nextURL (S u) (set_objectURLs (<[u := b]> (objectURLs (plat w))) w)).

(** [recorder.stop()], after the MediaStream Recording algorithm: on an
    inactive recorder the call returns at once, otherwise the recorder
    becomes inactive (its [dataavailable] and [stop] events follow as
    later tasks). *)
Definition inactivate (r : MediaRecorder) : MediaRecorder :=
  match mr_state r with
  | inactive => r
  | _ => {| mr_stream := mr_stream r; mr_mimeType := mr_mimeType r;
            mr_state := inactive |}
  end.

Definition MediaRecorder_stop (r : nat) (w : World) : World :=
  set_recorders (alter inactivate r (recorders (plat w))) w.

(** *** startRecording *)

(** The preference list of lines 63-72; [""] lets the browser choose. *)
Definition negotiate_mimeType (supported : string -> bool) : string :=
  if supported "audio/webm;codecs=opus" then "audio/webm;codecs=opus"
  else if supported "audio/webm" then "audio/webm"
  else if supported "audio/mp4" then "audio/mp4"
  else "".

(** The message built by the [catch] block. *)
Definition errorMessage (err : Thrown) : string :=
  "Could not access microphone. " +:+
  match err with
  | ErrorObject name message =>
      if String.eqb name "NotAllowedError" then
        "Please allow microphone access and try again."
      else if String.eqb name "NotFoundError" then
        "No microphone found. Please connect a microphone and try again."
      else if String.eqb name "NotSupportedError" then
        "Your browser does not support audio recording."
      else message
  | NonError =>
      "Please check your microphone permissions and try again."
  end.

(** The [catch] block (lines 137-164): report, go inactive, and stop the
    stream held in [streamRef], if any. *)
Definition startRecording_catch (err : Thrown) (w : World) : World :=
  let w := setError (Some (errorMessage err)) w in
  let w := setRecordingState inactive w in
  match streamRef (refs w) with
  | Some s => set_streamRef None (stop_tracks s w)
  | None => w
  end.

(** [startRecording] up to its [await] (lines 29-46).  [url] is the
    [audioURL] the callback closed over; [supported] tells whether
    [navigator.mediaDevices.getUserMedia] exists. *)
Definition startRecording_begin_in (url : option nat) (supported : bool)
    (w : World) : World :=
  let w := match url with
           | Some u => setAudioURL None (revokeObjectURL u w)
           | None => w
           end in
  let w := set_audioChunksRef [] w in
  let w := setError None w in
  let w := setDuration 0 w in
  if supported then
    set_pendingAcquire (S (pendingAcquire (plat w))) w
  else
    startRecording_catch
      (ErrorObject "Error"
         "Your browser does not support audio recording. Please use a modern browser like Chrome, Firefox, or Safari.")
      w.

Definition startRecording_begin (supported : bool) (w : World) : World :=
  startRecording_begin_in (audioURL (hook w)) supported w.

(** The continuation after [await getUserMedia(...)] (lines 55-135),
    run when one pending acquisition settles. *)
Definition startRecording_resume (res : AcquireResult) (env : Env)
    (w : World) : World :=
  match pendingAcquire (plat w) with
  | O => w
  | S n =>
    let w := set_pendingAcquire n w in
    match res with
    | Rejected err => startRecording_catch err w
    | Granted =>
      let s := nextStream (plat w) in
      let w := set_nextStream (S s)
                 (set_liveStreams ({[s]} ∪ liveStreams (plat w)) w) in
      let w := set_streamRef (Some s) w in
      if negb (hasMediaRecorder env) then
        startRecording_catch
          (ErrorObject "Error" "MediaRecorder is not supported in your browser.")
          w
      else
        let mimeType := negotiate_mimeType (isTypeSupported env) in
        match ctorThrows env with
        | Some err => startRecording_catch err w
        | None =>
          let r := nextRecorder (plat w) in
          let w := set_nextRecorder (S r)
                     (set_recorders
                        (<[r := {| mr_stream := s; mr_mimeType := mimeType;
                                   mr_state := inactive |}]>
                           (recorders (plat w))) w) in
          let w := set_mediaRecorderRef (Some r) w in
          match startThrows env with
          | Some err => startRecording_catch err w
          | None =>
            let w := set_recorders
                       (<[r := {| mr_stream := s; mr_mimeType := mimeType;
                                  mr_state := recording |}]>
                          (recorders (plat w))) w in
            let w := setRecordingState recording w in
            let w := set_startTimeRef (now env) w in
            let t := nextTimer (plat w) in
            let w := set_nextTimer (Pos.succ t)
                       (set_liveTimers ({[t]} ∪ liveTimers (plat w)) w) in
            set_durationIntervalRef (Some t) w
          end
        end
    end
  end.

(** *** Listeners of the recorder *)

(** ['dataavailable'] (lines 79-83): keep the chunk only when it exists
    and is not empty. *)
Definition on_dataavailable (data : option Blob) (w : World) : World :=
  match data with
  | Some b =>
      if (0 <? blob_size b)%nat then
        set_audioChunksRef (audioChunksRef (refs w) ++ [b]) w
      else w
  | None => w
  end.

(** Which of the three paths the ['stop'] listener takes. *)
Inductive StopBranch : Type :=
  | NoChunks
  | ZeroByteBlob
  | Finalized.

Definition assembled (mimeType : string) (w : World) : Blob :=
  new_Blob (audioChunksRef (refs w))
    (if String.eqb mimeType "" then "audio/wav" else mimeType).

Definition stop_branch (mimeType : string) (w : World) : StopBranch :=
  match audioChunksRef (refs w) with
  | [] => NoChunks
  | _ :: _ =>
      if (blob_size (assembled mimeType w) =? 0)%nat then ZeroByteBlob
      else Finalized
  end.

(** ['stop'] (lines 85-119).  [mimeType] is the one the listener closed
    over. *)
Definition on_stop (mimeType : string) (w : World) : World :=
  match stop_branch mimeType w with
  | NoChunks =>
      setRecordingState inactive
        (setError (Some "No audio data was recorded. Please try again.") w)
  | ZeroByteBlob =>
      setRecordingState inactive
        (setError (Some "Recording failed - no audio data captured.") w)
  | Finalized =>
      let '(url, w) := createObjectURL (assembled mimeType w) w in
      let w := setAudioURL (Some url) w in
      let w := setRecordingState stopped w in
      let w := match durationIntervalRef (refs w) with
               | Some t => set_durationIntervalRef None (clearInterval t w)
               | None => w
               end in
      match streamRef (refs w) with
      | Some s => set_streamRef None (stop_tracks s w)
      | None => w
      end
  end.

(** ['error'] (lines 121-125). *)
Definition on_error (w : World) : World :=
  setRecordingState inactive
    (setError (Some "Recording failed due to an error. Please try again.") w).

(** The interval callback (lines 133-135), [Math.floor] of the elapsed
    seconds. *)
Definition on_tick (now : Z) (w : World) : World :=
  setDuration ((now - startTimeRef (refs w)) / 1000) w.

(** *** stopRecording and resetRecording *)

(** [stopRecording] (lines 167-171); [rs] is the [recordingState] the
    callback closed over. *)
Definition stopRecording_in (rs : RecordingState) (w : World) : World :=
  match mediaRecorderRef (refs w) with
  | Some r => if decide (rs = recording) then MediaRecorder_stop r w else w
  | None => w
  end.

Definition stopRecording (w : World) : World :=
  stopRecording_in (recordingState (hook w)) w.

(** [resetRecording] (lines 173-201); [rs] and [url] are the
    [recordingState] and [audioURL] the callback closed over. *)
Definition resetRecording_in (rs : RecordingState) (url : option nat)
    (w : World) : World :=
  let w := stopRecording_in rs w in
  let w := match url with
           | Some u => revokeObjectURL u w
           | None => w
           end in
  let w := match streamRef (refs w) with
           | Some s => set_streamRef None (stop_tracks s w)
           | None => w
           end in
  let w := match durationIntervalRef (refs w) with
           | Some t => set_durationIntervalRef None (clearInterval t w)
           | None => w
           end in
  let w := setAudioURL None w in
  let w := setRecordingState inactive w in
  let w := setError None w in
  let w := setDuration 0 w in
  set_audioChunksRef [] w.

Definition resetRecording (w : World) : World :=
  resetRecording_in (recordingState (hook w)) (audioURL (hook w)) w.

(** *** Runs *)

(** One transition per callback.  A listener event names the recorder
    that fires it and does nothing when no such recorder was created; a
    timer only fires while it is live. *)
Inductive Action : Type :=
  | CallStart (supported : bool)
  | Settle (res : AcquireResult) (env : Env)
  | CallStop
  | CallReset
  | DataAvailable (r : nat) (data : option Blob)
  | Stop (r : nat)
  | RecorderError (r : nat)
  | Tick (t : positive) (now : Z).

Definition step (w : World) (a : Action) : World :=
  match a with
  | CallStart supported => startRecording_begin supported w
  | Settle res env => startRecording_resume res env w
  | CallStop => stopRecording w
  | CallReset => resetRecording w
  | DataAvailable r data =>
      match recorders (plat w) !! r with
      | Some _ => on_dataavailable data w
      | None => w
      end
  | Stop r =>
      match recorders (plat w) !! r with
      | Some rec => on_stop (mr_mimeType rec) w
      | None => w
      end
  | RecorderError r =>
      match recorders (plat w) !! r with
      | Some _ => on_error w
      | None => w
      end
  | Tick t now =>
      if decide (t ∈ liveTimers (plat w)) then on_tick now w else w
  end.

Definition run (w : World) (trace : list Action) : World :=
  fold_left step trace w.

(** The state of a freshly mounted hook. *)
Definition init : World :=
  {| hook := {| recordingState := inactive; audioURL := None;
                error := None; duration := 0 |};
     refs := {| mediaRecorderRef := None; audioChunksRef := [];
                streamRef := None; startTimeRef := 0;
                durationIntervalRef := None |};
     plat := {| pendingAcquire := 0; liveStreams := ∅; liveTimers := ∅;
                objectURLs := ∅; recorders := ∅; nextStream := 0;
                nextRecorder := 0; nextURL := 0; nextTimer := 1 |} |}.

Definition reachable (w : World) : Prop :=
  exists trace, run init trace = w.

(** A platform on which recording works: Chrome-like mime support, no
    exception. *)
Definition env_ok (t : Z) : Env :=
  {| hasMediaRecorder := true;
     isTypeSupported := fun m => String.eqb m "audio/webm;codecs=opus"
                                 || String.eqb m "audio/webm";
     ctorThrows := None; startThrows := None; now := t |}.

(** The recorders after [stopRecording] ran with the closed-over state
    [rs]. *)
Definition stopped_recorders (rs : RecordingState) (w : World)
    : gmap nat MediaRecorder :=
  match mediaRecorderRef (refs w) with
  | Some r =>
      if decide (rs = recording) then alter inactivate r (recorders (plat w))
      else recorders (plat w)
  | None => recorders (plat w)
  end.

(** Every buffered chunk has at least one byte. *)
Definition chunks_nonempty (w : World) : Prop :=
  Forall (fun b => (0 < blob_size b)%nat) (audioChunksRef (refs w)).

(** Every live stream was handed out before the next fresh one. *)
Definition streams_below (w : World) : Prop :=
  forall s, s ∈ liveStreams (plat w) -> (s < nextStream (plat w))%nat.

End Recorder.

(** ** The streaming client (DeepgramLiveTranscription) and the live
    hook (useDeepgramLive.ts) *)

Module Deepgram.

Export Browser.
Local Open Scope string_scope.

(** [LiveConnectionState] of the Deepgram SDK; the code only ever
    passes [OPEN] and [CLOSED] on. *)
Inductive LiveConnectionState : Type :=
  | CONNECTING
  | OPEN
  | CLOSING
  | CLOSED.

#[global] Instance LiveConnectionState_eq_dec : EqDecision LiveConnectionState.
Proof. solve_decision. Defined.

Record Word : Type := {
  word : string;
  w_start : Q;
  w_end : Q;
  w_confidence : Q
}.

(** [interface TranscriptionResult]; the optional [speaker], [start] and
    [end] are carried along and read by nobody. *)
Record TranscriptionResult : Type := {
  res_transcript : string;
  res_confidence : Q;
  is_final : bool;
  res_speaker : option Z;
  res_start : option Q;
  res_end : option Q;
  res_words : option (list Word)
}.

(** The payload of a [Transcript] event as the listener reads it:
    [data.channel?.alternatives?.[0]] and its optional members. *)
Record Alternative : Type := {
  alt_transcript : option string;
  alt_confidence : option Q;
  alt_words : option (list Word)
}.

Record TranscriptData : Type := {
  data_alternative : option Alternative;
  data_is_final : option bool;
  data_speaker : option Z;
  data_start : option Q;
  data_end : option Q
}.

(** The [useState] cells of the hook. *)
Record Hook : Type := {
  transcript : string;
  interimTranscript : string;
  finalTranscript : string;
  confidence : Q;
  isConnected : bool;
  isListening : bool;
  error : option string;
  connectionState : option LiveConnectionState;
  words : list Word
}.

(** The [useRef] cells the hook uses ([mediaRecorderRef] is declared
    and never touched). *)
Record Refs : Type := {
  streamRef : option nat;
  audioContextRef : option nat;
  processorRef : option nat
}.

(** The fields of the singleton [deepgramClient]. *)
Record Client : Type := {
  connection : option nat;
  client_isConnected : bool
}.

(** The browser and SDK side: pending [getUserMedia] promises, live
    streams, audio contexts not closed, script processors still wired
    into the graph, the channels on which [finish()] was called (a set:
    asking a channel to finish again changes nothing), the frames handed
    to [connection.send] (with the channel they went to), the
    [console.warn] lines, and the next fresh handles. *)
Record Platform : Type := {
  pendingAcquire : nat;
  liveStreams : gset nat;
  openContexts : gset nat;
  wiredProcessors : gset nat;
  finished : gset nat;
  sent : list (nat * list Z);
  warnings : list string;
  nextStream : nat;
  nextContext : nat;
  nextProcessor : nat;
  nextConnection : nat
}.

Record World : Type := {
  hook : Hook;
  refs : Refs;
  client : Client;
  plat : Platform
}.

Definition with_hook (f : Hook -> Hook) (w : World) : World :=
  {| hook := f (hook w); refs := refs w; client := client w; plat := plat w |}.

Definition with_refs (f : Refs -> Refs) (w : World) : World :=
  {| hook := hook w; refs := f (refs w); client := client w; plat := plat w |}.

Definition with_client (f : Client -> Client) (w : World) : World :=
  {| hook := hook w; refs := refs w; client := f (client w); plat := plat w |}.

Definition with_plat (f : Platform -> Platform) (w : World) : World :=
  {| hook := hook w; refs := refs w; client := client w; plat := f (plat w) |}.

Definition setTranscript (v : string) (w : World) : World :=
  with_hook (fun x =>
      {| transcript := v; interimTranscript := interimTranscript x;
      finalTranscript := finalTranscript x; confidence := confidence x;
      isConnected := isConnected x; isListening := isListening x; error :=
      error x; connectionState := connectionState x; words := words x |}) w.

Definition setInterimTranscript (v : string) (w : World) : World :=
  with_hook (fun x =>
      {| transcript := transcript x; interimTranscript := v; finalTranscript
      := finalTranscript x; confidence := confidence x; isConnected :=
      isConnected x; isListening := isListening x; error := error x;
      connectionState := connectionState x; words := words x |}) w.

Definition setFinalTranscript (v : string) (w : World) : World :=
  with_hook (fun x =>
      {| transcript := transcript x; interimTranscript := interimTranscript x;
      finalTranscript := v; confidence := confidence x; isConnected :=
      isConnected x; isListening := isListening x; error := error x;
      connectionState := connectionState x; words := words x |}) w.

Definition setConfidence (v : Q) (w : World) : World :=
  with_hook (fun x =>
      {| transcript := transcript x; interimTranscript := interimTranscript x;
      finalTranscript := finalTranscript x; confidence := v; isConnected :=
      isConnected x; isListening := isListening x; error := error x;
      connectionState := connectionState x; words := words x |}) w.

Definition setIsConnected (v : bool) (w : World) : World :=
  with_hook (fun x =>
      {| transcript := transcript x; interimTranscript := interimTranscript x;
      finalTranscript := finalTranscript x; confidence := confidence x;
      isConnected := v; isListening := isListening x; error := error x;
      connectionState := connectionState x; words := words x |}) w.

Definition setIsListening (v : bool) (w : World) : World :=
  with_hook (fun x =>
      {| transcript := transcript x; interimTranscript := interimTranscript x;
      finalTranscript := finalTranscript x; confidence := confidence x;
      isConnected := isConnected x; isListening := v; error := error x;
      connectionState := connectionState x; words := words x |}) w.

Definition setError (v : option string) (w : World) : World :=
  with_hook (fun x =>
      {| transcript := transcript x; interimTranscript := interimTranscript x;
      finalTranscript := finalTranscript x; confidence := confidence x;
      isConnected := isConnected x; isListening := isListening x; error := v;
      connectionState := connectionState x; words := words x |}) w.

Definition setConnectionState (v : option LiveConnectionState) (w : World) : World :=
  with_hook (fun x =>
      {| transcript := transcript x; interimTranscript := interimTranscript x;
      finalTranscript := finalTranscript x; confidence := confidence x;
      isConnected := isConnected x; isListening := isListening x; error :=
      error x; connectionState := v; words := words x |}) w.

Definition setWords (v : list Word) (w : World) : World :=
  with_hook (fun x =>
      {| transcript := transcript x; interimTranscript := interimTranscript x;
      finalTranscript := finalTranscript x; confidence := confidence x;
      isConnected := isConnected x; isListening := isListening x; error :=
      error x; connectionState := connectionState x; words := v |}) w.

Definition set_streamRef (v : option nat) (w : World) : World :=
  with_refs (fun x =>
      {| streamRef := v; audioContextRef := audioContextRef x; processorRef :=
      processorRef x |}) w.

Definition set_audioContextRef (v : option nat) (w : World) : World :=
  with_refs (fun x =>
      {| streamRef := streamRef x; audioContextRef := v; processorRef :=
      processorRef x |}) w.

Definition set_processorRef (v : option nat) (w : World) : World :=
  with_refs (fun x =>
      {| streamRef := streamRef x; audioContextRef := audioContextRef x;
      processorRef := v |}) w.

Definition set_connection (v : option nat) (w : World) : World :=
  with_client (fun x =>
      {| connection := v; client_isConnected := client_isConnected x |}) w.

Definition set_client_isConnected (v : bool) (w : World) : World :=
  with_client (fun x =>
      {| connection := connection x; client_isConnected := v |}) w.

Definition set_pendingAcquire (v : nat) (w : World) : World :=
  with_plat (fun x =>
      {| pendingAcquire := v; liveStreams := liveStreams x; openContexts :=
      openContexts x; wiredProcessors := wiredProcessors x; finished :=
      finished x; sent := sent x; warnings := warnings x; nextStream :=
      nextStream x; nextContext := nextContext x; nextProcessor :=
      nextProcessor x; nextConnection := nextConnection x |}) w.

Definition set_liveStreams (v : gset nat) (w : World) : World :=
  with_plat (fun x =>
      {| pendingAcquire := pendingAcquire x; liveStreams := v; openContexts :=
      openContexts x; wiredProcessors := wiredProcessors x; finished :=
      finished x; sent := sent x; warnings := warnings x; nextStream :=
      nextStream x; nextContext := nextContext x; nextProcessor :=
      nextProcessor x; nextConnection := nextConnection x |}) w.

Definition set_openContexts (v : gset nat) (w : World) : World :=
  with_plat (fun x =>
      {| pendingAcquire := pendingAcquire x; liveStreams := liveStreams x;
      openContexts := v; wiredProcessors := wiredProcessors x; finished :=
      finished x; sent := sent x; warnings := warnings x; nextStream :=
      nextStream x; nextContext := nextContext x; nextProcessor :=
      nextProcessor x; nextConnection := nextConnection x |}) w.

Definition set_wiredProcessors (v : gset nat) (w : World) : World :=
  with_plat (fun x =>
      {| pendingAcquire := pendingAcquire x; liveStreams := liveStreams x;
      openContexts := openContexts x; wiredProcessors := v; finished :=
      finished x; sent := sent x; warnings := warnings x; nextStream :=
      nextStream x; nextContext := nextContext x; nextProcessor :=
      nextProcessor x; nextConnection := nextConnection x |}) w.

Definition set_finished (v : gset nat) (w : World) : World :=
  with_plat (fun x =>
      {| pendingAcquire := pendingAcquire x; liveStreams := liveStreams x;
      openContexts := openContexts x; wiredProcessors := wiredProcessors x;
      finished := v; sent := sent x; warnings := warnings x; nextStream :=
      nextStream x; nextContext := nextContext x; nextProcessor :=
      nextProcessor x; nextConnection := nextConnection x |}) w.

Definition set_sent (v : list (nat * list Z)) (w : World) : World :=
  with_plat (fun x =>
      {| pendingAcquire := pendingAcquire x; liveStreams := liveStreams x;
      openContexts := openContexts x; wiredProcessors := wiredProcessors x;
      finished := finished x; sent := v; warnings := warnings x; nextStream :=
      nextStream x; nextContext := nextContext x; nextProcessor :=
      nextProcessor x; nextConnection := nextConnection x |}) w.

Definition set_warnings (v : list string) (w : World) : World :=
  with_plat (fun x =>
      {| pendingAcquire := pendingAcquire x; liveStreams := liveStreams x;
      openContexts := openContexts x; wiredProcessors := wiredProcessors x;
      finished := finished x; sent := sent x; warnings := v; nextStream :=
      nextStream x; nextContext := nextContext x; nextProcessor :=
      nextProcessor x; nextConnection := nextConnection x |}) w.

Definition set_nextStream (v : nat) (w : World) : World :=
  with_plat (fun x =>
      {| pendingAcquire := pendingAcquire x; liveStreams := liveStreams x;
      openContexts := openContexts x; wiredProcessors := wiredProcessors x;
      finished := finished x; sent := sent x; warnings := warnings x;
      nextStream := v; nextContext := nextContext x; nextProcessor :=
      nextProcessor x; nextConnection := nextConnection x |}) w.

Definition set_nextContext (v : nat) (w : World) : World :=
  with_plat (fun x =>
      {| pendingAcquire := pendingAcquire x; liveStreams := liveStreams x;
      openContexts := openContexts x; wiredProcessors := wiredProcessors x;
      finished := finished x; sent := sent x; warnings := warnings x;
      nextStream := nextStream x; nextContext := v; nextProcessor :=
      nextProcessor x; nextConnection := nextConnection x |}) w.

Definition set_nextProcessor (v : nat) (w : World) : World :=
  with_plat (fun x =>
      {| pendingAcquire := pendingAcquire x; liveStreams := liveStreams x;
      openContexts := openContexts x; wiredProcessors := wiredProcessors x;
      finished := finished x; sent := sent x; warnings := warnings x;
      nextStream := nextStream x; nextContext := nextContext x; nextProcessor
      := v; nextConnection := nextConnection x |}) w.

Definition set_nextConnection (v : nat) (w : World) : World :=
  with_plat (fun x =>
      {| pendingAcquire := pendingAcquire x; liveStreams := liveStreams x;
      openContexts := openContexts x; wiredProcessors := wiredProcessors x;
      finished := finished x; sent := sent x; warnings := warnings x;
      nextStream := nextStream x; nextContext := nextContext x; nextProcessor
      := nextProcessor x; nextConnection := v |}) w.

(** *** The client *)

(** [isConnectionActive()] *)
Definition isConnectionActive (w : World) : bool :=
  client_isConnected (client w).

Definition console_warn (line : string) (w : World) : World :=
  set_warnings (warnings (plat w) ++ [line]) w.

(** [sendAudio(audioData)]: hand the frame to the channel when there is
    one and the client believes it connected, warn otherwise. *)
Definition sendAudio (audioData : list Z) (w : World) : World :=
  match connection (client w) with
  | Some k =>
      if client_isConnected (client w) then
        set_sent (sent (plat w) ++ [(k, audioData)]) w
      else console_warn "Deepgram connection not ready" w
  | None => console_warn "Deepgram connection not ready" w
  end.

(** [stopTranscription()] *)
Definition stopTranscription (w : World) : World :=
  match connection (client w) with
  | Some k =>
      set_client_isConnected false
        (set_finished ({[k]} ∪ finished (plat w)) w)
  | None => w
  end.

(** The [TranscriptionResult] the [Transcript] listener builds, when
    the event has a first alternative. *)
Definition to_result (data : TranscriptData) : option TranscriptionResult :=
  match data_alternative data with
  | Some alt =>
      Some {| res_transcript := default "" (alt_transcript alt);
              res_confidence := default 0%Q (alt_confidence alt);
              is_final := default false (data_is_final data);
              res_speaker := data_speaker data;
              res_start := data_start data;
              res_end := data_end data;
              res_words := alt_words alt |}
  | None => None
  end.

(** *** The callbacks the hook passes to [startLiveTranscription] *)

(** [onTranscript] (lines 93-107). *)
Definition onTranscript (result : TranscriptionResult) (w : World) : World :=
  let w :=
    if is_final result then
      let w := setFinalTranscript
                 (finalTranscript (hook w) +:+ " " +:+ res_transcript result) w in
      let w := setInterimTranscript "" w in
      setTranscript (transcript (hook w) +:+ " " +:+ res_transcript result) w
    else
      setInterimTranscript (res_transcript result) w in
  let w := setConfidence (res_confidence result) w in
  match res_words result with
  | Some ws => setWords ws w
  | None => w
  end.

(** [onError] (lines 108-111): [error.message || '...']. *)
Definition onError (message : option string) (w : World) : World :=
  setError
    (Some match message with
          | Some m => if String.eqb m "" then "Transcription error occurred" else m
          | None => "Transcription error occurred"
          end) w.

(** [onConnectionChange] (lines 112-115). *)
Definition onConnectionChange (state : LiveConnectionState) (w : World) : World :=
  setIsConnected (bool_decide (state = OPEN))
    (setConnectionState (Some state) w).

(** *** The listeners the client registers on a channel *)

Definition on_Open (w : World) : World :=
  onConnectionChange OPEN (set_client_isConnected true w).

Definition on_Close (w : World) : World :=
  onConnectionChange CLOSED (set_client_isConnected false w).

Definition on_Transcript (data : TranscriptData) (w : World) : World :=
  match to_result data with
  | Some result => onTranscript result w
  | None => w
  end.

(** *** The hook *)

(** [onaudioprocess] (lines 71-85). *)
Definition onaudioprocess (inputData : list Pcm.number) (w : World) : World :=
  if isConnectionActive w then sendAudio (Pcm.convert_frame inputData) w
  else w.

(** The [catch] block of [startListening] (lines 118-122). *)
Definition startListening_catch (err : Thrown) (w : World) : World :=
  setIsListening false
    (setError (Some match err with
                    | ErrorObject _ message => message
                    | NonError => "Failed to start listening"
                    end) w).

(** [startListening] up to its first [await] (lines 47-52); [throws]
    is what reading [navigator.mediaDevices.getUserMedia] raises, if
    anything. *)
Definition startListening_begin (throws : option Thrown) (w : World) : World :=
  let w := setError None w in
  let w := setIsListening true w in
  match throws with
  | Some err => startListening_catch err w
  | None => set_pendingAcquire (S (pendingAcquire (plat w))) w
  end.

(** What the platform answers during the continuation: whether
    [new AudioContext] or [client.listen.live] throws. *)
Record Env : Type := {
  contextThrows : option Thrown;
  liveThrows : option Thrown
}.

(** The continuation after [await getUserMedia(...)] (lines 62-116).
    [startLiveTranscription] has no [await] of its own: it creates the
    channel, registers the listeners and returns, or rethrows. *)
Definition startListening_resume (res : AcquireResult) (env : Env)
    (w : World) : World :=
  match pendingAcquire (plat w) with
  | O => w
  | S n =>
    let w := set_pendingAcquire n w in
    match res with
    | Rejected err => startListening_catch err w
    | Granted =>
      let s := nextStream (plat w) in
      let w := set_nextStream (S s)
                 (set_liveStreams ({[s]} ∪ liveStreams (plat w)) w) in
      let w := set_streamRef (Some s) w in
      match contextThrows env with
      | Some err => startListening_catch err w
      | None =>
        let c := nextContext (plat w) in
        let w := set_nextContext (S c)
                   (set_openContexts ({[c]} ∪ openContexts (plat w)) w) in
        let w := set_audioContextRef (Some c) w in
        let p := nextProcessor (plat w) in
        let w := set_nextProcessor (S p) w in
        let w := set_processorRef (Some p) w in
        let w := set_wiredProcessors ({[p]} ∪ wiredProcessors (plat w)) w in
        match liveThrows env with
        | Some err => startListening_catch err w
        | None =>
          let k := nextConnection (plat w) in
          set_connection (Some k) (set_nextConnection (S k) w)
        end
      end
    end
  end.

(** [stopListening] (lines 125-150). *)
Definition stopListening (w : World) : World :=
  let w := setIsListening false w in
  let w := stopTranscription w in
  let w := match processorRef (refs w) with
           | Some p =>
               set_processorRef None
                 (set_wiredProcessors (wiredProcessors (plat w) ∖ {[p]}) w)
           | None => w
           end in
  let w := match audioContextRef (refs w) with
           | Some c =>
               set_audioContextRef None
                 (set_openContexts (openContexts (plat w) ∖ {[c]}) w)
           | None => w
           end in
  let w := match streamRef (refs w) with
           | Some s =>
               set_streamRef None
                 (set_liveStreams (liveStreams (plat w) ∖ {[s]}) w)
           | None => w
           end in
  let w := setIsConnected false w in
  setConnectionState None w.

(** [clearTranscript] (lines 152-159). *)
Definition clearTranscript (w : World) : World :=
  let w := setTranscript "" w in
  let w := setInterimTranscript "" w in
  let w := setFinalTranscript "" w in
  let w := setConfidence 0%Q w in
  let w := setWords [] w in
  setError None w.

(** *** Runs *)

(** One transition per callback.  A channel event names the channel
    that fires it, which must have been created; [onaudioprocess] fires
    only for a processor still wired into the graph. *)
Inductive Action : Type :=
  | CallStartListening (throws : option Thrown)
  | Settle (res : AcquireResult) (env : Env)
  | CallStopListening
  | CallClearTranscript
  | Open (k : nat)
  | Close (k : nat)
  | ChannelError (k : nat) (message : option string)
  | Transcript (k : nat) (data : TranscriptData)
  | AudioProcess (p : nat) (inputData : list Pcm.number).

Definition created (k : nat) (w : World) : bool :=
  (k <? nextConnection (plat w))%nat.

Definition step (w : World) (a : Action) : World :=
  match a with
  | CallStartListening throws => startListening_begin throws w
  | Settle res env => startListening_resume res env w
  | CallStopListening => stopListening w
  | CallClearTranscript => clearTranscript w
  | Open k => if created k w then on_Open w else w
  | Close k => if created k w then on_Close w else w
  | ChannelError k message => if created k w then onError message w else w
  | Transcript k data => if created k w then on_Transcript data w else w
  | AudioProcess p inputData =>
      if decide (p ∈ wiredProcessors (plat w)) then onaudioprocess inputData w
      else w
  end.

Definition run (w : World) (trace : list Action) : World :=
  fold_left step trace w.

(** The state of a freshly mounted hook with a fresh client. *)
Definition init : World :=
  {| hook := {| transcript := ""; interimTranscript := "";
                finalTranscript := ""; confidence := 0%Q;
                isConnected := false; isListening := false; error := None;
                connectionState := None; words := [] |};
     refs := {| streamRef := None; audioContextRef := None;
                processorRef := None |};
     client := {| connection := None; client_isConnected := false |};
     plat := {| pendingAcquire := 0; liveStreams := ∅; openContexts := ∅;
                wiredProcessors := ∅; finished := ∅; sent := [];
                warnings := []; nextStream := 0; nextContext := 0;
                nextProcessor := 0; nextConnection := 0 |} |}.

Definition reachable (w : World) : Prop :=
  exists trace, run init trace = w.

Definition env_ok : Env := {| contextThrows := None; liveThrows := None |}.

(** The final segments behind [finalTranscript]: each one was appended
    after a single space. *)
Definition render (segments : list string) : string :=
  fold_left (fun acc seg => acc +:+ " " +:+ seg) segments "".

(** Two events of one utterance: the interim "hel", then the final
    "hello world". *)
Definition interim_hel : TranscriptionResult :=
  {| res_transcript := "hel"; res_confidence := 0.5%Q; is_final := false;
     res_speaker := None; res_start := None; res_end := None;
     res_words := None |}.

Definition final_hello_world : TranscriptionResult :=
  {| res_transcript := "hello world"; res_confidence := 0.75%Q;
     is_final := true; res_speaker := None; res_start := None;
     res_end := None; res_words := Some [] |}.

(** The guard of [sendAudio]: a channel exists and the client believes
    it connected. *)
Definition client_open (w : World) : bool :=
  match connection (client w) with
  | Some _ => client_isConnected (client w)
  | None => false
  end.

(** A sequence of [sendAudio] calls, and a sequence of [onaudioprocess]
    callbacks, with nothing else in between. *)
Definition send_all (frames : list (list Z)) (w : World) : World :=
  fold_left (fun w frame => sendAudio frame w) frames w.

Definition process_all (inputs : list (list Pcm.number)) (w : World) : World :=
  fold_left (fun w inputData => onaudioprocess inputData w) inputs w.

(** [finalTranscript] is the rendering of some sequence of segments. *)
Definition has_segments (w : World) : Prop :=
  exists segments, finalTranscript (hook w) = render segments.

(** The hook's view of the channel agrees with the client's flag. *)
Definition in_sync (w : World) : Prop :=
  (connectionState (hook w) = Some OPEN <-> client_isConnected (client w) = true)
  /\ isConnected (hook w) = client_isConnected (client w)
  /\ (connection (client w) = None ->
      nextConnection (plat w) = 0%nat /\ client_isConnected (client w) = false).

Definition streams_below (w : World) : Prop :=
  forall s, s ∈ liveStreams (plat w) -> (s < nextStream (plat w))%nat.

End Deepgram.

(** ** More of the recorder hook: what a session keeps and yields *)

Module RecorderSession.

Import Recorder.

(** The hook's references point at resources that still exist: the
    stream in [streamRef] is live, the timer in [durationIntervalRef] is
    firing, the recorder in [mediaRecorderRef] was created, and the URL
    in [audioURL] was not revoked. *)
Definition refs_live (w : World) : Prop :=
  (forall s, streamRef (refs w) = Some s -> s ∈ liveStreams (plat w))
  /\ (forall t, durationIntervalRef (refs w) = Some t -> t ∈ liveTimers (plat w))
  /\ (forall r, mediaRecorderRef (refs w) = Some r ->
                is_Some (recorders (plat w) !! r))
  /\ (forall u, audioURL (hook w) = Some u -> is_Some (objectURLs (plat w) !! u)).

(** The data the ['dataavailable'] listener keeps, in arrival order. *)
Fixpoint kept_chunks (datas : list (option Blob)) : list Blob :=
  match datas with
  | [] => []
  | Some b :: rest =>
      if (0 <? blob_size b)%nat then b :: kept_chunks rest else kept_chunks rest
  | None :: rest => kept_chunks rest
  end.

(** One whole recording on a fresh hook: start, grant, the data events
    of the recorder, stop, and the recorder's [stop] event. *)
Definition session (t : Z) (datas : list (option Blob)) : list Action :=
  [CallStart true; Settle Granted (env_ok t)]
  ++ map (DataAvailable 0) datas
  ++ [CallStop; Stop 0].

(** The three ways the continuation of [startRecording] fails after the
    stream was granted: no [MediaRecorder], a throwing constructor, a
    throwing [start]. *)
Definition fails_after_grant (env : Env) : Prop :=
  hasMediaRecorder env = false
  \/ is_Some (ctorThrows env)
  \/ is_Some (startThrows env).

End RecorderSession.

(** ** More of the live hook: what it holds and what it sends *)

Module LiveSession.

Import Deepgram.

Definition refs_live (w : World) : Prop :=
  (forall s, streamRef (refs w) = Some s -> s ∈ liveStreams (plat w))
  /\ (forall c, audioContextRef (refs w) = Some c -> c ∈ openContexts (plat w))
  /\ (forall p, processorRef (refs w) = Some p -> p ∈ wiredProcessors (plat w))
  /\ (forall k, connection (client w) = Some k -> (k < nextConnection (plat w))%nat).

(** The only values the hook ever stores in [connectionState]. *)
Definition state_known (w : World) : Prop :=
  connectionState (hook w) = None
  \/ connectionState (hook w) = Some OPEN
  \/ connectionState (hook w) = Some CLOSED.

(** A frame of 16-bit signed samples. *)
Definition int16_frame (frame : list Z) : Prop :=
  Forall (fun v => -32768 <= v <= 32767) frame.

(** Every frame handed to a channel so far is a frame of 16-bit samples. *)
Definition sent_int16 (w : World) : Prop :=
  Forall (fun kf => int16_frame (snd kf)) (sent (plat w)).

(** A run of [Transcript] payloads reaching the hook, in arrival order. *)
Definition deliver (results : list TranscriptionResult) (w : World) : World :=
  fold_left (fun w r => onTranscript r w) results w.

(** The text the final events of a run add: each one after a space. *)
Fixpoint appended (results : list TranscriptionResult) : string :=
  match results with
  | [] => ""
  | r :: rest =>
      (if is_final r then " " +:+ res_transcript r else "") +:+ appended rest
  end.

(** [handleReset] of LiveSpeechRecognition.tsx in live mode:
    [stopListening(); clearTranscript();]. *)
Definition handleReset_live (w : World) : World :=
  clearTranscript (stopListening w).

End LiveSession.

(** ** The channels themselves *)

Module Channels.

Import Deepgram.
Local Open Scope list_scope.

(** The state of a channel is the SDK's; the code learns of it through
    the channel's [Open] and [Close] events, so a channel is open from
    its [Open] event to its [Close] event.  [channel_event] follows the
    set of open channels over one transition (an event of a channel
    that was never created does not happen, as in [step]). *)
Definition channel_event (w : World) (a : Action) (open : gset nat) : gset nat :=
  match a with
  | Open k => if created k w then {[k]} ∪ open else open
  | Close k => if created k w then open ∖ {[k]} else open
  | _ => open
  end.

Fixpoint open_from (w : World) (open : gset nat) (trace : list Action) : gset nat :=
  match trace with
  | [] => open
  | a :: rest => open_from (step w a) (channel_event w a open) rest
  end.

(** The channels that are open after [trace], run from a fresh hook. *)
Definition open_channels (trace : list Action) : gset nat :=
  open_from init ∅ trace.

(** Whether the channel [sendAudio] hands frames to, [this.connection],
    is open after [trace]. *)
Definition current_channel_open (trace : list Action) : bool :=
  match connection (client (run init trace)) with
  | Some k => bool_decide (k ∈ open_channels trace)
  | None => false
  end.

(** Whether [trace] holds an [Open] event of channel [k]. *)
Definition opened_in (k : nat) (trace : list Action) : bool :=
  existsb (fun a => match a with Open j => Nat.eqb j k | _ => false end) trace.

(** A session is started and, before its channel 0 has opened, reset
    and started again ([handleReset] of DeepgramLiveSpeech followed by
    its [autoStart] effect), which creates channel 1; then channel 0
    reports [Open]. *)
Definition restart_before_open : list Action :=
  [CallStartListening None; Settle Granted env_ok;
   CallStopListening; CallClearTranscript;
   CallStartListening None; Settle Granted env_ok;
   Open 0].

(** Two starts in a row; channel 1 opens and closes, then channel 0
    reports [Open]. *)
Definition second_channel_closed : list Action :=
  [CallStartListening None; Settle Granted env_ok;
   CallStartListening None; Settle Granted env_ok;
   Open 1; Close 1; Open 0].

End Channels.

(** ** The response analyzer (AIAnalyzer, aiAnalyzer.ts) and the callers
    that read its result *)

Module Analyzer.

Local Open Scope string_scope.
Local Open Scope Z_scope.

(** [quality: 'excellent' | 'good' | 'fair' | 'poor' | 'error'] *)
Inductive Quality : Type :=
  | excellent
  | good
  | fair
  | poor
  | error_quality.

(** [response_length: 'short' | 'medium' | 'long'] *)
Inductive ResponseLength : Type :=
  | short
  | medium
  | long.

(** [interface AIAnalysisResult] *)
Record AIAnalysisResult : Type := {
  confidence_score : Z;
  quality : Quality;
  message : string;
  positive_keywords : list string;
  negative_keywords : list string;
  scenario_matches : list string;
  recommendations : list string;
  word_count : nat;
  response_length : ResponseLength;
  error : option string
}.

Definition positive_list : list string :=
  ["no"; "not interested"; "hang up"; "verify"; "scam"; "fake"; "suspicious"].

Definition negative_list : list string :=
  ["okay"; "yes"; "sure"; "help me"; "what do i do"].

(** [scenarioId === id], for the optional [scenarioId]. *)
Definition is_scenario (scenarioId : option string) (id : string) : bool :=
  match scenarioId with
  | Some s => String.eqb s id
  | None => false
  end.

Section Simulate.

(** What the platform's string functions answer for the response at
    hand: [includes k] is [text.includes(k)] for
    [text = responseText.toLowerCase()], and [words_length] is
    [responseText.split(/\s+/).length]. *)
Variable includes : string -> bool.
Variable words_length : nat.

(** [simulatePythonAnalysis(responseText, scenarioId)] *)
Definition simulatePythonAnalysis (scenarioId : option string) : AIAnalysisResult :=
  let positiveKeywords := List.filter includes positive_list in
  let negativeKeywords := List.filter includes negative_list in
  let score := 50 in
  let score := score + Z.of_nat (length positiveKeywords) * 15 in
  let score := score - Z.of_nat (length negativeKeywords) * 20 in
  let irs := is_scenario scenarioId "call-1" && includes "irs" in
  let microsoft := is_scenario scenarioId "call-2" && includes "microsoft" in
  let score := if irs then score + 10 else score in
  let scenarioMatches := if irs then ["recognized IRS scam pattern"] else [] in
  let score := if microsoft then score + 10 else score in
  let scenarioMatches :=
    if microsoft then (scenarioMatches ++ ["recognized tech support scam"])%list
    else scenarioMatches in
  let confidence_score := Z.max 0 (Z.min 100 score) in
  let '(quality, message) :=
    if 80 <=? confidence_score then
      (excellent,
       "Outstanding response! You demonstrated strong scam awareness and would likely avoid this scam.")
    else if 60 <=? confidence_score then
      (good,
       "Good response! You showed awareness of scam tactics, with room for minor improvements.")
    else if 40 <=? confidence_score then
      (fair,
       "Fair response, but could be improved. Consider being more assertive in rejecting suspicious requests.")
    else
      (poor,
       "Your response suggests vulnerability to this scam. Practice being more skeptical and assertive.") in
  let recommendations :=
    ((if confidence_score <? 60 then
        ["Practice saying 'no' firmly and hanging up immediately";
         "Remember: legitimate organizations don't create false urgency"]
      else [])
     ++ (if (length positiveKeywords =? 0)%nat then
           ["Use phrases like 'I need to verify this' or 'I'll call back through official channels'"]
         else [])
     ++ (if (0 <? length negativeKeywords)%nat then
           ["Avoid showing panic or agreeing to demands from unknown callers"]
         else [])
     ++ (if 80 <=? confidence_score then
           ["Excellent work! Consider helping others learn these skills"]
         else []))%list in
  {| confidence_score := confidence_score;
     quality := quality;
     message := message;
     positive_keywords := positiveKeywords;
     negative_keywords := negativeKeywords;
     scenario_matches := scenarioMatches;
     recommendations := recommendations;
     word_count := words_length;
     response_length :=
       if (words_length <? 5)%nat then short
       else if (words_length <? 15)%nat then medium else long;
     error := None |}.

End Simulate.

(** The [scoreColor] that [formatAnalysisForDisplay] computes. *)
Definition scoreColor (analysis : AIAnalysisResult) : string :=
  if 80 <=? confidence_score analysis then "green"
  else if 60 <=? confidence_score analysis then "blue"
  else if 40 <=? confidence_score analysis then "yellow"
  else "red".

(** [getScoreColor] of AIAnalysisDisplay. *)
Definition getScoreColor (score : Z) : string :=
  if 80 <=? score then "text-green-600 bg-green-100"
  else if 60 <=? score then "text-blue-600 bg-blue-100"
  else if 40 <=? score then "text-yellow-600 bg-yellow-100"
  else "text-red-600 bg-red-100".

(** [wasSuccessful] as ScenarioDetail derives it from the analysis. *)
Definition wasSuccessful (analysis : AIAnalysisResult) : bool :=
  60 <=? confidence_score analysis.

End Analyzer.

(** ** The duration display of the recorder components *)

Module Display.

Local Open Scope string_scope.

(** [Number.MAX_SAFE_INTEGER].  Every whole number up to it is a
    double.  For such a [seconds] the quotient [seconds / 60] is below
    [2^48], where neighbouring doubles are at most [1/32] apart, so
    rounding moves it by at most [1/64]; a quotient that is not whole
    keeps at least [1/60] from the next whole number, so the rounded
    quotient never reaches it and [Math.floor] gives the whole
    quotient.  [%] is exact on doubles. *)
Definition MAX_SAFE_INTEGER : N := 2 ^ 53 - 1.

(** What [formatTime] is called with: the hook's [duration], taken as a
    whole, non-negative number of seconds up to [MAX_SAFE_INTEGER].
    Past that bound the division and the printed digits round; such
    values are left out of the model. *)
Record Seconds : Type := {
  count : N;
  count_safe : (count <=? MAX_SAFE_INTEGER)%N = true
}.

(** The decimal digits of a whole number.  A template literal prints a
    whole number up to [MAX_SAFE_INTEGER] as exactly these digits. *)
Definition decimal_digits (n : N) : string :=
  DecimalString.NilEmpty.string_of_uint (N.to_uint n).

(** [formatTime(seconds)] of AudioRecorder.tsx and
    LiveSpeechRecognition.tsx. *)
Definition formatTime (seconds : Seconds) : string :=
  let mins := (count seconds / 60)%N in
  let secs := (count seconds mod 60)%N in
  decimal_digits mins +:+ ":" +:+ (if (secs <? 10)%N then "0" else "")
  +:+ decimal_digits secs.

(** What [formatTime] prints after the colon. *)
Definition two_digits (secs : N) : string :=
  (if (secs <? 10)%N then "0" else "") +:+ decimal_digits secs.

(** The values [seconds % 60] can take. *)
Definition below_60 : list N := map N.of_nat (seq 0 60).

(** One minute and five seconds. *)
Definition sixty_five : Seconds := {| count := 65; count_safe := eq_refl |}.

End Display.

(** * Properties *)

(** ** Frame conversion *)

Module PcmFacts.
Import Pcm.

Lemma wrap16_id (i : Z) : -32768 <= i <= 32767 -> wrap16 i = i.
Proof.
  intros Hi. unfold wrap16.
  destruct (Z_lt_le_dec i 0) as [Hneg | Hpos].
  - replace (i mod 65536) with (i + 65536).
    + destruct (32768 <=? i + 65536) eqn:E; [lia | apply Z.leb_gt in E; lia].
    + apply Z.mod_unique with (q := -1); lia.
  - rewrite Z.mod_small by lia.
    destruct (32768 <=? i) eqn:E; [apply Z.leb_le in E; lia | reflexivity].
Qed.

Lemma truncate_between (lo hi : Z) (v : Q) :
  (inject_Z lo <= v)%Q -> (v <= inject_Z hi)%Q -> lo <= truncate v <= hi.
Proof.
  destruct v as [n d]. unfold Qle, truncate. simpl. intros Hlo Hhi.
  split.
  - rewrite <- (Z.quot_mul lo (Z.pos d)) by lia.
    apply Z.quot_le_mono; lia.
  - rewrite <- (Z.quot_mul hi (Z.pos d)) by lia.
    apply Z.quot_le_mono; lia.
Qed.

Lemma truncate_integer (z : Z) (v : Q) : (v == inject_Z z)%Q -> truncate v = z.
Proof.
  intros E. 
  assert (H : z <= truncate v <= z); [| lia].
  apply truncate_between; rewrite E; apply Qle_refl.
Qed.

Lemma Qle_bool_false (a b : Q) : Qle_bool a b = false -> (b < a)%Q.
Proof.
  intros E. apply Qnot_le_lt. intros H. apply Qle_bool_iff in H. congruence.
Qed.

Lemma code_refines_spec (q : Q) : float32_to_int16 (Fin q) = quantize_spec q.
Proof.
  unfold float32_to_int16, quantize_spec, clamp, times_32768, Math_min.
  set (v := (q * 32768)%Q).
  destruct (Qle_bool 32767 v) eqn:Ehi.
  - apply Qle_bool_iff in Ehi.
    destruct (Qle_bool v (-32768)) eqn:Elo.
    + apply Qle_bool_iff in Elo. exfalso.
      assert (H : (32767 <= -32768)%Q) by (eapply Qle_trans; eauto).
      revert H. unfold Qle. simpl. lia.
    + reflexivity.
  - apply Qle_bool_false in Ehi. unfold Math_max.
    destruct (Qle_bool (-32768) v) eqn:Ege; destruct (Qle_bool v (-32768)) eqn:Ele.
    + apply Qle_bool_iff in Ege, Ele.
      assert (E : (v == inject_Z (-32768))%Q) by (apply Qle_antisym; assumption).
      simpl. rewrite (truncate_integer _ _ E). reflexivity.
    + simpl. apply wrap16_id. apply Qle_bool_iff in Ege.
      apply truncate_between; [exact Ege | apply Qlt_le_weak; exact Ehi].
    + reflexivity.
    + apply Qle_bool_false in Ege, Ele. exfalso.
      apply (Qlt_irrefl v). eapply Qlt_trans; eauto.
Qed.

Lemma quantize_spec_range (q : Q) : -32768 <= quantize_spec q <= 32767.
Proof.
  unfold quantize_spec, clamp.
  destruct (Qle_bool _ (-32768)) eqn:Elo; [vm_compute; split; discriminate |].
  destruct (Qle_bool 32767 _) eqn:Ehi; [vm_compute; split; discriminate |].
  apply Qle_bool_false in Elo, Ehi.
  apply truncate_between; apply Qlt_le_weak; assumption.
Qed.

Lemma quantize_spec_high (q : Q) : (1 <= q)%Q -> quantize_spec q = 32767.
Proof.
  intros H. unfold quantize_spec, clamp.
  assert (Hv : (32768 <= q * 32768)%Q).
  { destruct q as [n d]. revert H. unfold Qle, Qmult. simpl. lia. }
  destruct (Qle_bool _ (-32768)) eqn:Elo.
  - apply Qle_bool_iff in Elo. exfalso.
    assert (H' : (32768 <= -32768)%Q) by (eapply Qle_trans; eauto).
    revert H'. unfold Qle. simpl. lia.
  - destruct (Qle_bool 32767 _) eqn:Ehi; [reflexivity |].
    apply Qle_bool_false in Ehi. exfalso.
    assert (H' : (32768 < 32767)%Q) by (eapply Qle_lt_trans; eauto).
    revert H'. unfold Qlt. simpl. lia.
Qed.

Lemma quantize_spec_low (q : Q) : (q <= -1)%Q -> quantize_spec q = -32768.
Proof.
  intros H. unfold quantize_spec, clamp.
  assert (Hv : (q * 32768 <= -32768)%Q).
  { destruct q as [n d]. revert H. unfold Qle, Qmult. simpl. lia. }
  apply Qle_bool_iff in Hv. rewrite Hv. reflexivity.
Qed.

End PcmFacts.

(** ** The recorder hook *)

Module RecorderFacts.
Import Recorder.

(** Two worlds are equal when their three parts are. *)
Lemma world_ext (w1 w2 : World) :
  hook w1 = hook w2 -> refs w1 = refs w2 -> plat w1 = plat w2 -> w1 = w2.
Proof. destruct w1, w2. simpl. intros -> -> ->. reflexivity. Qed.

Lemma run_snoc (w : World) (trace : list Action) (a : Action) :
  run w (trace ++ [a]) = step (run w trace) a.
Proof. unfold run. rewrite fold_left_app. reflexivity. Qed.

Lemma reachable_invariant (P : World -> Prop) :
  P init ->
  (forall w a, P w -> P (step w a)) ->
  forall w, reachable w -> P w.
Proof.
  intros Hinit Hstep w [trace <-].
  induction trace as [| a trace IH] using rev_ind; [exact Hinit |].
  rewrite run_snoc. apply Hstep. exact IH.
Qed.

(** **** What each callback does to the parts of the state *)

Lemma catch_refs (err : Thrown) (w : World) :
  audioChunksRef (refs (startRecording_catch err w)) = audioChunksRef (refs w).
Proof.
  unfold startRecording_catch. cbn [refs setError setRecordingState with_hook].
  destruct (streamRef (refs w)); reflexivity.
Qed.

Lemma catch_plat (err : Thrown) (w : World) :
  liveStreams (plat (startRecording_catch err w)) ⊆ liveStreams (plat w)
  /\ nextStream (plat (startRecording_catch err w)) = nextStream (plat w).
Proof.
  unfold startRecording_catch. cbn [refs setError setRecordingState with_hook].
  destruct (streamRef (refs w)) as [s |]; [| split; reflexivity].
  split; [| reflexivity].
  change (liveStreams (plat w) ∖ {[s]} ⊆ liveStreams (plat w)).
  intros x Hx. apply elem_of_difference in Hx. tauto.
Qed.

Lemma stopRecording_in_hook (rs : RecordingState) (w : World) :
  hook (stopRecording_in rs w) = hook w.
Proof.
  unfold stopRecording_in. destruct (mediaRecorderRef (refs w)); [| reflexivity].
  destruct (decide _); reflexivity.
Qed.

Lemma stopRecording_in_refs (rs : RecordingState) (w : World) :
  refs (stopRecording_in rs w) = refs w.
Proof.
  unfold stopRecording_in. destruct (mediaRecorderRef (refs w)); [| reflexivity].
  destruct (decide _); reflexivity.
Qed.

Lemma stopRecording_in_plat (rs : RecordingState) (w : World) :
  plat (stopRecording_in rs w)
  = {| pendingAcquire := pendingAcquire (plat w);
       liveStreams := liveStreams (plat w);
       liveTimers := liveTimers (plat w);
       objectURLs := objectURLs (plat w);
       recorders := stopped_recorders rs w;
       nextStream := nextStream (plat w);
       nextRecorder := nextRecorder (plat w);
       nextURL := nextURL (plat w);
       nextTimer := nextTimer (plat w) |}.
Proof.
  unfold stopRecording_in, stopped_recorders.
  destruct w as [h r p]; destruct p. cbn [refs plat].
  destruct (mediaRecorderRef r); [| reflexivity].
  destruct (decide _); reflexivity.
Qed.

Lemma resetRecording_in_hook (rs : RecordingState) (url : option nat) (w : World) :
  hook (resetRecording_in rs url w)
  = {| recordingState := inactive; audioURL := None; error := None;
       duration := 0 |}.
Proof. reflexivity. Qed.

Lemma resetRecording_in_refs (rs : RecordingState) (url : option nat) (w : World) :
  refs (resetRecording_in rs url w)
  = {| mediaRecorderRef := mediaRecorderRef (refs w); audioChunksRef := [];
       streamRef := None; startTimeRef := startTimeRef (refs w);
       durationIntervalRef := None |}.
Proof.
  unfold resetRecording_in, stopRecording_in.
  destruct w as [h r p]; destruct r as [mr ch sr st di]. cbn [refs].
  destruct mr, (decide (rs = recording)), url, sr, di; reflexivity.
Qed.

Lemma resetRecording_in_plat (rs : RecordingState) (url : option nat) (w : World) :
  plat (resetRecording_in rs url w)
  = {| pendingAcquire := pendingAcquire (plat w);
       liveStreams := match streamRef (refs w) with
                      | Some s => liveStreams (plat w) ∖ {[s]}
                      | None => liveStreams (plat w)
                      end;
       liveTimers := match durationIntervalRef (refs w) with
                     | Some t => liveTimers (plat w) ∖ {[t]}
                     | None => liveTimers (plat w)
                     end;
       objectURLs := match url with
                     | Some u => delete u (objectURLs (plat w))
                     | None => objectURLs (plat w)
                     end;
       recorders := stopped_recorders rs w;
       nextStream := nextStream (plat w);
       nextRecorder := nextRecorder (plat w);
       nextURL := nextURL (plat w);
       nextTimer := nextTimer (plat w) |}.
Proof.
  unfold resetRecording_in, stopRecording_in, stopped_recorders.
  destruct w as [h r p]; destruct r as [mr ch sr st di]; destruct p. cbn [refs plat
    mediaRecorderRef streamRef durationIntervalRef].
  destruct mr, (decide (rs = recording)), url, sr, di; reflexivity.
Qed.


(** **** Chunks are never empty *)

Lemma begin_chunks (url : option nat) (supported : bool) (w : World) :
  audioChunksRef (refs (startRecording_begin_in url supported w)) = [].
Proof.
  unfold startRecording_begin_in.
  destruct supported; [reflexivity |]. rewrite catch_refs. reflexivity.
Qed.

Lemma resume_chunks (res : AcquireResult) (env : Env) (w : World) :
  audioChunksRef (refs (startRecording_resume res env w)) = audioChunksRef (refs w).
Proof.
  unfold startRecording_resume.
  destruct (pendingAcquire (plat w)); [reflexivity |].
  destruct res; [| rewrite catch_refs; reflexivity].
  destruct (hasMediaRecorder env); cbn [negb]; [| rewrite catch_refs; reflexivity].
  destruct (ctorThrows env); [rewrite catch_refs; reflexivity |].
  destruct (startThrows env); [rewrite catch_refs; reflexivity |].
  reflexivity.
Qed.

Lemma on_stop_chunks (mimeType : string) (w : World) :
  audioChunksRef (refs (on_stop mimeType w)) = audioChunksRef (refs w).
Proof.
  unfold on_stop. destruct (stop_branch mimeType w); try reflexivity.
  cbn [createObjectURL].
  change (durationIntervalRef (refs (setRecordingState stopped _)))
    with (durationIntervalRef (refs w)).
  destruct (durationIntervalRef (refs w));
    [change (streamRef (refs (set_durationIntervalRef None _)))
       with (streamRef (refs w))
    |change (streamRef (refs (setRecordingState stopped _)))
       with (streamRef (refs w))];
    destruct (streamRef (refs w)); reflexivity.
Qed.

Lemma on_dataavailable_chunks (data : option Blob) (w : World) :
  chunks_nonempty w -> chunks_nonempty (on_dataavailable data w).
Proof.
  intros H. unfold on_dataavailable. destruct data as [b |]; [| exact H].
  destruct (0 <? blob_size b)%nat eqn:E; [| exact H].
  unfold chunks_nonempty.
  change (audioChunksRef (refs (set_audioChunksRef (audioChunksRef (refs w) ++ [b]) w)))
    with (audioChunksRef (refs w) ++ [b]).
  apply Forall_app. split; [exact H |].
  constructor; [| constructor]. apply Nat.ltb_lt. exact E.
Qed.

Lemma step_chunks (w : World) (a : Action) :
  chunks_nonempty w -> chunks_nonempty (step w a).
Proof.
  intros H. destruct a; cbn [step].
  - unfold chunks_nonempty, startRecording_begin. rewrite begin_chunks. constructor.
  - unfold chunks_nonempty. rewrite resume_chunks. exact H.
  - unfold chunks_nonempty, stopRecording. rewrite stopRecording_in_refs. exact H.
  - unfold chunks_nonempty, resetRecording. rewrite resetRecording_in_refs.
    constructor.
  - destruct (recorders (plat w) !! r); [| exact H].
    apply on_dataavailable_chunks. exact H.
  - destruct (recorders (plat w) !! r); [| exact H].
    unfold chunks_nonempty. rewrite on_stop_chunks. exact H.
  - destruct (recorders (plat w) !! r); exact H.
  - destruct (decide _); exact H.
Qed.

Lemma concat_nonempty (parts : list Blob) :
  Forall (fun b => (0 < blob_size b)%nat) parts -> parts <> [] ->
  (0 < length (concat (map blob_bytes parts)))%nat.
Proof.
  intros Hall Hne. destruct parts as [| b parts]; [congruence |].
  inversion Hall as [| ? ? Hb _]; subst. cbn [map concat].
  rewrite length_app. unfold blob_size in Hb. lia.
Qed.

Lemma chunks_never_empty_blob (w : World) :
   reachable w ->
   chunks_nonempty w /\ forall mimeType, stop_branch mimeType w <> ZeroByteBlob.
Proof.
  intros Hw.
  assert (H : chunks_nonempty w).
  { revert w Hw. apply reachable_invariant; [constructor | apply step_chunks]. }
  split; [exact H |]. intros mimeType. unfold stop_branch.
  destruct (audioChunksRef (refs w)) as [| b parts] eqn:E; [discriminate |].
  assert (Hlen : (0 < blob_size (assembled mimeType w))%nat).
  { unfold assembled, blob_size, new_Blob. cbn [blob_bytes]. rewrite E.
    apply concat_nonempty; [rewrite <- E; exact H | discriminate]. }
  destruct (blob_size (assembled mimeType w) =? 0)%nat eqn:Z; [| discriminate].
  apply Nat.eqb_eq in Z. lia.
Qed.

(** **** stop and reset, twice *)

Lemma inactivate_idem (r : MediaRecorder) : inactivate (inactivate r) = inactivate r.
Proof. destruct r as [s m st]. destruct st; reflexivity. Qed.

Lemma alter_inactivate_idem (r : nat) (m : gmap nat MediaRecorder) :
  alter inactivate r (alter inactivate r m) = alter inactivate r m.
Proof.
  rewrite alter_alter_eq. apply alter_ext. intros x _. apply inactivate_idem.
Qed.

Lemma stopped_recorders_idem (rs : RecordingState) (w w' : World) :
  mediaRecorderRef (refs w') = mediaRecorderRef (refs w) ->
  recorders (plat w') = stopped_recorders rs w ->
  stopped_recorders rs w' = stopped_recorders rs w.
Proof.
  unfold stopped_recorders. intros -> ->.
  destruct (mediaRecorderRef (refs w)); [| reflexivity].
  destruct (decide _); [apply alter_inactivate_idem | reflexivity].
Qed.

Lemma stopRecording_in_idem (rs : RecordingState) (w : World) :
  stopRecording_in rs (stopRecording_in rs w) = stopRecording_in rs w.
Proof.
  apply world_ext.
  - rewrite !stopRecording_in_hook. reflexivity.
  - rewrite !stopRecording_in_refs. reflexivity.
  - rewrite (stopRecording_in_plat rs (stopRecording_in rs w)).
    rewrite (stopped_recorders_idem rs w).
    + rewrite !stopRecording_in_plat. reflexivity.
    + rewrite stopRecording_in_refs. reflexivity.
    + rewrite stopRecording_in_plat. reflexivity.
Qed.

Lemma stopRecording_idem (w : World) :
  stopRecording (stopRecording w) = stopRecording w.
Proof.
  unfold stopRecording. rewrite stopRecording_in_hook.
  apply stopRecording_in_idem.
Qed.

Lemma resetRecording_in_idem (rs : RecordingState) (url : option nat) (w : World) :
  resetRecording_in rs url (resetRecording_in rs url w) = resetRecording_in rs url w.
Proof.
  apply world_ext.
  - rewrite !resetRecording_in_hook. reflexivity.
  - rewrite !resetRecording_in_refs. reflexivity.
  - rewrite (resetRecording_in_plat rs url (resetRecording_in rs url w)).
    rewrite (stopped_recorders_idem rs w).
    + rewrite !resetRecording_in_refs, !resetRecording_in_plat.
      cbn [streamRef durationIntervalRef pendingAcquire liveStreams liveTimers
           objectURLs nextStream nextRecorder nextURL nextTimer].
      destruct url; rewrite ?delete_delete_eq; reflexivity.
    + rewrite resetRecording_in_refs. reflexivity.
    + rewrite resetRecording_in_plat. reflexivity.
Qed.

Lemma resetRecording_idem (w : World) :
  resetRecording (resetRecording w) = resetRecording w.
Proof.
  unfold resetRecording. rewrite resetRecording_in_hook.
  cbn [recordingState audioURL].
  set (w1 := resetRecording_in (recordingState (hook w)) (audioURL (hook w)) w).
  assert (Er : refs w1
               = {| mediaRecorderRef := mediaRecorderRef (refs w);
                    audioChunksRef := []; streamRef := None;
                    startTimeRef := startTimeRef (refs w);
                    durationIntervalRef := None |})
    by apply resetRecording_in_refs.
  apply world_ext.
  - rewrite resetRecording_in_hook. reflexivity.
  - rewrite resetRecording_in_refs, Er. reflexivity.
  - rewrite resetRecording_in_plat. unfold stopped_recorders. rewrite Er.
    cbn [mediaRecorderRef streamRef durationIntervalRef].
    clearbody w1. clear Er.
    destruct (decide (inactive = recording)) as [E |]; [discriminate E |].
    destruct (mediaRecorderRef (refs w)); destruct (plat w1); reflexivity.
Qed.


(** **** A start that is granted on a working platform *)

Lemma begin_true_hook (w : World) :
  hook (startRecording_begin true w)
  = {| recordingState := recordingState (hook w); audioURL := None;
       error := None; duration := 0 |}.
Proof.
  unfold startRecording_begin, startRecording_begin_in.
  destruct w as [h r p]; destruct h as [rs url err dur]. cbn [hook audioURL].
  destruct url; reflexivity.
Qed.

Lemma begin_true_refs (w : World) :
  refs (startRecording_begin true w)
  = {| mediaRecorderRef := mediaRecorderRef (refs w); audioChunksRef := [];
       streamRef := streamRef (refs w); startTimeRef := startTimeRef (refs w);
       durationIntervalRef := durationIntervalRef (refs w) |}.
Proof.
  unfold startRecording_begin, startRecording_begin_in.
  destruct (audioURL (hook w)); reflexivity.
Qed.

Lemma begin_true_plat (w : World) :
  pendingAcquire (plat (startRecording_begin true w)) = S (pendingAcquire (plat w))
  /\ liveStreams (plat (startRecording_begin true w)) = liveStreams (plat w)
  /\ nextStream (plat (startRecording_begin true w)) = nextStream (plat w)
  /\ nextRecorder (plat (startRecording_begin true w)) = nextRecorder (plat w).
Proof.
  unfold startRecording_begin, startRecording_begin_in.
  destruct (audioURL (hook w)); auto.
Qed.

Lemma resume_ok_hook (t : Z) (w : World) :
  (0 < pendingAcquire (plat w))%nat ->
  hook (startRecording_resume Granted (env_ok t) w)
  = {| recordingState := recording; audioURL := audioURL (hook w);
       error := error (hook w); duration := duration (hook w) |}.
Proof.
  intros H. unfold startRecording_resume.
  destruct (pendingAcquire (plat w)); [lia |]. reflexivity.
Qed.

Lemma resume_ok_refs (t : Z) (w : World) :
  (0 < pendingAcquire (plat w))%nat ->
  refs (startRecording_resume Granted (env_ok t) w)
  = {| mediaRecorderRef := Some (nextRecorder (plat w));
       audioChunksRef := audioChunksRef (refs w);
       streamRef := Some (nextStream (plat w)); startTimeRef := t;
       durationIntervalRef := Some (nextTimer (plat w)) |}.
Proof.
  intros H. unfold startRecording_resume.
  destruct (pendingAcquire (plat w)); [lia |]. reflexivity.
Qed.

Lemma resume_ok_plat (t : Z) (w : World) :
  (0 < pendingAcquire (plat w))%nat ->
  plat (startRecording_resume Granted (env_ok t) w)
  = {| pendingAcquire := pred (pendingAcquire (plat w));
       liveStreams := {[nextStream (plat w)]} ∪ liveStreams (plat w);
       liveTimers := {[nextTimer (plat w)]} ∪ liveTimers (plat w);
       objectURLs := objectURLs (plat w);
       recorders :=
         <[nextRecorder (plat w) :=
             {| mr_stream := nextStream (plat w);
                mr_mimeType := "audio/webm;codecs=opus";
                mr_state := recording |}]>
           (<[nextRecorder (plat w) :=
                {| mr_stream := nextStream (plat w);
                   mr_mimeType := "audio/webm;codecs=opus";
                   mr_state := inactive |}]> (recorders (plat w)));
       nextStream := S (nextStream (plat w));
       nextRecorder := S (nextRecorder (plat w));
       nextURL := nextURL (plat w);
       nextTimer := Pos.succ (nextTimer (plat w)) |}.
Proof.
  intros H. unfold startRecording_resume.
  destruct (pendingAcquire (plat w)); [lia |]. reflexivity.
Qed.

(** **** The stop listener on an empty recording *)

Lemma on_stop_empty (mimeType : string) (w : World) :
  audioChunksRef (refs w) = [] \/ blob_size (assembled mimeType w) = 0%nat ->
  stop_branch mimeType w <> Finalized.
Proof.
  intros H. unfold stop_branch.
  destruct (audioChunksRef (refs w)) as [| b parts] eqn:E; [discriminate |].
  destruct H as [H | H]; [discriminate |]. rewrite H. discriminate.
Qed.

Lemma on_stop_not_finalized (mimeType : string) (w : World) :
  stop_branch mimeType w <> Finalized ->
  let w' := on_stop mimeType w in
  (error (hook w') = Some "No audio data was recorded. Please try again."%string
   \/ error (hook w') = Some "Recording failed - no audio data captured."%string)
  /\ recordingState (hook w') = inactive
  /\ audioURL (hook w') = audioURL (hook w)
  /\ plat w' = plat w
  /\ refs w' = refs w.
Proof.
  intros H. unfold on_stop. destruct (stop_branch mimeType w); [| | congruence].
  - split; [left; reflexivity |]. repeat split; reflexivity.
  - split; [right; reflexivity |]. repeat split; reflexivity.
Qed.

Lemma on_stop_no_chunks (mimeType : string) (w : World) :
  audioChunksRef (refs w) = [] ->
  error (hook (on_stop mimeType w))
    = Some "No audio data was recorded. Please try again."%string
  /\ recordingState (hook (on_stop mimeType w)) = inactive
  /\ audioURL (hook (on_stop mimeType w)) = audioURL (hook w).
Proof.
  intros E. unfold on_stop, stop_branch. rewrite E.
  split; [reflexivity |]. split; reflexivity.
Qed.

Lemma zero_chunk_scenario (w : World) (t : Z) :
  let w' := run w [CallStart true; Settle Granted (env_ok t); CallStop;
                   Stop (nextRecorder (plat w))] in
  error (hook w') = Some "No audio data was recorded. Please try again."%string
  /\ recordingState (hook w') = inactive
  /\ audioURL (hook w') = None.
Proof.
  unfold run. cbn [fold_left]. cbn [step].
  pose proof (begin_true_hook w) as Hh1.
  pose proof (begin_true_refs w) as Hr1.
  destruct (begin_true_plat w) as (Hp1 & _ & _ & Hn1).
  remember (startRecording_begin true w) as w1 eqn:E1. clear E1.
  assert (Hpos : (0 < pendingAcquire (plat w1))%nat) by lia.
  pose proof (resume_ok_hook t w1 Hpos) as Hh2.
  pose proof (resume_ok_refs t w1 Hpos) as Hr2.
  pose proof (resume_ok_plat t w1 Hpos) as Hp2.
  remember (startRecording_resume Granted (env_ok t) w1) as w2 eqn:E2. clear E2.
  pose proof (stopRecording_in_hook (recordingState (hook w2)) w2) as Hh3.
  pose proof (stopRecording_in_refs (recordingState (hook w2)) w2) as Hr3.
  pose proof (stopRecording_in_plat (recordingState (hook w2)) w2) as Hp3.
  fold (stopRecording w2) in Hh3, Hr3, Hp3.
  remember (stopRecording w2) as w3 eqn:E3. clear E3.
  assert (Hrec : recorders (plat w3) !! nextRecorder (plat w)
                 = Some {| mr_stream := nextStream (plat w1);
                           mr_mimeType := "audio/webm;codecs=opus";
                           mr_state := inactive |}).
  { rewrite Hp3. cbn [recorders]. unfold stopped_recorders.
    rewrite Hr2, Hh2, Hp2. cbn [mediaRecorderRef recordingState recorders].
    rewrite Hn1.
    destruct (decide (recording = recording)); [| congruence].
    rewrite lookup_alter_eq, lookup_insert_eq. reflexivity. }
  rewrite Hrec. cbn [mr_mimeType].
  assert (Hc : audioChunksRef (refs w3) = []).
  { rewrite Hr3, Hr2. cbn [audioChunksRef]. rewrite Hr1. reflexivity. }
  destruct (on_stop_no_chunks "audio/webm;codecs=opus" w3 Hc) as (He & Hs & Hu).
  split; [exact He |]. split; [exact Hs |].
  rewrite Hu, Hh3, Hh2. cbn [audioURL]. rewrite Hh1. reflexivity.
Qed.

(** **** Acquisitions that settle late *)

Lemma resetRecording_releases (w : World) (s : nat) :
  streamRef (refs w) = Some s ->
  (s ∉ liveStreams (plat (resetRecording w)))
  /\ streamRef (refs (resetRecording w)) = None
  /\ recordingState (hook (resetRecording w)) = inactive.
Proof.
  intros E. unfold resetRecording.
  rewrite resetRecording_in_plat, resetRecording_in_refs, resetRecording_in_hook, E.
  cbn [liveStreams streamRef recordingState].
  split; [| split; reflexivity].
  intros Hs. apply elem_of_difference in Hs. destruct Hs as [_ Hs].
  apply Hs. apply elem_of_singleton. reflexivity.
Qed.

Lemma late_grant_after_cancel (w : World) (t : Z) :
  (0 < pendingAcquire (plat w))%nat ->
  let s := nextStream (plat w) in
  (let w' := startRecording_resume Granted (env_ok t) (stopRecording w) in
     recordingState (hook w') = recording
     /\ streamRef (refs w') = Some s /\ s ∈ liveStreams (plat w'))
  /\
  (let w' := startRecording_resume Granted (env_ok t) (resetRecording w) in
     recordingState (hook w') = recording
     /\ streamRef (refs w') = Some s /\ s ∈ liveStreams (plat w')
     /\ s ∉ liveStreams (plat (resetRecording w'))).
Proof.
  intros Hp s. split.
  - assert (Ep : plat (stopRecording w) = plat (stopRecording w)) by reflexivity.
    unfold stopRecording in Ep at 2. rewrite stopRecording_in_plat in Ep.
    assert (Hp' : (0 < pendingAcquire (plat (stopRecording w)))%nat)
      by (rewrite Ep; exact Hp).
    intros w'. unfold w'.
    rewrite (resume_ok_hook t _ Hp'), (resume_ok_refs t _ Hp'),
      (resume_ok_plat t _ Hp'), Ep.
    cbn [recordingState streamRef liveStreams nextStream].
    split; [reflexivity |]. split; [reflexivity |].
    apply elem_of_union_l. apply elem_of_singleton. reflexivity.
  - assert (Ep : plat (resetRecording w) = plat (resetRecording w)) by reflexivity.
    unfold resetRecording in Ep at 2. rewrite resetRecording_in_plat in Ep.
    assert (Hp' : (0 < pendingAcquire (plat (resetRecording w)))%nat)
      by (rewrite Ep; exact Hp).
    intros w'.
    assert (Es : streamRef (refs w') = Some s).
    { unfold w'. rewrite (resume_ok_refs t _ Hp'), Ep. reflexivity. }
    split; [unfold w'; rewrite (resume_ok_hook t _ Hp'); reflexivity |].
    split; [exact Es |]. split.
    + unfold w'. rewrite (resume_ok_plat t _ Hp'), Ep.
      cbn [liveStreams nextStream].
      apply elem_of_union_l. apply elem_of_singleton. reflexivity.
    + apply (resetRecording_releases w' s Es).
Qed.


(** **** Live streams are older than the next fresh one *)

Lemma streams_below_shrink (w w' : World) :
  liveStreams (plat w') ⊆ liveStreams (plat w) ->
  nextStream (plat w') = nextStream (plat w) ->
  streams_below w -> streams_below w'.
Proof.
  unfold streams_below. intros Hsub Hn H s Hs. rewrite Hn. apply H, Hsub, Hs.
Qed.

Lemma difference_subseteq (X : gset nat) (s : nat) : X ∖ {[s]} ⊆ X.
Proof. intros x Hx. apply elem_of_difference in Hx. tauto. Qed.

Lemma catch_streams_below (err : Thrown) (w : World) :
  streams_below w -> streams_below (startRecording_catch err w).
Proof.
  destruct (catch_plat err w) as [Hsub Hn]. apply streams_below_shrink; assumption.
Qed.

Lemma on_stop_streams (mimeType : string) (w : World) :
  liveStreams (plat (on_stop mimeType w)) ⊆ liveStreams (plat w)
  /\ nextStream (plat (on_stop mimeType w)) = nextStream (plat w).
Proof.
  unfold on_stop. destruct (stop_branch mimeType w); try (split; reflexivity).
  cbn [createObjectURL].
  set (w1 := setRecordingState stopped _).
  assert (H1 : liveStreams (plat w1) = liveStreams (plat w)
               /\ nextStream (plat w1) = nextStream (plat w)
               /\ durationIntervalRef (refs w1) = durationIntervalRef (refs w)
               /\ streamRef (refs w1) = streamRef (refs w))
    by (repeat split; reflexivity).
  clearbody w1. destruct H1 as (Hl & Hn & Hd & Hs).
  set (w2 := match durationIntervalRef (refs w1) with
             | Some t => set_durationIntervalRef None (clearInterval t w1)
             | None => w1
             end).
  assert (H2 : liveStreams (plat w2) = liveStreams (plat w)
               /\ nextStream (plat w2) = nextStream (plat w)
               /\ streamRef (refs w2) = streamRef (refs w)).
  { unfold w2. destruct (durationIntervalRef (refs w1));
      [rewrite <- Hl, <- Hn, <- Hs; repeat split; reflexivity | auto]. }
  clearbody w2. destruct H2 as (Hl2 & Hn2 & Hs2).
  destruct (streamRef (refs w2)) as [s |].
  - split; [| rewrite <- Hn2; reflexivity].
    change (liveStreams (plat w2) ∖ {[s]} ⊆ liveStreams (plat w)).
    rewrite Hl2. apply difference_subseteq.
  - rewrite Hl2, Hn2. split; reflexivity.
Qed.

Lemma step_streams (w : World) (a : Action) :
  streams_below w -> streams_below (step w a).
Proof.
  intros H. destruct a; cbn [step].
  - unfold startRecording_begin, startRecording_begin_in.
    assert (H0 : forall w0, liveStreams (plat w0) = liveStreams (plat w) ->
                   nextStream (plat w0) = nextStream (plat w) -> streams_below w0).
    { intros w0 El En. apply (streams_below_shrink w); [rewrite El | |]; auto. }
    destruct supported.
    + destruct (audioURL (hook w)); apply H0; reflexivity.
    + apply catch_streams_below. destruct (audioURL (hook w)); apply H0; reflexivity.
  - unfold startRecording_resume.
    destruct (pendingAcquire (plat w)); [exact H |].
    destruct res; [| apply catch_streams_below; exact H].
    assert (H0 : forall w0,
              liveStreams (plat w0) = {[nextStream (plat w)]} ∪ liveStreams (plat w) ->
              nextStream (plat w0) = S (nextStream (plat w)) -> streams_below w0).
    { intros w0 El En s Hs. rewrite El in Hs. rewrite En.
      apply elem_of_union in Hs. destruct Hs as [Hs | Hs].
      - apply elem_of_singleton in Hs. lia.
      - apply H in Hs. lia. }
    destruct (hasMediaRecorder env); cbn [negb];
      [| apply catch_streams_below; apply H0; reflexivity].
    destruct (ctorThrows env); [apply catch_streams_below; apply H0; reflexivity |].
    destruct (startThrows env); [apply catch_streams_below; apply H0; reflexivity |].
    apply H0; reflexivity.
  - apply (streams_below_shrink w); [| | exact H];
      unfold stopRecording; rewrite stopRecording_in_plat; reflexivity.
  - apply (streams_below_shrink w); [| | exact H];
      unfold resetRecording; rewrite resetRecording_in_plat;
      cbn [liveStreams nextStream]; [| reflexivity].
    destruct (streamRef (refs w)); [apply difference_subseteq | reflexivity].
  - destruct (recorders (plat w) !! r); [| exact H].
    unfold on_dataavailable. destruct data; [| exact H].
    destruct (0 <? blob_size b)%nat; [| exact H].
    apply (streams_below_shrink w); [reflexivity | reflexivity | exact H].
  - destruct (recorders (plat w) !! r) as [rec |]; [| exact H].
    destruct (on_stop_streams (mr_mimeType rec) w) as [Hsub Hn].
    apply (streams_below_shrink w); assumption.
  - destruct (recorders (plat w) !! r); exact H.
  - destruct (decide _); exact H.
Qed.

Lemma reachable_streams_below (w : World) : reachable w -> streams_below w.
Proof.
  revert w. apply reachable_invariant; [| apply step_streams].
  intros s Hs. cbn in Hs. apply not_elem_of_empty in Hs. destruct Hs.
Qed.

Lemma start_again_acquires (w : World) (t : Z) :
  reachable w ->
  let s := nextStream (plat w) in
  let w' := startRecording_resume Granted (env_ok t) (startRecording_begin true w) in
  (s ∉ liveStreams (plat w))
  /\ liveStreams (plat w') = {[s]} ∪ liveStreams (plat w)
  /\ size (liveStreams (plat w')) = S (size (liveStreams (plat w)))
  /\ streamRef (refs w') = Some s
  /\ recordingState (hook w') = recording.
Proof.
  intros Hw s w'.
  assert (Hfresh : s ∉ liveStreams (plat w)).
  { intros Hs. apply (reachable_streams_below w Hw) in Hs. unfold s in Hs. lia. }
  destruct (begin_true_plat w) as (Hp & Hl & Hn & _).
  assert (Hpos : (0 < pendingAcquire (plat (startRecording_begin true w)))%nat) by lia.
  assert (Hlive : liveStreams (plat w') = {[s]} ∪ liveStreams (plat w)).
  { unfold w'. rewrite (resume_ok_plat t _ Hpos). cbn [liveStreams].
    rewrite Hl, Hn. reflexivity. }
  split; [exact Hfresh |]. split; [exact Hlive |]. split; [| split].
  - rewrite Hlive, size_union, size_singleton; [reflexivity |].
    intros x Hx1 Hx2. apply elem_of_singleton in Hx1. subst x. exact (Hfresh Hx2).
  - unfold w'. rewrite (resume_ok_refs t _ Hpos). cbn [streamRef].
    rewrite Hn. reflexivity.
  - unfold w'. rewrite (resume_ok_hook t _ Hpos). reflexivity.
Qed.

End RecorderFacts.

(** ** The live hook and its client *)

Module DeepgramFacts.
Import Deepgram.

Lemma live_world_ext (w1 w2 : World) :
  hook w1 = hook w2 -> refs w1 = refs w2 -> client w1 = client w2 ->
  plat w1 = plat w2 -> w1 = w2.
Proof. destruct w1, w2. cbn. intros -> -> -> ->. reflexivity. Qed.

Lemma live_run_snoc (w : World) (trace : list Action) (a : Action) :
  run w (trace ++ [a]) = step (run w trace) a.
Proof. unfold run. rewrite fold_left_app. reflexivity. Qed.

Lemma live_reachable_invariant (P : World -> Prop) :
  P init ->
  (forall w a, P w -> P (step w a)) ->
  forall w, reachable w -> P w.
Proof.
  intros Hinit Hstep w [trace <-].
  induction trace as [| a trace IH] using rev_ind; [exact Hinit |].
  rewrite live_run_snoc. apply Hstep. exact IH.
Qed.

(** **** What [stopListening] does to the parts of the state *)

Lemma stopListening_hook (w : World) :
  hook (stopListening w)
  = {| transcript := transcript (hook w);
       interimTranscript := interimTranscript (hook w);
       finalTranscript := finalTranscript (hook w);
       confidence := confidence (hook w);
       isConnected := false; isListening := false; error := error (hook w);
       connectionState := None; words := words (hook w) |}.
Proof.
  unfold stopListening, stopTranscription.
  destruct w as [h r c p]; destruct r as [sr ac pr], c as [cn ic].
  cbn [refs client connection].
  destruct cn, pr, ac, sr; reflexivity.
Qed.

Lemma stopListening_refs (w : World) :
  refs (stopListening w)
  = {| streamRef := None; audioContextRef := None; processorRef := None |}.
Proof.
  unfold stopListening, stopTranscription.
  destruct w as [h r c p]; destruct r as [sr ac pr], c as [cn ic].
  cbn [refs client connection].
  destruct cn, pr, ac, sr; reflexivity.
Qed.

Lemma stopListening_client (w : World) :
  client (stopListening w)
  = {| connection := connection (client w);
       client_isConnected := match connection (client w) with
                             | Some _ => false
                             | None => client_isConnected (client w)
                             end |}.
Proof.
  unfold stopListening, stopTranscription.
  destruct w as [h r c p]; destruct r as [sr ac pr], c as [cn ic].
  cbn [refs client connection].
  destruct cn, pr, ac, sr; reflexivity.
Qed.

Lemma stopListening_plat (w : World) :
  plat (stopListening w)
  = {| pendingAcquire := pendingAcquire (plat w);
       liveStreams := match streamRef (refs w) with
                      | Some s => liveStreams (plat w) ∖ {[s]}
                      | None => liveStreams (plat w)
                      end;
       openContexts := match audioContextRef (refs w) with
                       | Some c => openContexts (plat w) ∖ {[c]}
                       | None => openContexts (plat w)
                       end;
       wiredProcessors := match processorRef (refs w) with
                          | Some p => wiredProcessors (plat w) ∖ {[p]}
                          | None => wiredProcessors (plat w)
                          end;
       finished := match connection (client w) with
                   | Some k => {[k]} ∪ finished (plat w)
                   | None => finished (plat w)
                   end;
       sent := sent (plat w);
       warnings := warnings (plat w);
       nextStream := nextStream (plat w);
       nextContext := nextContext (plat w);
       nextProcessor := nextProcessor (plat w);
       nextConnection := nextConnection (plat w) |}.
Proof.
  unfold stopListening, stopTranscription.
  destruct w as [h r c p]; destruct r as [sr ac pr], c as [cn ic], p.
  cbn [refs client plat connection streamRef audioContextRef processorRef].
  destruct cn, pr, ac, sr; reflexivity.
Qed.

Lemma union_singleton_twice (X : gset nat) (k : nat) :
  {[k]} ∪ ({[k]} ∪ X) = {[k]} ∪ X.
Proof. rewrite (assoc_L (∪)). rewrite (idemp_L (∪)). reflexivity. Qed.

Lemma stopListening_idem (w : World) :
  stopListening (stopListening w) = stopListening w.
Proof.
  apply live_world_ext.
  - rewrite !stopListening_hook. reflexivity.
  - rewrite !stopListening_refs. reflexivity.
  - rewrite (stopListening_client (stopListening w)), (stopListening_client w).
    cbn [connection client_isConnected].
    destruct (connection (client w)); reflexivity.
  - rewrite (stopListening_plat (stopListening w)).
    rewrite stopListening_refs, stopListening_client, stopListening_plat.
    cbn [streamRef audioContextRef processorRef connection pendingAcquire
         liveStreams openContexts wiredProcessors finished sent warnings
         nextStream nextContext nextProcessor nextConnection].
    destruct (connection (client w)); [| reflexivity].
    rewrite union_singleton_twice. reflexivity.
Qed.

Lemma stopListening_state (w : World) :
  let w' := stopListening w in
  connectionState (hook w') = None
  /\ isConnected (hook w') = false
  /\ isListening (hook w') = false
  /\ streamRef (refs w') = None
  /\ audioContextRef (refs w') = None
  /\ processorRef (refs w') = None.
Proof.
  intros w'. unfold w'. rewrite stopListening_refs, stopListening_hook.
  repeat split; reflexivity.
Qed.


(** **** Transcript events *)

Lemma render_snoc (segments : list string) (seg : string) :
  render (segments ++ [seg]) = render segments +:+ " " +:+ seg.
Proof. unfold render. rewrite fold_left_app. reflexivity. Qed.

Lemma onTranscript_final (result : TranscriptionResult) (w : World) :
  is_final result = true ->
  let w' := onTranscript result w in
  finalTranscript (hook w') = finalTranscript (hook w) +:+ " " +:+ res_transcript result
  /\ transcript (hook w') = transcript (hook w) +:+ " " +:+ res_transcript result
  /\ interimTranscript (hook w') = ""%string.
Proof.
  intros E. unfold onTranscript. rewrite E.
  destruct (res_words result); repeat split; reflexivity.
Qed.

Lemma onTranscript_interim (result : TranscriptionResult) (w : World) :
  is_final result = false ->
  let w' := onTranscript result w in
  interimTranscript (hook w') = res_transcript result
  /\ finalTranscript (hook w') = finalTranscript (hook w)
  /\ transcript (hook w') = transcript (hook w).
Proof.
  intros E. unfold onTranscript. rewrite E.
  destruct (res_words result); repeat split; reflexivity.
Qed.

(** The callbacks other than [onTranscript] and [clearTranscript] leave
    [finalTranscript] alone. *)
Lemma resume_final (res : AcquireResult) (env : Env) (w : World) :
  finalTranscript (hook (startListening_resume res env w)) = finalTranscript (hook w).
Proof.
  unfold startListening_resume.
  destruct (pendingAcquire (plat w)); [reflexivity |].
  destruct res; [| reflexivity].
  destruct (contextThrows env); [reflexivity |].
  destruct (liveThrows env); reflexivity.
Qed.

Lemma onaudioprocess_hook (inputData : list Pcm.number) (w : World) :
  hook (onaudioprocess inputData w) = hook w
  /\ client (onaudioprocess inputData w) = client w
  /\ refs (onaudioprocess inputData w) = refs w
  /\ liveStreams (plat (onaudioprocess inputData w)) = liveStreams (plat w)
  /\ nextStream (plat (onaudioprocess inputData w)) = nextStream (plat w)
  /\ nextConnection (plat (onaudioprocess inputData w)) = nextConnection (plat w).
Proof.
  unfold onaudioprocess, sendAudio.
  destruct (isConnectionActive w); [| repeat split; reflexivity].
  destruct (connection (client w)); [| repeat split; reflexivity].
  destruct (client_isConnected (client w)); repeat split; reflexivity.
Qed.

Lemma step_final (w : World) (a : Action) :
  has_segments w -> has_segments (step w a).
Proof.
  intros [segs E]. destruct a; cbn [step].
  - exists segs. rewrite <- E. unfold startListening_begin. destruct throws; reflexivity.
  - exists segs. rewrite <- E. apply resume_final.
  - exists segs. rewrite <- E, stopListening_hook. reflexivity.
  - exists []. reflexivity.
  - exists segs. rewrite <- E. destruct (created k w); reflexivity.
  - exists segs. rewrite <- E. destruct (created k w); reflexivity.
  - exists segs. rewrite <- E. destruct (created k w); reflexivity.
  - destruct (created k w); [| exists segs; exact E].
    unfold on_Transcript. destruct (to_result data) as [result |]; [| exists segs; exact E].
    destruct (is_final result) eqn:F.
    + exists (segs ++ [res_transcript result]). rewrite render_snoc, <- E.
      apply (onTranscript_final result w F).
    + exists segs. rewrite <- E. apply (onTranscript_interim result w F).
  - exists segs. rewrite <- E. destruct (decide _); [| reflexivity].
    destruct (onaudioprocess_hook inputData w) as [-> _]. reflexivity.
Qed.

Lemma reachable_has_segments (w : World) : reachable w -> has_segments w.
Proof.
  revert w. apply live_reachable_invariant; [exists []; reflexivity | apply step_final].
Qed.

(** **** Frames while the channel is not open *)

Lemma sendAudio_closed (frame : list Z) (w : World) :
  client_open w = false ->
  sendAudio frame w = console_warn "Deepgram connection not ready" w.
Proof.
  unfold client_open, sendAudio. destruct (connection (client w)); [| reflexivity].
  intros ->. reflexivity.
Qed.

Lemma console_warn_open (line : string) (w : World) :
  client_open (console_warn line w) = client_open w.
Proof. reflexivity. Qed.

Lemma set_warnings_twice (l1 l2 : list string) (w : World) :
  set_warnings l2 (set_warnings l1 w) = set_warnings l2 w.
Proof. reflexivity. Qed.

Lemma set_warnings_same (w : World) : set_warnings (warnings (plat w)) w = w.
Proof. destruct w as [h r c p]; destruct p. reflexivity. Qed.

Lemma send_all_closed (frames : list (list Z)) (w : World) :
  client_open w = false ->
  send_all frames w =
    set_warnings (warnings (plat w)
                  ++ repeat "Deepgram connection not ready"%string (length frames)) w.
Proof.
  revert w. induction frames as [| frame frames IH]; intros w Hc.
  - cbn [send_all fold_left length repeat]. rewrite app_nil_r.
    symmetry. apply set_warnings_same.
  - unfold send_all. cbn [fold_left]. fold (send_all frames (sendAudio frame w)).
    rewrite (sendAudio_closed frame w Hc).
    rewrite IH by (rewrite console_warn_open; exact Hc).
    unfold console_warn. rewrite set_warnings_twice.
    f_equal. cbn [length repeat].
    change (warnings (plat (set_warnings (warnings (plat w) ++ ["Deepgram connection not ready"%string]) w)))
      with (warnings (plat w) ++ ["Deepgram connection not ready"%string]).
    rewrite <- app_assoc. reflexivity.
Qed.

Lemma process_all_inactive (inputs : list (list Pcm.number)) (w : World) :
  isConnectionActive w = false -> process_all inputs w = w.
Proof.
  intros Hc. induction inputs as [| i inputs IH]; [reflexivity |].
  unfold process_all. cbn [fold_left]. unfold onaudioprocess at 2.
  rewrite Hc. exact IH.
Qed.


(** **** The hook's view of the channel follows the client's flag *)

Lemma resume_sync (res : AcquireResult) (env : Env) (w : World) :
  let w' := startListening_resume res env w in
  connectionState (hook w') = connectionState (hook w)
  /\ isConnected (hook w') = isConnected (hook w)
  /\ client_isConnected (client w') = client_isConnected (client w)
  /\ (connection (client w') = None ->
      connection (client w) = None
      /\ nextConnection (plat w') = nextConnection (plat w)).
Proof.
  unfold startListening_resume.
  destruct (pendingAcquire (plat w)); [auto |].
  destruct res; [| repeat split; auto].
  destruct (contextThrows env); [repeat split; auto |].
  destruct (liveThrows env); [repeat split; auto |].
  repeat split; discriminate.
Qed.

Lemma step_in_sync (w : World) (a : Action) : in_sync w -> in_sync (step w a).
Proof.
  unfold in_sync. intros (H1 & H2 & H3). destruct a; cbn [step].
  - unfold startListening_begin. destruct throws; auto.
  - destruct (resume_sync res env w) as (Ec & Ei & Ek & Hn).
    rewrite Ec, Ei, Ek. split; [exact H1 |]. split; [exact H2 |].
    intros Hnone. destruct (Hn Hnone) as [Hc ->]. auto.
  - rewrite stopListening_hook, stopListening_client, stopListening_plat.
    cbn [connectionState isConnected connection client_isConnected nextConnection].
    destruct (connection (client w)) as [k |].
    + split; [split; discriminate |]. split; [reflexivity | discriminate].
    + destruct (H3 eq_refl) as [E0 Ec]. rewrite Ec.
      split; [split; discriminate |]. auto.
  - auto.
  - unfold created. destruct (k <? nextConnection (plat w))%nat eqn:E; [| auto].
    apply Nat.ltb_lt in E.
    split; [split; reflexivity |]. split; [reflexivity |].
    intros Hn. apply H3 in Hn. change (nextConnection (plat (on_Open w)))
      with (nextConnection (plat w)). lia.
  - unfold created. destruct (k <? nextConnection (plat w))%nat eqn:E; [| auto].
    apply Nat.ltb_lt in E.
    split; [split; discriminate |]. split; [reflexivity |].
    intros Hn. apply H3 in Hn. change (nextConnection (plat (on_Close w)))
      with (nextConnection (plat w)). lia.
  - destruct (created k w); auto.
  - destruct (created k w); [| auto]. unfold on_Transcript.
    destruct (to_result data) as [result |]; [| auto].
    unfold onTranscript. destruct (is_final result), (res_words result); auto.
  - destruct (decide _); [| auto].
    destruct (onaudioprocess_hook inputData w) as (-> & -> & _ & _ & _ & ->). auto.
Qed.

Lemma reachable_in_sync (w : World) : reachable w -> in_sync w.
Proof.
  revert w. apply live_reachable_invariant; [| apply step_in_sync].
  unfold in_sync. cbn. split; [split; discriminate | auto].
Qed.

Lemma not_open_inactive (w : World) :
  reachable w -> connectionState (hook w) <> Some OPEN ->
  isConnectionActive w = false /\ client_open w = false.
Proof.
  intros Hw Hn. destruct (reachable_in_sync w Hw) as (H1 & _ & _).
  assert (E : client_isConnected (client w) = false).
  { destruct (client_isConnected (client w)); [| reflexivity].
    exfalso. apply Hn. apply H1. reflexivity. }
  split; [exact E |]. unfold client_open. rewrite E.
  destruct (connection (client w)); reflexivity.
Qed.

Lemma stopListening_inactive (w : World) :
  reachable w -> isConnectionActive (stopListening w) = false.
Proof.
  intros Hw. destruct (reachable_in_sync w Hw) as (_ & _ & H3).
  unfold isConnectionActive. rewrite stopListening_client.
  cbn [client_isConnected].
  destruct (connection (client w)); [reflexivity |].
  destruct (H3 eq_refl) as [_ ->]. reflexivity.
Qed.

(** **** Acquisitions that settle late, and further starts *)

Lemma live_resume_ok_refs (w : World) :
  (0 < pendingAcquire (plat w))%nat ->
  refs (startListening_resume Granted env_ok w)
  = {| streamRef := Some (nextStream (plat w));
       audioContextRef := Some (nextContext (plat w));
       processorRef := Some (nextProcessor (plat w)) |}.
Proof.
  intros H. unfold startListening_resume.
  destruct (pendingAcquire (plat w)); [lia |]. reflexivity.
Qed.

Lemma live_resume_ok_rest (w : World) :
  (0 < pendingAcquire (plat w))%nat ->
  let w' := startListening_resume Granted env_ok w in
  hook w' = hook w
  /\ connection (client w') = Some (nextConnection (plat w))
  /\ liveStreams (plat w') = {[nextStream (plat w)]} ∪ liveStreams (plat w).
Proof.
  intros H. unfold startListening_resume.
  destruct (pendingAcquire (plat w)); [lia |]. repeat split; reflexivity.
Qed.

Lemma late_grant_after_stop (w : World) :
  (0 < pendingAcquire (plat w))%nat ->
  let s := nextStream (plat w) in
  let w' := startListening_resume Granted env_ok (stopListening w) in
  isListening (hook w') = false
  /\ streamRef (refs w') = Some s
  /\ s ∈ liveStreams (plat w')
  /\ connection (client w')
     = Some (nextConnection (plat w)).
Proof.
  intros Hp s w'.
  pose proof (stopListening_plat w) as Ep.
  pose proof (stopListening_hook w) as Eh.
  remember (stopListening w) as w1 eqn:E1. clear E1.
  assert (Hp1 : (0 < pendingAcquire (plat w1))%nat) by (rewrite Ep; exact Hp).
  destruct (live_resume_ok_rest w1 Hp1) as (Hh & Hc & Hl).
  pose proof (live_resume_ok_refs w1 Hp1) as Hr.
  fold w' in Hh, Hc, Hl, Hr. clearbody w'.
  rewrite Hh, Hr, Hc, Hl, Eh, Ep.
  cbn [isListening streamRef nextStream nextConnection].
  split; [reflexivity |]. split; [reflexivity |]. split; [| reflexivity].
  apply elem_of_union_l. apply elem_of_singleton. reflexivity.
Qed.

Lemma live_streams_shrink (w w' : World) :
  liveStreams (plat w') ⊆ liveStreams (plat w) ->
  nextStream (plat w') = nextStream (plat w) ->
  streams_below w -> streams_below w'.
Proof.
  unfold streams_below. intros Hsub Hn H s Hs. rewrite Hn. apply H, Hsub, Hs.
Qed.

Lemma live_streams_same (w w' : World) :
  liveStreams (plat w') = liveStreams (plat w) ->
  nextStream (plat w') = nextStream (plat w) ->
  streams_below w -> streams_below w'.
Proof.
  intros El En. apply live_streams_shrink; [rewrite El; reflexivity | exact En].
Qed.

Lemma live_step_streams (w : World) (a : Action) :
  streams_below w -> streams_below (step w a).
Proof.
  intros H. destruct a; cbn [step].
  - unfold startListening_begin.
    destruct throws; apply (live_streams_same w); auto.
  - unfold startListening_resume.
    destruct (pendingAcquire (plat w)); [exact H |].
    destruct res; [| apply (live_streams_same w); auto].
    assert (H0 : forall w0,
              liveStreams (plat w0) = {[nextStream (plat w)]} ∪ liveStreams (plat w) ->
              nextStream (plat w0) = S (nextStream (plat w)) -> streams_below w0).
    { intros w0 El En s Hs. rewrite El in Hs. rewrite En.
      apply elem_of_union in Hs. destruct Hs as [Hs | Hs].
      - apply elem_of_singleton in Hs. lia.
      - apply H in Hs. lia. }
    destruct (contextThrows env); [apply H0; reflexivity |].
    destruct (liveThrows env); apply H0; reflexivity.
  - apply (live_streams_shrink w); [| | exact H];
      rewrite stopListening_plat; cbn [liveStreams nextStream]; [| reflexivity].
    destruct (streamRef (refs w)); [| reflexivity].
    intros x Hx. apply elem_of_difference in Hx. tauto.
  - apply (live_streams_same w); auto.
  - destruct (created k w); [apply (live_streams_same w); auto | exact H].
  - destruct (created k w); [apply (live_streams_same w); auto | exact H].
  - destruct (created k w); [apply (live_streams_same w); auto | exact H].
  - destruct (created k w); [| exact H]. unfold on_Transcript.
    destruct (to_result data) as [result |]; [| exact H].
    unfold onTranscript.
    destruct (is_final result), (res_words result);
      apply (live_streams_same w); auto.
  - destruct (decide _); [| exact H].
    destruct (onaudioprocess_hook inputData w) as (_ & _ & _ & El & En & _).
    apply (live_streams_same w); auto.
Qed.

Lemma live_reachable_streams_below (w : World) : reachable w -> streams_below w.
Proof.
  revert w. apply live_reachable_invariant; [| apply live_step_streams].
  intros s Hs. cbn in Hs. apply not_elem_of_empty in Hs. destruct Hs.
Qed.

Lemma live_start_again_acquires (w : World) :
  reachable w ->
  let s := nextStream (plat w) in
  let w' := startListening_resume Granted env_ok (startListening_begin None w) in
  (s ∉ liveStreams (plat w))
  /\ liveStreams (plat w') = {[s]} ∪ liveStreams (plat w)
  /\ size (liveStreams (plat w')) = S (size (liveStreams (plat w)))
  /\ streamRef (refs w') = Some s
  /\ connection (client w') = Some (nextConnection (plat w)).
Proof.
  intros Hw s w'.
  assert (Hfresh : s ∉ liveStreams (plat w)).
  { intros Hs. apply (live_reachable_streams_below w Hw) in Hs. unfold s in Hs. lia. }
  assert (Hpos : (0 < pendingAcquire (plat (startListening_begin None w)))%nat)
    by (cbn; lia).
  destruct (live_resume_ok_rest _ Hpos) as (_ & Hc & Hl).
  pose proof (live_resume_ok_refs _ Hpos) as Hr.
  fold w' in Hc, Hl, Hr.
  change (nextStream (plat (startListening_begin None w))) with s in Hl, Hr.
  change (liveStreams (plat (startListening_begin None w)))
    with (liveStreams (plat w)) in Hl.
  change (nextConnection (plat (startListening_begin None w)))
    with (nextConnection (plat w)) in Hc.
  clearbody w'.
  split; [exact Hfresh |]. split; [exact Hl |]. split; [| split].
  - rewrite Hl, size_union, size_singleton; [reflexivity |].
    intros x Hx1 Hx2. apply elem_of_singleton in Hx1. subst x. exact (Hfresh Hx2).
  - rewrite Hr. reflexivity.
  - exact Hc.
Qed.

End DeepgramFacts.

(** ** The claims of the specification *)

Import Browser.
Local Open Scope string_scope.

(** C1.  The specification asks that every failure path of the recorder
    releases the device tracks and clears the duration timer before the
    failure shows.  The ['stop'] listener does not: on a recording
    stopped with no chunk it reports the error and returns before the
    cleanup that follows.  After start, grant, stop and the recorder's
    [stop] event, the error is set and the state is inactive, while the
    stream is still live and still held in [streamRef], the timer is
    still live and still held in [durationIntervalRef], and its next
    tick still advances [duration]. *)
Theorem stop_without_chunks_skips_cleanup :
  let w := Recorder.run Recorder.init
             [Recorder.CallStart true;
              Recorder.Settle Granted (Recorder.env_ok 0);
              Recorder.CallStop;
              Recorder.Stop 0] in
  Recorder.error (Recorder.hook w)
    = Some "No audio data was recorded. Please try again."
  /\ Recorder.recordingState (Recorder.hook w) = Recorder.inactive
  /\ Recorder.streamRef (Recorder.refs w) = Some 0%nat
  /\ elements (Recorder.liveStreams (Recorder.plat w)) = [0%nat]
  /\ Recorder.durationIntervalRef (Recorder.refs w) = Some 1%positive
  /\ elements (Recorder.liveTimers (Recorder.plat w)) = [1%positive]
  /\ Recorder.duration
       (Recorder.hook (Recorder.step w (Recorder.Tick 1 5000))) = 5.
Proof. vm_compute. repeat split; reflexivity. Qed.

(** C2.  For every transcript event handed to the hook: a final event
    appends its text to [finalTranscript] after a single space, so the
    sequence of final segments grows by exactly one entry, and empties
    the interim text; a non-final event replaces the interim text by the
    event's text and leaves [finalTranscript] (and [transcript]) as they
    were.  In every reachable state [finalTranscript] is the rendering of
    a sequence of segments.  An event without a first alternative never
    reaches the hook. *)
Theorem transcript_event_reconciliation :
  forall (result : Deepgram.TranscriptionResult) (w : Deepgram.World),
    let w' := Deepgram.onTranscript result w in
    (Deepgram.is_final result = true ->
       Deepgram.finalTranscript (Deepgram.hook w')
         = Deepgram.finalTranscript (Deepgram.hook w)
           +:+ " " +:+ Deepgram.res_transcript result
       /\ Deepgram.interimTranscript (Deepgram.hook w') = ""
       /\ forall segments,
            Deepgram.finalTranscript (Deepgram.hook w) = Deepgram.render segments ->
            Deepgram.finalTranscript (Deepgram.hook w')
              = Deepgram.render (segments ++ [Deepgram.res_transcript result])
            /\ length (segments ++ [Deepgram.res_transcript result])
               = S (length segments))
    /\ (Deepgram.is_final result = false ->
          Deepgram.interimTranscript (Deepgram.hook w')
            = Deepgram.res_transcript result
          /\ Deepgram.finalTranscript (Deepgram.hook w')
             = Deepgram.finalTranscript (Deepgram.hook w)
          /\ Deepgram.transcript (Deepgram.hook w')
             = Deepgram.transcript (Deepgram.hook w))
    /\ (Deepgram.reachable w -> Deepgram.has_segments w)
    /\ (forall data,
          Deepgram.on_Transcript data w
          = match Deepgram.to_result data with
            | Some r => Deepgram.onTranscript r w
            | None => w
            end).
Proof.
  intros result w w'. split; [| split; [| split]].
  - intros F.
    destruct (DeepgramFacts.onTranscript_final result w F) as (Hf & _ & Hi).
    fold w' in Hf, Hi. split; [exact Hf |]. split; [exact Hi |].
    intros segments E. split.
    + rewrite DeepgramFacts.render_snoc, <- E. exact Hf.
    + rewrite length_app. simpl. lia.
  - intros F. exact (DeepgramFacts.onTranscript_interim result w F).
  - apply DeepgramFacts.reachable_has_segments.
  - reflexivity.
Qed.

Lemma transcript_event_reconciliation_witness :
  let w1 := Deepgram.onTranscript Deepgram.interim_hel Deepgram.init in
  let w2 := Deepgram.onTranscript Deepgram.final_hello_world w1 in
  (Deepgram.is_final Deepgram.interim_hel = false
   /\ Deepgram.interimTranscript (Deepgram.hook w1) = "hel"
   /\ Deepgram.finalTranscript (Deepgram.hook w1) = "")
  /\ (Deepgram.is_final Deepgram.final_hello_world = true
      /\ Deepgram.finalTranscript (Deepgram.hook w2) = " hello world"
      /\ Deepgram.interimTranscript (Deepgram.hook w2) = "")
  /\ (Deepgram.reachable Deepgram.init /\ Deepgram.has_segments Deepgram.init).
Proof.
  intros w1 w2. split; [| split].
  - split; [reflexivity |].
    destruct (transcript_event_reconciliation Deepgram.interim_hel Deepgram.init)
      as (_ & Hinterim & _).
    destruct (Hinterim eq_refl) as (H1 & H2 & _). split; [exact H1 | exact H2].
  - split; [reflexivity |].
    destruct (transcript_event_reconciliation Deepgram.final_hello_world w1)
      as (Hfinal & _).
    destruct (Hfinal eq_refl) as (H1 & H2 & _). split; [exact H1 | exact H2].
  - assert (R : Deepgram.reachable Deepgram.init) by (exists []; reflexivity).
    split; [exact R |].
    destruct (transcript_event_reconciliation Deepgram.interim_hel Deepgram.init)
      as (_ & _ & Hseg & _).
    exact (Hseg R).
Defined.

(** C3.  For every sample [x], the value stored by the conversion loop
    is the integer part of [x * 32768] clamped to [-32768, 32767]: the
    store into the [Int16Array] never wraps, because the clamped value is
    already in range.  Every [x >= 1] (1.0, 1.5, +Infinity) gives 32767
    and every [x <= -1] (-1.0, -2.0, -Infinity) gives -32768; a NaN
    sample is stored as 0.  The loop does this for each sample of the
    frame, in order. *)
Theorem float32_to_int16_saturates :
  (forall x : Q,
     Pcm.float32_to_int16 (Pcm.Fin x) = Pcm.quantize_spec x
     /\ -32768 <= Pcm.float32_to_int16 (Pcm.Fin x) <= 32767
     /\ ((1 <= x)%Q -> Pcm.float32_to_int16 (Pcm.Fin x) = 32767)
     /\ ((x <= -1)%Q -> Pcm.float32_to_int16 (Pcm.Fin x) = -32768))
  /\ Pcm.float32_to_int16 Pcm.PosInf = 32767
  /\ Pcm.float32_to_int16 Pcm.NegInf = -32768
  /\ Pcm.float32_to_int16 Pcm.NaN = 0
  /\ (forall frame : list Q,
        Pcm.convert_frame (map Pcm.Fin frame) = map Pcm.quantize_spec frame).
Proof.
  split; [| split; [| split; [| split]]]; try reflexivity.
  - intros x. rewrite PcmFacts.code_refines_spec.
    split; [reflexivity |]. split; [apply PcmFacts.quantize_spec_range |].
    split; [apply PcmFacts.quantize_spec_high | apply PcmFacts.quantize_spec_low].
  - intros frame. unfold Pcm.convert_frame. rewrite map_map.
    apply map_ext. intros x. apply PcmFacts.code_refines_spec.
Qed.

Lemma float32_to_int16_saturates_witness :
  ((1 <= 1.5)%Q /\ Pcm.float32_to_int16 (Pcm.Fin 1.5) = 32767)
  /\ ((-2 <= -1)%Q /\ Pcm.float32_to_int16 (Pcm.Fin (-2)) = -32768)
  /\ ((1 <= 1)%Q /\ Pcm.float32_to_int16 (Pcm.Fin 1) = 32767)
  /\ ((-1 <= -1)%Q /\ Pcm.float32_to_int16 (Pcm.Fin (-1)) = -32768).
Proof.
  destruct float32_to_int16_saturates as [H _].
  assert (L : forall a b : Q, Qle_bool a b = true -> (a <= b)%Q)
    by (intros a b; apply Qle_bool_iff).
  split; [| split; [| split]].
  - assert (Hx : (1 <= 1.5)%Q) by (apply L; reflexivity).
    split; [exact Hx |]. destruct (H 1.5%Q) as (_ & _ & Hhi & _). exact (Hhi Hx).
  - assert (Hx : (-2 <= -1)%Q) by (apply L; reflexivity).
    split; [exact Hx |]. destruct (H (-2)%Q) as (_ & _ & _ & Hlo). exact (Hlo Hx).
  - assert (Hx : (1 <= 1)%Q) by (apply L; reflexivity).
    split; [exact Hx |]. destruct (H 1%Q) as (_ & _ & Hhi & _). exact (Hhi Hx).
  - assert (Hx : (-1 <= -1)%Q) by (apply L; reflexivity).
    split; [exact Hx |]. destruct (H (-1)%Q) as (_ & _ & _ & Hlo). exact (Hlo Hx).
Defined.

(** C4.  The specification asks that a frame sent while the channel is
    not open is dropped with a warning.  [sendAudio] guards the send by
    the client's [isConnected] flag, and that flag is one per client,
    not one per channel: the [Open] listener of any channel the client
    ever created sets it, and [startLiveTranscription] replaces
    [this.connection] without clearing it.  After a start, a reset
    before channel 0 opened, a restart (which makes channel 1 the
    current one) and the late [Open] event of channel 0, channel 1 has
    not opened, only channel 0 is open, and yet the guard passes: the
    next audio callback hands its frame to channel 1 and no warning is
    written.  The same happens for a channel 1 that has opened and
    closed again. *)
Theorem frame_sent_on_channel_not_open :
  (let w := Deepgram.run Deepgram.init Channels.restart_before_open in
   let w' := Deepgram.step w (Deepgram.AudioProcess 1 [Pcm.Fin 1]) in
   Deepgram.connection (Deepgram.client w) = Some 1%nat
   /\ Channels.opened_in 1 Channels.restart_before_open = false
   /\ elements (Channels.open_channels Channels.restart_before_open) = [0%nat]
   /\ Channels.current_channel_open Channels.restart_before_open = false
   /\ Deepgram.isConnectionActive w = true
   /\ Deepgram.sent (Deepgram.plat w) = []
   /\ Deepgram.sent (Deepgram.plat w') = [(1%nat, [32767])]
   /\ Deepgram.warnings (Deepgram.plat w') = []
   /\ Deepgram.sent (Deepgram.plat (Deepgram.sendAudio [7] w)) = [(1%nat, [7])]
   /\ Deepgram.warnings (Deepgram.plat (Deepgram.sendAudio [7] w)) = [])
  /\ (let w := Deepgram.run Deepgram.init Channels.second_channel_closed in
      let w' := Deepgram.step w (Deepgram.AudioProcess 1 [Pcm.Fin 1]) in
      Deepgram.connection (Deepgram.client w) = Some 1%nat
      /\ Channels.opened_in 1 Channels.second_channel_closed = true
      /\ elements (Channels.open_channels Channels.second_channel_closed) = [0%nat]
      /\ Channels.current_channel_open Channels.second_channel_closed = false
      /\ Deepgram.sent (Deepgram.plat w') = [(1%nat, [32767])]
      /\ Deepgram.warnings (Deepgram.plat w') = []).
Proof. split; cbv zeta; repeat split; vm_compute; reflexivity. Qed.

(** C5, as the specification states it, fails: a reset requested while
    the acquisition is in flight is followed by a grant, and the hook ends
    up recording with the device open instead of idle with the device
    released. *)
Lemma reset_during_acquisition_is_overtaken :
  let w := Recorder.run Recorder.init
             [Recorder.CallStart true;
              Recorder.CallReset;
              Recorder.Settle Granted (Recorder.env_ok 0)] in
  Recorder.recordingState (Recorder.hook w) = Recorder.recording
  /\ Recorder.streamRef (Recorder.refs w) = Some 0%nat
  /\ elements (Recorder.liveStreams (Recorder.plat w)) = [0%nat]
  /\ ~ (Recorder.recordingState (Recorder.hook w) = Recorder.inactive
        /\ Recorder.liveStreams (Recorder.plat w) = ∅).
Proof.
  vm_compute. repeat split; try reflexivity. intros [H _]. discriminate H.
Qed.

(** C5, amended.  A stop or reset requested while a device acquisition
    is in flight does not cancel it.  When the acquisition then succeeds
    on a working platform, the recorder keeps the new stream in
    [streamRef] with its tracks live and reports [recording]; after a
    reset, only a further reset releases that stream.  The live hook
    likewise keeps the new stream and opens a channel, while
    [isListening] stays false. *)
Theorem cancel_does_not_stop_pending_acquisition :
  (forall (w : Recorder.World) (t : Z),
     (0 < Recorder.pendingAcquire (Recorder.plat w))%nat ->
     let s := Recorder.nextStream (Recorder.plat w) in
     (let w' := Recorder.startRecording_resume Granted (Recorder.env_ok t)
                  (Recorder.stopRecording w) in
      Recorder.recordingState (Recorder.hook w') = Recorder.recording
      /\ Recorder.streamRef (Recorder.refs w') = Some s
      /\ s ∈ Recorder.liveStreams (Recorder.plat w'))
     /\
     (let w' := Recorder.startRecording_resume Granted (Recorder.env_ok t)
                  (Recorder.resetRecording w) in
      Recorder.recordingState (Recorder.hook w') = Recorder.recording
      /\ Recorder.streamRef (Recorder.refs w') = Some s
      /\ s ∈ Recorder.liveStreams (Recorder.plat w')
      /\ (s ∉ Recorder.liveStreams (Recorder.plat (Recorder.resetRecording w')))))
  /\
  (forall w : Deepgram.World,
     (0 < Deepgram.pendingAcquire (Deepgram.plat w))%nat ->
     let s := Deepgram.nextStream (Deepgram.plat w) in
     let w' := Deepgram.startListening_resume Granted Deepgram.env_ok
                 (Deepgram.stopListening w) in
     Deepgram.isListening (Deepgram.hook w') = false
     /\ Deepgram.streamRef (Deepgram.refs w') = Some s
     /\ s ∈ Deepgram.liveStreams (Deepgram.plat w')
     /\ Deepgram.connection (Deepgram.client w')
        = Some (Deepgram.nextConnection (Deepgram.plat w))).
Proof.
  split.
  - intros w t Hp. exact (RecorderFacts.late_grant_after_cancel w t Hp).
  - intros w Hp. exact (DeepgramFacts.late_grant_after_stop w Hp).
Qed.

Lemma cancel_does_not_stop_pending_acquisition_witness :
  let r := Recorder.startRecording_begin true Recorder.init in
  let d := Deepgram.startListening_begin None Deepgram.init in
  ((0 < Recorder.pendingAcquire (Recorder.plat r))%nat
   /\ Recorder.recordingState
        (Recorder.hook
           (Recorder.startRecording_resume Granted (Recorder.env_ok 0)
              (Recorder.resetRecording r))) = Recorder.recording)
  /\ ((0 < Deepgram.pendingAcquire (Deepgram.plat d))%nat
      /\ Deepgram.streamRef
           (Deepgram.refs
              (Deepgram.startListening_resume Granted Deepgram.env_ok
                 (Deepgram.stopListening d))) = Some 0%nat).
Proof.
  intros r d.
  destruct cancel_does_not_stop_pending_acquisition as [Hrec Hlive].
  assert (Pr : (0 < Recorder.pendingAcquire (Recorder.plat r))%nat)
    by (vm_compute; lia).
  assert (Pd : (0 < Deepgram.pendingAcquire (Deepgram.plat d))%nat)
    by (vm_compute; lia).
  split.
  - split; [exact Pr |].
    destruct (Hrec r 0 Pr) as [_ (H & _)]. exact H.
  - split; [exact Pd |].
    destruct (Hlive d Pd) as (_ & H & _). exact H.
Defined.

(** C6, as the specification states it, fails: a start request made
    while the recorder is already recording goes through, and once it is
    granted two device streams are open, the first of them no longer
    referenced by the hook. *)
Lemma second_start_opens_second_stream :
  let w1 := Recorder.run Recorder.init
              [Recorder.CallStart true;
               Recorder.Settle Granted (Recorder.env_ok 0)] in
  let w2 := Recorder.run w1
              [Recorder.CallStart true;
               Recorder.Settle Granted (Recorder.env_ok 1)] in
  Recorder.recordingState (Recorder.hook w1) = Recorder.recording
  /\ elements (Recorder.liveStreams (Recorder.plat w1)) = [0%nat]
  /\ size (Recorder.liveStreams (Recorder.plat w2)) = 2%nat
  /\ Recorder.streamRef (Recorder.refs w2) = Some 1%nat
  /\ size (Recorder.liveTimers (Recorder.plat w2)) = 2%nat
  /\ ~ (size (Recorder.liveStreams (Recorder.plat w2)) <= 1)%nat.
Proof.
  vm_compute. repeat split; try reflexivity. lia.
Qed.

(** C6, amended.  Neither hook rejects a start request, whatever the
    state, Starting and Active included: the request starts a further
    acquisition, and when that is granted on a working platform a fresh
    device stream is opened next to those already live (the number of
    live streams grows by one), [streamRef] is overwritten with it, and
    the recorder reports [recording] (the live hook opens a further
    channel). *)
Theorem start_is_never_rejected :
  (forall (w : Recorder.World) (t : Z),
     Recorder.reachable w ->
     let s := Recorder.nextStream (Recorder.plat w) in
     let w' := Recorder.startRecording_resume Granted (Recorder.env_ok t)
                 (Recorder.startRecording_begin true w) in
     (s ∉ Recorder.liveStreams (Recorder.plat w))
     /\ Recorder.liveStreams (Recorder.plat w')
        = {[s]} ∪ Recorder.liveStreams (Recorder.plat w)
     /\ size (Recorder.liveStreams (Recorder.plat w'))
        = S (size (Recorder.liveStreams (Recorder.plat w)))
     /\ Recorder.streamRef (Recorder.refs w') = Some s
     /\ Recorder.recordingState (Recorder.hook w') = Recorder.recording)
  /\
  (forall w : Deepgram.World,
     Deepgram.reachable w ->
     let s := Deepgram.nextStream (Deepgram.plat w) in
     let w' := Deepgram.startListening_resume Granted Deepgram.env_ok
                 (Deepgram.startListening_begin None w) in
     (s ∉ Deepgram.liveStreams (Deepgram.plat w))
     /\ Deepgram.liveStreams (Deepgram.plat w')
        = {[s]} ∪ Deepgram.liveStreams (Deepgram.plat w)
     /\ size (Deepgram.liveStreams (Deepgram.plat w'))
        = S (size (Deepgram.liveStreams (Deepgram.plat w)))
     /\ Deepgram.streamRef (Deepgram.refs w') = Some s
     /\ Deepgram.connection (Deepgram.client w')
        = Some (Deepgram.nextConnection (Deepgram.plat w))).
Proof.
  split.
  - intros w t Hw. exact (RecorderFacts.start_again_acquires w t Hw).
  - intros w Hw. exact (DeepgramFacts.live_start_again_acquires w Hw).
Qed.

Lemma start_is_never_rejected_witness :
  let r := Recorder.run Recorder.init
             [Recorder.CallStart true;
              Recorder.Settle Granted (Recorder.env_ok 0)] in
  let d := Deepgram.run Deepgram.init
             [Deepgram.CallStartListening None;
              Deepgram.Settle Granted Deepgram.env_ok] in
  (Recorder.reachable r
   /\ Recorder.recordingState (Recorder.hook r) = Recorder.recording
   /\ size (Recorder.liveStreams
              (Recorder.plat
                 (Recorder.startRecording_resume Granted (Recorder.env_ok 1)
                    (Recorder.startRecording_begin true r))))
      = S (size (Recorder.liveStreams (Recorder.plat r))))
  /\ (Deepgram.reachable d
      /\ Deepgram.isListening (Deepgram.hook d) = true
      /\ size (Deepgram.liveStreams
                 (Deepgram.plat
                    (Deepgram.startListening_resume Granted Deepgram.env_ok
                       (Deepgram.startListening_begin None d))))
         = S (size (Deepgram.liveStreams (Deepgram.plat d)))).
Proof.
  intros r d.
  destruct start_is_never_rejected as [Hrec Hlive].
  assert (Rr : Recorder.reachable r) by (eexists; reflexivity).
  assert (Rd : Deepgram.reachable d) by (eexists; reflexivity).
  split.
  - split; [exact Rr |]. split; [reflexivity |].
    destruct (Hrec r 1 Rr) as (_ & _ & H & _). exact H.
  - split; [exact Rd |]. split; [reflexivity |].
    destruct (Hlive d Rd) as (_ & _ & H & _). exact H.
Defined.

(** C7.  When the ['stop'] listener finds no chunk, or assembles a blob
    of zero bytes, it sets the error, returns the state to [inactive] and
    produces no artifact: [audioURL] is left as it was and no object URL
    is created.  In particular a recording started from any state and
    stopped before any chunk arrived ends with the "no audio data" error,
    in state [inactive], with [audioURL] null. *)
Theorem empty_recording_is_an_error :
  (forall (mimeType : string) (w : Recorder.World),
     Recorder.audioChunksRef (Recorder.refs w) = []
     \/ Recorder.blob_size (Recorder.assembled mimeType w) = 0%nat ->
     let w' := Recorder.on_stop mimeType w in
     (Recorder.error (Recorder.hook w')
        = Some "No audio data was recorded. Please try again."
      \/ Recorder.error (Recorder.hook w')
         = Some "Recording failed - no audio data captured.")
     /\ Recorder.recordingState (Recorder.hook w') = Recorder.inactive
     /\ Recorder.audioURL (Recorder.hook w') = Recorder.audioURL (Recorder.hook w)
     /\ Recorder.objectURLs (Recorder.plat w')
        = Recorder.objectURLs (Recorder.plat w))
  /\
  (forall (w : Recorder.World) (t : Z),
     let w' := Recorder.run w
                 [Recorder.CallStart true;
                  Recorder.Settle Granted (Recorder.env_ok t);
                  Recorder.CallStop;
                  Recorder.Stop (Recorder.nextRecorder (Recorder.plat w))] in
     Recorder.error (Recorder.hook w')
       = Some "No audio data was recorded. Please try again."
     /\ Recorder.recordingState (Recorder.hook w') = Recorder.inactive
     /\ Recorder.audioURL (Recorder.hook w') = None).
Proof.
  split.
  - intros mimeType w H w'.
    destruct (RecorderFacts.on_stop_not_finalized mimeType w
                (RecorderFacts.on_stop_empty mimeType w H))
      as (He & Hs & Hu & Hp & _).
    fold w' in He, Hs, Hu, Hp. rewrite Hp. auto.
  - exact RecorderFacts.zero_chunk_scenario.
Qed.

Lemma empty_recording_is_an_error_witness :
  let w := Recorder.run Recorder.init
             [Recorder.CallStart true;
              Recorder.Settle Granted (Recorder.env_ok 0);
              Recorder.CallStop] in
  (Recorder.audioChunksRef (Recorder.refs w) = []
   \/ Recorder.blob_size (Recorder.assembled "audio/webm" w) = 0%nat)
  /\ Recorder.recordingState
       (Recorder.hook (Recorder.on_stop "audio/webm" w)) = Recorder.inactive
  /\ Recorder.audioURL (Recorder.hook (Recorder.on_stop "audio/webm" w))
     = Recorder.audioURL (Recorder.hook w).
Proof.
  intros w.
  assert (H : Recorder.audioChunksRef (Recorder.refs w) = []
              \/ Recorder.blob_size (Recorder.assembled "audio/webm" w) = 0%nat)
    by (left; reflexivity).
  split; [exact H |].
  destruct empty_recording_is_an_error as [Hstop _].
  destruct (Hstop "audio/webm" w H) as (_ & Hs & Hu & _).
  split; [exact Hs | exact Hu].
Defined.

(** C8, as the specification states it, fails: after the channel opened,
    [stopListening] leaves the hook's [connectionState] null, not
    [CLOSED]. *)
Lemma stopListening_leaves_no_state :
  let w := Deepgram.run Deepgram.init
             [Deepgram.CallStartListening None;
              Deepgram.Settle Granted Deepgram.env_ok;
              Deepgram.Open 0;
              Deepgram.CallStopListening] in
  Deepgram.connectionState (Deepgram.hook w) = None
  /\ Deepgram.connectionState (Deepgram.hook w) <> Some Deepgram.CLOSED.
Proof. vm_compute. split; [reflexivity | discriminate]. Qed.

(** C8, amended.  [stopListening] is idempotent and, whenever it is
    called, leaves the hook's [connectionState] null and [isConnected]
    false; in every reachable state it also leaves the client's connected
    flag off.  The state becomes [CLOSED] only when the [Close] event of a
    channel is delivered afterwards. *)
Theorem stopListening_idempotent_and_clears :
  forall w : Deepgram.World,
    Deepgram.stopListening (Deepgram.stopListening w) = Deepgram.stopListening w
    /\ Deepgram.connectionState (Deepgram.hook (Deepgram.stopListening w)) = None
    /\ Deepgram.isConnected (Deepgram.hook (Deepgram.stopListening w)) = false
    /\ (Deepgram.reachable w ->
        Deepgram.isConnectionActive (Deepgram.stopListening w) = false)
    /\ (forall k,
          Deepgram.created k (Deepgram.stopListening w) = true ->
          Deepgram.connectionState
            (Deepgram.hook
               (Deepgram.step (Deepgram.stopListening w) (Deepgram.Close k)))
          = Some Deepgram.CLOSED).
Proof.
  intros w.
  destruct (DeepgramFacts.stopListening_state w) as (Hc & Hi & _).
  split; [apply DeepgramFacts.stopListening_idem |].
  split; [exact Hc |]. split; [exact Hi |].
  split; [apply DeepgramFacts.stopListening_inactive |].
  intros k Hk. simpl. rewrite Hk. reflexivity.
Qed.

Lemma stopListening_idempotent_and_clears_witness :
  let w := Deepgram.run Deepgram.init
             [Deepgram.CallStartListening None;
              Deepgram.Settle Granted Deepgram.env_ok;
              Deepgram.Open 0] in
  Deepgram.reachable w
  /\ Deepgram.isConnectionActive w = true
  /\ Deepgram.isConnectionActive (Deepgram.stopListening w) = false
  /\ Deepgram.created 0 (Deepgram.stopListening w) = true
  /\ Deepgram.connectionState
       (Deepgram.hook
          (Deepgram.step (Deepgram.stopListening w) (Deepgram.Close 0)))
     = Some Deepgram.CLOSED.
Proof.
  intros w.
  assert (R : Deepgram.reachable w) by (eexists; reflexivity).
  assert (K : Deepgram.created 0 (Deepgram.stopListening w) = true)
    by reflexivity.
  destruct (stopListening_idempotent_and_clears w) as (_ & _ & _ & Ha & Hk).
  split; [exact R |]. split; [reflexivity |]. split; [exact (Ha R) |].
  split; [exact K | exact (Hk 0%nat K)].
Defined.

(** C9.  In every state, reachable or not, calling [stopRecording]
    twice in a row leaves exactly the state one call leaves, and so do
    [resetRecording] and [stopListening]; the whole state is the same, so
    in particular are the recording state, audio URL, transcript, error,
    duration and connection state, now and after any further events.  It
    holds as well when both calls run with the same closed-over
    [recordingState] and [audioURL], as two calls without a render in
    between do. *)
Theorem stop_and_reset_idempotent :
  (forall w : Recorder.World,
     Recorder.stopRecording (Recorder.stopRecording w) = Recorder.stopRecording w
     /\ Recorder.resetRecording (Recorder.resetRecording w)
        = Recorder.resetRecording w
     /\ forall trace,
          Recorder.run (Recorder.stopRecording (Recorder.stopRecording w)) trace
          = Recorder.run (Recorder.stopRecording w) trace
          /\ Recorder.run (Recorder.resetRecording (Recorder.resetRecording w)) trace
             = Recorder.run (Recorder.resetRecording w) trace)
  /\ (forall (rs : Recorder.RecordingState) (url : option nat) (w : Recorder.World),
        Recorder.stopRecording_in rs (Recorder.stopRecording_in rs w)
        = Recorder.stopRecording_in rs w
        /\ Recorder.resetRecording_in rs url (Recorder.resetRecording_in rs url w)
           = Recorder.resetRecording_in rs url w)
  /\ (forall w : Deepgram.World,
        Deepgram.stopListening (Deepgram.stopListening w)
        = Deepgram.stopListening w).
Proof.
  split; [| split].
  - intros w. split; [apply RecorderFacts.stopRecording_idem |].
    split; [apply RecorderFacts.resetRecording_idem |].
    intros trace.
    rewrite RecorderFacts.stopRecording_idem, RecorderFacts.resetRecording_idem.
    split; reflexivity.
  - intros rs url w. split.
    + apply RecorderFacts.stopRecording_in_idem.
    + apply RecorderFacts.resetRecording_in_idem.
  - apply DeepgramFacts.stopListening_idem.
Qed.

(** C10.  The ['dataavailable'] listener drops missing and empty data,
    so in every reachable state each chunk in [audioChunksRef] has at
    least one byte; hence whenever the ['stop'] listener finds a chunk the
    assembled blob is not empty, and the zero-byte branch of the listener
    is never the one taken. *)
Theorem chunk_buffer_has_no_empty_chunk :
  forall w : Recorder.World,
    (forall b, Recorder.blob_size b = 0%nat ->
               Recorder.on_dataavailable (Some b) w = w)
    /\ Recorder.on_dataavailable None w = w
    /\ (Recorder.reachable w ->
        Recorder.chunks_nonempty w
        /\ (Recorder.audioChunksRef (Recorder.refs w) <> [] ->
            forall mimeType,
              (0 < Recorder.blob_size (Recorder.assembled mimeType w))%nat)
        /\ forall mimeType,
             Recorder.stop_branch mimeType w <> Recorder.ZeroByteBlob).
Proof.
  intros w. split; [| split].
  - intros b Hb. unfold Recorder.on_dataavailable. rewrite Hb. reflexivity.
  - reflexivity.
  - intros Hw.
    destruct (RecorderFacts.chunks_never_empty_blob w Hw) as [Hc Hb].
    split; [exact Hc |]. split; [| exact Hb].
    intros Hne mimeType.
    unfold Recorder.assembled, Recorder.blob_size, Recorder.new_Blob.
    cbn [Recorder.blob_bytes].
    apply RecorderFacts.concat_nonempty; assumption.
Qed.

Lemma chunk_buffer_has_no_empty_chunk_witness :
  let chunk := {| Recorder.blob_bytes := [Byte.x01; Byte.x02];
                  Recorder.blob_type := "audio/webm" |} in
  let empty := {| Recorder.blob_bytes := [];
                  Recorder.blob_type := "audio/webm" |} in
  let w := Recorder.run Recorder.init
             [Recorder.CallStart true;
              Recorder.Settle Granted (Recorder.env_ok 0);
              Recorder.DataAvailable 0 (Some empty);
              Recorder.DataAvailable 0 (Some chunk);
              Recorder.DataAvailable 0 None;
              Recorder.CallStop] in
  Recorder.reachable w
  /\ Recorder.audioChunksRef (Recorder.refs w) = [chunk]
  /\ Recorder.stop_branch "audio/webm;codecs=opus" w <> Recorder.ZeroByteBlob.
Proof.
  intros chunk empty w.
  assert (R : Recorder.reachable w) by (eexists; reflexivity).
  destruct (chunk_buffer_has_no_empty_chunk w) as (_ & _ & H).
  destruct (H R) as (_ & _ & Hb).
  split; [exact R |]. split; [reflexivity |]. apply Hb.
Defined.

(** * Further properties of the code *)

(** ** The recorder hook, beyond the claims *)

Module RecorderSessionFacts.

Import Recorder RecorderSession.
Local Open Scope list_scope.

Lemma on_stop_final_hook (mimeType : string) (w : World) :
  stop_branch mimeType w = Finalized ->
  hook (on_stop mimeType w)
  = {| recordingState := stopped; audioURL := Some (nextURL (plat w));
       error := error (hook w); duration := duration (hook w) |}.
Proof.
  intros H. unfold on_stop. rewrite H. cbn [createObjectURL].
  destruct w as [h r p]; destruct r as [mr ch sr st di].
  cbn [refs durationIntervalRef setRecordingState setAudioURL with_hook].
  destruct di, sr; reflexivity.
Qed.

Lemma on_stop_final_refs (mimeType : string) (w : World) :
  stop_branch mimeType w = Finalized ->
  refs (on_stop mimeType w)
  = {| mediaRecorderRef := mediaRecorderRef (refs w);
       audioChunksRef := audioChunksRef (refs w); streamRef := None;
       startTimeRef := startTimeRef (refs w); durationIntervalRef := None |}.
Proof.
  intros H. unfold on_stop. rewrite H. cbn [createObjectURL].
  destruct w as [h r p]; destruct r as [mr ch sr st di].
  cbn [refs durationIntervalRef setRecordingState setAudioURL with_hook].
  destruct di, sr; reflexivity.
Qed.

Lemma on_stop_final_plat (mimeType : string) (w : World) :
  stop_branch mimeType w = Finalized ->
  plat (on_stop mimeType w)
  = {| pendingAcquire := pendingAcquire (plat w);
       liveStreams := match streamRef (refs w) with
                      | Some s => liveStreams (plat w) ∖ {[s]}
                      | None => liveStreams (plat w)
                      end;
       liveTimers := match durationIntervalRef (refs w) with
                     | Some t => liveTimers (plat w) ∖ {[t]}
                     | None => liveTimers (plat w)
                     end;
       objectURLs := <[nextURL (plat w) := assembled mimeType w]>
                       (objectURLs (plat w));
       recorders := recorders (plat w);
       nextStream := nextStream (plat w);
       nextRecorder := nextRecorder (plat w);
       nextURL := S (nextURL (plat w));
       nextTimer := nextTimer (plat w) |}.
Proof.
  intros H. unfold on_stop. rewrite H. cbn [createObjectURL].
  destruct w as [h r p]; destruct r as [mr ch sr st di]; destruct p.
  cbn [refs plat durationIntervalRef streamRef setRecordingState setAudioURL
       with_hook].
  destruct di, sr; reflexivity.
Qed.


Lemma catch_effect (err : Thrown) (w : World) :
  let w' := startRecording_catch err w in
  hook w' = {| recordingState := inactive; audioURL := audioURL (hook w);
               error := Some (errorMessage err); duration := duration (hook w) |}
  /\ refs w' = {| mediaRecorderRef := mediaRecorderRef (refs w);
                  audioChunksRef := audioChunksRef (refs w); streamRef := None;
                  startTimeRef := startTimeRef (refs w);
                  durationIntervalRef := durationIntervalRef (refs w) |}
  /\ liveStreams (plat w') = match streamRef (refs w) with
                             | Some s => liveStreams (plat w) ∖ {[s]}
                             | None => liveStreams (plat w)
                             end
  /\ liveTimers (plat w') = liveTimers (plat w)
  /\ objectURLs (plat w') = objectURLs (plat w)
  /\ recorders (plat w') = recorders (plat w)
  /\ nextStream (plat w') = nextStream (plat w)
  /\ pendingAcquire (plat w') = pendingAcquire (plat w).
Proof.
  unfold startRecording_catch.
  destruct w as [h r p]; destruct r as [mr ch sr st di].
  cbn [refs streamRef setError setRecordingState with_hook].
  destruct sr; repeat split; reflexivity.
Qed.

Lemma difference_union_fresh `{Countable A} (X : gset A) (s : A) :
  s ∉ X -> ({[s]} ∪ X) ∖ {[s]} = X.
Proof.
  intros Hs. apply set_eq. intros x.
  rewrite elem_of_difference, elem_of_union, elem_of_singleton. split.
  - intros [[Hx | Hx] Hn]; [contradiction | exact Hx].
  - intros Hx. split; [right; exact Hx | intros ->; exact (Hs Hx)].
Qed.

(** The continuation fails after the grant: what is left. *)
Lemma resume_fails_after_grant (env : Env) (w : World) :
  (0 < pendingAcquire (plat w))%nat ->
  fails_after_grant env ->
  let w' := startRecording_resume Granted env w in
  recordingState (hook w') = inactive
  /\ is_Some (error (hook w'))
  /\ streamRef (refs w') = None
  /\ liveStreams (plat w')
     = ({[nextStream (plat w)]} ∪ liveStreams (plat w)) ∖ {[nextStream (plat w)]}
  /\ liveTimers (plat w') = liveTimers (plat w)
  /\ durationIntervalRef (refs w') = durationIntervalRef (refs w).
Proof.
  intros Hp Hf. unfold startRecording_resume.
  destruct (pendingAcquire (plat w)) as [| n]; [lia |].
  assert (Hcatch : forall err w0,
            streamRef (refs w0) = Some (nextStream (plat w)) ->
            liveStreams (plat w0) = {[nextStream (plat w)]} ∪ liveStreams (plat w) ->
            liveTimers (plat w0) = liveTimers (plat w) ->
            durationIntervalRef (refs w0) = durationIntervalRef (refs w) ->
            let w' := startRecording_catch err w0 in
            recordingState (hook w') = inactive
            /\ is_Some (error (hook w'))
            /\ streamRef (refs w') = None
            /\ liveStreams (plat w')
               = ({[nextStream (plat w)]} ∪ liveStreams (plat w))
                 ∖ {[nextStream (plat w)]}
            /\ liveTimers (plat w') = liveTimers (plat w)
            /\ durationIntervalRef (refs w') = durationIntervalRef (refs w)).
  { intros err w0 Es El Et Ed w'.
    destruct (catch_effect err w0) as (Hh & Hr & Hl & Ht & _).
    fold w' in Hh, Hr, Hl, Ht. rewrite Hh, Hr, Hl, Ht, Es, El, Et.
    cbn [recordingState error streamRef durationIntervalRef].
    split; [reflexivity |]. split; [eexists; reflexivity |]. auto. }
  destruct (hasMediaRecorder env) eqn:Em; cbn [negb];
    [| apply Hcatch; reflexivity].
  destruct (ctorThrows env) as [e1 |] eqn:Ec; [apply Hcatch; reflexivity |].
  destruct (startThrows env) as [e2 |] eqn:Es; [apply Hcatch; reflexivity |].
  exfalso. destruct Hf as [Hf | [[x Hf] | [x Hf]]]; congruence.
Qed.

(** **** References point at live resources *)

Lemma refs_live_intro (w : World) :
  (forall s, streamRef (refs w) = Some s -> s ∈ liveStreams (plat w)) ->
  (forall t, durationIntervalRef (refs w) = Some t -> t ∈ liveTimers (plat w)) ->
  (forall r, mediaRecorderRef (refs w) = Some r ->
             is_Some (recorders (plat w) !! r)) ->
  (forall u, audioURL (hook w) = Some u -> is_Some (objectURLs (plat w) !! u)) ->
  refs_live w.
Proof. unfold refs_live. auto. Qed.

Lemma catch_refs_live (err : Thrown) (w : World) :
  refs_live w -> refs_live (startRecording_catch err w).
Proof.
  intros (Hs & Ht & Hr & Hu).
  destruct (catch_effect err w) as (Eh & Er & El & Et & Eo & Ec & _).
  apply refs_live_intro; rewrite ?Eh, ?Er, ?Et, ?Eo, ?Ec;
    cbn [streamRef durationIntervalRef mediaRecorderRef audioURL]; auto.
  discriminate.
Qed.

(** Changes that leave the referenced resources alone, or drop the audio
    URL, keep the references live. *)
Lemma refs_live_same (w w0 : World) :
  streamRef (refs w0) = streamRef (refs w) ->
  durationIntervalRef (refs w0) = durationIntervalRef (refs w) ->
  mediaRecorderRef (refs w0) = mediaRecorderRef (refs w) ->
  liveStreams (plat w0) = liveStreams (plat w) ->
  liveTimers (plat w0) = liveTimers (plat w) ->
  recorders (plat w0) = recorders (plat w) ->
  audioURL (hook w0) = None
  \/ (audioURL (hook w0) = audioURL (hook w)
      /\ objectURLs (plat w0) = objectURLs (plat w)) ->
  refs_live w -> refs_live w0.
Proof.
  intros Es Ed Em El Et Ec Hu (Hs & Ht & Hr & Hurl).
  apply refs_live_intro; rewrite ?Es, ?Ed, ?Em, ?El, ?Et, ?Ec; auto.
  intros u Eu. destruct Hu as [Hu | [Hu Ho]]; [congruence |].
  rewrite Ho. apply Hurl. rewrite <- Hu. exact Eu.
Qed.

Lemma begin_refs_live (supported : bool) (w : World) :
  refs_live w -> refs_live (startRecording_begin supported w).
Proof.
  intros H. unfold startRecording_begin, startRecording_begin_in.
  destruct (audioURL (hook w)) as [u |] eqn:Eu; destruct supported;
    try apply catch_refs_live;
    (apply (refs_live_same w); [reflexivity .. | | exact H]).
  - left. reflexivity.
  - left. reflexivity.
  - left. exact Eu.
  - left. exact Eu.
Qed.

Lemma resume_refs_live (res : AcquireResult) (env : Env) (w : World) :
  refs_live w -> refs_live (startRecording_resume res env w).
Proof.
  intros H. unfold startRecording_resume.
  destruct (pendingAcquire (plat w)) as [| n]; [exact H |].
  assert (H0 : refs_live (set_pendingAcquire n w)).
  { apply (refs_live_same w); [reflexivity .. | | exact H]. right. split; reflexivity. }
  destruct res; [| apply catch_refs_live; exact H0].
  destruct H as (Hs & Ht & Hr & Hu).
  set (s := nextStream (plat w)).
  assert (H1 : forall w1,
            streamRef (refs w1) = Some s ->
            liveStreams (plat w1) = {[s]} ∪ liveStreams (plat w) ->
            durationIntervalRef (refs w1) = durationIntervalRef (refs w) ->
            liveTimers (plat w1) = liveTimers (plat w) ->
            (forall r, mediaRecorderRef (refs w1) = Some r ->
                       is_Some (recorders (plat w1) !! r)) ->
            audioURL (hook w1) = audioURL (hook w) ->
            objectURLs (plat w1) = objectURLs (plat w) ->
            refs_live w1).
  { intros w1 Es El Ed Et Hm Eu Eo.
    apply refs_live_intro; rewrite ?Es, ?El, ?Ed, ?Et, ?Eu, ?Eo; auto.
    intros s0 E. injection E as <-. apply elem_of_union_l.
    apply elem_of_singleton. reflexivity. }
  destruct (hasMediaRecorder env); cbn [negb].
  2:{ apply catch_refs_live. apply H1; try reflexivity. exact Hr. }
  destruct (ctorThrows env).
  { apply catch_refs_live. apply H1; try reflexivity. exact Hr. }
  destruct (startThrows env).
  { apply catch_refs_live. apply H1; try reflexivity.
    intros r E. injection E as <-.
    change (is_Some ((<[nextRecorder (plat w) :=
                         {| mr_stream := s;
                            mr_mimeType := negotiate_mimeType (isTypeSupported env);
                            mr_state := inactive |}]> (recorders (plat w)))
                     !! nextRecorder (plat w))).
    rewrite lookup_insert_eq. eexists; reflexivity. }
  set (t := nextTimer (plat w)).
  apply refs_live_intro.
  - intros s0 E. injection E as <-. apply elem_of_union_l.
    apply elem_of_singleton. reflexivity.
  - intros t0 E. injection E as <-. apply elem_of_union_l.
    apply elem_of_singleton. reflexivity.
  - intros r E. injection E as <-.
    change (is_Some ((<[nextRecorder (plat w) :=
                         {| mr_stream := s;
                            mr_mimeType := negotiate_mimeType (isTypeSupported env);
                            mr_state := recording |}]>
                       (<[nextRecorder (plat w) :=
                            {| mr_stream := s;
                               mr_mimeType := negotiate_mimeType (isTypeSupported env);
                               mr_state := inactive |}]> (recorders (plat w))))
                     !! nextRecorder (plat w))).
    rewrite lookup_insert_eq. eexists; reflexivity.
  - exact Hu.
Qed.

Lemma stop_call_refs_live (w : World) : refs_live w -> refs_live (stopRecording w).
Proof.
  intros (Hs & Ht & Hr & Hu). unfold stopRecording.
  apply refs_live_intro;
    rewrite ?RecorderFacts.stopRecording_in_refs, ?RecorderFacts.stopRecording_in_hook,
      ?RecorderFacts.stopRecording_in_plat;
    cbn [liveStreams liveTimers objectURLs recorders]; auto.
  intros r Er. unfold stopped_recorders. rewrite Er.
  destruct (decide _); [| apply Hr; exact Er].
  rewrite lookup_alter_eq. destruct (Hr r Er) as [x ->]. eexists; reflexivity.
Qed.

Lemma reset_refs_live (w : World) : refs_live w -> refs_live (resetRecording w).
Proof.
  intros (Hs & Ht & Hr & Hu). unfold resetRecording.
  apply refs_live_intro;
    rewrite ?RecorderFacts.resetRecording_in_refs, ?RecorderFacts.resetRecording_in_hook,
      ?RecorderFacts.resetRecording_in_plat;
    cbn [streamRef durationIntervalRef mediaRecorderRef audioURL recorders];
    try discriminate.
  intros r Er. unfold stopped_recorders. rewrite Er.
  destruct (decide _); [| apply Hr; exact Er].
  rewrite lookup_alter_eq. destruct (Hr r Er) as [x ->]. eexists; reflexivity.
Qed.

Lemma on_stop_refs_live (mimeType : string) (w : World) :
  refs_live w -> refs_live (on_stop mimeType w).
Proof.
  intros H. destruct (stop_branch mimeType w) eqn:B.
  - unfold on_stop. rewrite B.
    apply (refs_live_same w); [reflexivity .. | | exact H]. right. split; reflexivity.
  - unfold on_stop. rewrite B.
    apply (refs_live_same w); [reflexivity .. | | exact H]. right. split; reflexivity.
  - destruct H as (Hs & Ht & Hr & Hu).
    apply refs_live_intro;
      rewrite ?(on_stop_final_hook _ _ B), ?(on_stop_final_refs _ _ B),
        ?(on_stop_final_plat _ _ B);
      cbn [streamRef durationIntervalRef mediaRecorderRef audioURL recorders
           objectURLs]; try discriminate; auto.
    intros u E. injection E as <-. rewrite lookup_insert_eq. eexists; reflexivity.
Qed.

Lemma step_refs_live (w : World) (a : Action) : refs_live w -> refs_live (step w a).
Proof.
  intros H. destruct a; cbn [step].
  - apply begin_refs_live. exact H.
  - apply resume_refs_live. exact H.
  - apply stop_call_refs_live. exact H.
  - apply reset_refs_live. exact H.
  - destruct (recorders (plat w) !! r); [| exact H].
    unfold on_dataavailable. destruct data as [b |]; [| exact H].
    destruct (0 <? blob_size b)%nat; [| exact H].
    apply (refs_live_same w); [reflexivity .. | | exact H]. right. split; reflexivity.
  - destruct (recorders (plat w) !! r); [| exact H].
    apply on_stop_refs_live. exact H.
  - destruct (recorders (plat w) !! r); [| exact H].
    apply (refs_live_same w); [reflexivity .. | | exact H]. right. split; reflexivity.
  - destruct (decide _); [| exact H].
    apply (refs_live_same w); [reflexivity .. | | exact H]. right. split; reflexivity.
Qed.

Lemma reachable_refs_live (w : World) : reachable w -> refs_live w.
Proof.
  revert w. apply RecorderFacts.reachable_invariant; [| apply step_refs_live].
  apply refs_live_intro; cbn; discriminate.
Qed.


(** **** One whole recording *)

Lemma set_chunks_same (w : World) :
  set_audioChunksRef (audioChunksRef (refs w)) w = w.
Proof. destruct w as [h r p]; destruct r. reflexivity. Qed.

Lemma run_app (w : World) (t1 t2 : list Action) :
  run w (t1 ++ t2) = run (run w t1) t2.
Proof. unfold run. apply fold_left_app. Qed.

Lemma run_data (r : nat) (datas : list (option Blob)) (w : World) :
  is_Some (recorders (plat w) !! r) ->
  run w (map (DataAvailable r) datas)
  = set_audioChunksRef (audioChunksRef (refs w) ++ kept_chunks datas) w.
Proof.
  revert w. induction datas as [| d datas IH]; intros w [rec Hrec].
  - cbn [map run fold_left kept_chunks]. rewrite app_nil_r.
    symmetry. apply set_chunks_same.
  - cbn [map]. change (run w (DataAvailable r d :: map (DataAvailable r) datas))
      with (run (step w (DataAvailable r d)) (map (DataAvailable r) datas)).
    cbn [step]. rewrite Hrec. unfold on_dataavailable.
    destruct d as [b |]; cbn [kept_chunks];
      [destruct (0 <? blob_size b)%nat |]; try (apply IH; eexists; exact Hrec).
    rewrite IH by (eexists; exact Hrec).
    change (audioChunksRef (refs (set_audioChunksRef (audioChunksRef (refs w) ++ [b]) w)))
      with (audioChunksRef (refs w) ++ [b]).
    rewrite <- app_assoc. reflexivity.
Qed.

Lemma kept_chunks_nonempty (datas : list (option Blob)) :
  Forall (fun b => (0 < blob_size b)%nat) (kept_chunks datas).
Proof.
  induction datas as [| [b |] datas IH]; cbn [kept_chunks]; [constructor | | exact IH].
  destruct (0 <? blob_size b)%nat eqn:E; [| exact IH].
  constructor; [apply Nat.ltb_lt; exact E | exact IH].
Qed.

Lemma stop_branch_finalized (mimeType : string) (w : World) :
  audioChunksRef (refs w) <> [] ->
  Forall (fun b => (0 < blob_size b)%nat) (audioChunksRef (refs w)) ->
  stop_branch mimeType w = Finalized.
Proof.
  intros Hne Hall. unfold stop_branch.
  destruct (audioChunksRef (refs w)) as [| b parts] eqn:E; [congruence |].
  assert (Hlen : (0 < blob_size (assembled mimeType w))%nat).
  { unfold assembled, blob_size, new_Blob. cbn [blob_bytes]. rewrite E.
    apply RecorderFacts.concat_nonempty; [exact Hall | discriminate]. }
  destruct (blob_size (assembled mimeType w) =? 0)%nat eqn:Z; [| reflexivity].
  apply Nat.eqb_eq in Z. lia.
Qed.

Lemma whole_session (t : Z) (datas : list (option Blob)) :
  kept_chunks datas <> [] ->
  let w := run init (session t datas) in
  hook w = {| recordingState := stopped; audioURL := Some 0%nat; error := None;
              duration := 0 |}
  /\ objectURLs (plat w) !! 0%nat
     = Some (new_Blob (kept_chunks datas) "audio/webm;codecs=opus")
  /\ liveStreams (plat w) = ∅
  /\ liveTimers (plat w) = ∅
  /\ streamRef (refs w) = None
  /\ durationIntervalRef (refs w) = None.
Proof.
  intros Hne. unfold session. rewrite !run_app.
  assert (E2 : exists w2, run init [CallStart true; Settle Granted (env_ok t)] = w2
     /\ hook w2 = {| recordingState := recording; audioURL := None; error := None;
                     duration := 0 |}
     /\ refs w2 = {| mediaRecorderRef := Some 0%nat; audioChunksRef := [];
                     streamRef := Some 0%nat; startTimeRef := t;
                     durationIntervalRef := Some 1%positive |}
     /\ liveStreams (plat w2) = {[0%nat]} ∪ ∅
     /\ liveTimers (plat w2) = {[1%positive]} ∪ ∅
     /\ objectURLs (plat w2) = ∅
     /\ nextURL (plat w2) = 0%nat
     /\ recorders (plat w2) !! 0%nat
        = Some {| mr_stream := 0; mr_mimeType := "audio/webm;codecs=opus";
                  mr_state := recording |}).
  { eexists. split; [reflexivity |]. repeat split; reflexivity. }
  destruct E2 as (w2 & -> & Hh2 & Hr2 & Hl2 & Ht2 & Ho2 & Hn2 & Hrec2).
  rewrite (run_data 0 datas w2) by (eexists; exact Hrec2).
  rewrite Hr2. cbn [audioChunksRef app].
  set (w3 := set_audioChunksRef (kept_chunks datas) w2).
  assert (Hh3 : hook w3 = hook w2) by reflexivity.
  assert (Hr3 : refs w3 = {| mediaRecorderRef := Some 0%nat;
                             audioChunksRef := kept_chunks datas;
                             streamRef := Some 0%nat; startTimeRef := t;
                             durationIntervalRef := Some 1%positive |})
    by (unfold w3; cbn [refs set_audioChunksRef with_refs]; rewrite Hr2; reflexivity).
  assert (Hp3 : plat w3 = plat w2) by reflexivity.
  clearbody w3.
  cbn [run fold_left step].
  pose proof (RecorderFacts.stopRecording_in_hook (recordingState (hook w3)) w3) as Hh4.
  pose proof (RecorderFacts.stopRecording_in_refs (recordingState (hook w3)) w3) as Hr4.
  pose proof (RecorderFacts.stopRecording_in_plat (recordingState (hook w3)) w3) as Hp4.
  fold (stopRecording w3) in Hh4, Hr4, Hp4.
  remember (stopRecording w3) as w4 eqn:E4. clear E4.
  assert (Hrec4 : recorders (plat w4) !! 0%nat
                  = Some {| mr_stream := 0; mr_mimeType := "audio/webm;codecs=opus";
                            mr_state := inactive |}).
  { rewrite Hp4. cbn [recorders]. unfold stopped_recorders.
    rewrite Hr3, Hh3, Hh2, Hp3. cbn [mediaRecorderRef recordingState].
    destruct (decide (recording = recording)); [| congruence].
    rewrite lookup_alter_eq, Hrec2. reflexivity. }
  rewrite Hrec4. cbn [mr_mimeType].
  assert (B : stop_branch "audio/webm;codecs=opus" w4 = Finalized).
  { apply stop_branch_finalized; rewrite Hr4, Hr3; cbn [audioChunksRef];
      [exact Hne | apply kept_chunks_nonempty]. }
  rewrite (on_stop_final_hook _ _ B), (on_stop_final_refs _ _ B),
    (on_stop_final_plat _ _ B).
  cbn [liveStreams liveTimers objectURLs streamRef durationIntervalRef].
  rewrite Hh4, Hr4, Hp4, Hh3, Hr3, Hp3, Hh2.
  cbn [error duration streamRef durationIntervalRef nextURL liveStreams liveTimers
       objectURLs].
  rewrite Hn2, Hl2, Ht2.
  split; [reflexivity |]. split.
  - rewrite lookup_insert_eq. unfold assembled. rewrite Hr4, Hr3. reflexivity.
  - split; [apply difference_union_fresh; apply not_elem_of_empty |].
    split; [apply difference_union_fresh; apply not_elem_of_empty |].
    split; reflexivity.
Qed.

End RecorderSessionFacts.

(** ** Further properties: the recorder hook *)

Section RecorderExtras.

Import Recorder RecorderSession.
Local Open Scope list_scope.

(** X1.  The negotiated mime type is the first entry of the preference
    list (opus in webm, webm, mp4) that the platform supports, and the
    empty string, which lets the browser choose, exactly when it supports
    none of them. *)
Theorem negotiate_mimeType_first_supported :
  forall supported : string -> bool,
    let m := negotiate_mimeType supported in
    (m = ""
     /\ Forall (fun x => supported x = false)
          ["audio/webm;codecs=opus"; "audio/webm"; "audio/mp4"])
    \/ (m <> "" /\ supported m = true
        /\ exists before after,
             ["audio/webm;codecs=opus"; "audio/webm"; "audio/mp4"]
             = before ++ m :: after
             /\ Forall (fun x => supported x = false) before).
Proof.
  intros supported. unfold negotiate_mimeType.
  destruct (supported "audio/webm;codecs=opus") eqn:E1.
  { right. split; [discriminate |]. split; [exact E1 |].
    exists [], ["audio/webm"; "audio/mp4"]. split; [reflexivity | constructor]. }
  destruct (supported "audio/webm") eqn:E2.
  { right. split; [discriminate |]. split; [exact E2 |].
    exists ["audio/webm;codecs=opus"], ["audio/mp4"].
    split; [reflexivity | repeat constructor; exact E1]. }
  destruct (supported "audio/mp4") eqn:E3.
  { right. split; [discriminate |]. split; [exact E3 |].
    exists ["audio/webm;codecs=opus"; "audio/webm"], [].
    split; [reflexivity | repeat constructor; assumption]. }
  left. split; [reflexivity | repeat constructor; assumption].
Qed.

(** X2.  When [getUserMedia] rejects, the continuation of
    [startRecording] opens no stream and creates no recorder: it reports
    the error, leaves the state [inactive] and [streamRef] empty.  The
    message always starts with "Could not access microphone. "; for an
    error named NotAllowedError, NotFoundError or NotSupportedError the
    rest is a fixed sentence and the error's own message is not shown. *)
Theorem rejected_acquisition_is_reported :
  forall (err : Thrown) (env : Env) (w : World),
    (0 < pendingAcquire (plat w))%nat ->
    let w' := startRecording_resume (Rejected err) env w in
    (recordingState (hook w') = inactive
     /\ error (hook w') = Some (errorMessage err)
     /\ streamRef (refs w') = None
     /\ liveStreams (plat w') ⊆ liveStreams (plat w)
     /\ nextStream (plat w') = nextStream (plat w)
     /\ recorders (plat w') = recorders (plat w)
     /\ liveTimers (plat w') = liveTimers (plat w)
     /\ pendingAcquire (plat w') = pred (pendingAcquire (plat w)))
    /\ (exists rest, errorMessage err = "Could not access microphone. " +:+ rest)
    /\ (forall message,
          errorMessage (ErrorObject "NotAllowedError" message)
          = "Could not access microphone. Please allow microphone access and try again."
          /\ errorMessage (ErrorObject "NotFoundError" message)
             = "Could not access microphone. No microphone found. Please connect a microphone and try again."
          /\ errorMessage (ErrorObject "NotSupportedError" message)
             = "Could not access microphone. Your browser does not support audio recording.").
Proof.
  intros err env w Hp w'. split; [| split].
  - unfold w', startRecording_resume.
    destruct (pendingAcquire (plat w)) as [| n]; [lia |].
    destruct (RecorderSessionFacts.catch_effect err (set_pendingAcquire n w))
      as (Hh & Hr & Hl & Ht & _ & Hc & Hn & Hpa).
    rewrite Hh, Hr, Hl, Ht, Hc, Hn, Hpa.
    cbn [recordingState error streamRef].
    repeat split; try reflexivity.
    change (match streamRef (refs w) with
            | Some s => liveStreams (plat w) ∖ {[s]}
            | None => liveStreams (plat w)
            end ⊆ liveStreams (plat w)).
    destruct (streamRef (refs w)); [apply RecorderFacts.difference_subseteq | reflexivity].
  - unfold errorMessage. eexists. reflexivity.
  - intros message. repeat split; reflexivity.
Qed.

Lemma rejected_acquisition_is_reported_witness :
  let w := startRecording_begin true init in
  let err := ErrorObject "NotAllowedError" "Permission denied" in
  (0 < pendingAcquire (plat w))%nat
  /\ error (hook (startRecording_resume (Rejected err) (env_ok 0) w))
     = Some "Could not access microphone. Please allow microphone access and try again.".
Proof.
  intros w err.
  assert (Hp : (0 < pendingAcquire (plat w))%nat) by (cbn; lia).
  split; [exact Hp |].
  destruct (rejected_acquisition_is_reported err (env_ok 0) w Hp)
    as ((_ & He & _) & _).
  exact He.
Defined.

(** X3.  When the continuation of [startRecording] fails after the
    stream was granted (no [MediaRecorder], a throwing constructor or a
    throwing [start]), the stream it has just acquired is stopped again:
    in every reachable state the live streams afterwards are exactly the
    ones live before, [streamRef] is empty, the state is [inactive], an
    error is reported and no timer was started. *)
Theorem failed_start_releases_its_stream :
  forall (env : Env) (w : World),
    reachable w ->
    (0 < pendingAcquire (plat w))%nat ->
    fails_after_grant env ->
    let w' := startRecording_resume Granted env w in
    recordingState (hook w') = inactive
    /\ is_Some (error (hook w'))
    /\ streamRef (refs w') = None
    /\ liveStreams (plat w') = liveStreams (plat w)
    /\ (nextStream (plat w) ∉ liveStreams (plat w'))
    /\ liveTimers (plat w') = liveTimers (plat w)
    /\ durationIntervalRef (refs w') = durationIntervalRef (refs w).
Proof.
  intros env w Hw Hp Hf w'.
  destruct (RecorderSessionFacts.resume_fails_after_grant env w Hp Hf)
    as (Hs & He & Hr & Hl & Ht & Hd).
  fold w' in Hs, He, Hr, Hl, Ht, Hd.
  assert (Hfresh : nextStream (plat w) ∉ liveStreams (plat w)).
  { intros Hin. apply (RecorderFacts.reachable_streams_below w Hw) in Hin. lia. }
  rewrite (RecorderSessionFacts.difference_union_fresh _ _ Hfresh) in Hl.
  repeat split; try assumption. rewrite Hl. exact Hfresh.
Qed.

Lemma failed_start_releases_its_stream_witness :
  let w := startRecording_begin true init in
  let env := {| hasMediaRecorder := false; isTypeSupported := fun _ => false;
                ctorThrows := None; startThrows := None; now := 0 |} in
  reachable w
  /\ (0 < pendingAcquire (plat w))%nat
  /\ fails_after_grant env
  /\ liveStreams (plat (startRecording_resume Granted env w)) = liveStreams (plat w)
  /\ streamRef (refs (startRecording_resume Granted env w)) = None.
Proof.
  intros w env.
  assert (Hw : reachable w) by (exists [CallStart true]; reflexivity).
  assert (Hp : (0 < pendingAcquire (plat w))%nat) by (cbn; lia).
  assert (Hf : fails_after_grant env) by (left; reflexivity).
  destruct (failed_start_releases_its_stream env w Hw Hp Hf)
    as (_ & _ & Hr & Hl & _).
  repeat split; assumption.
Defined.

(** X4.  When the ['stop'] listener finds a non-empty recording it
    publishes a fresh object URL for a blob whose bytes are the buffered
    chunks concatenated in capture order, of positive size and with a
    non-empty type label (the negotiated type, or audio/wav).  The state
    becomes [stopped], the timer held in [durationIntervalRef] is cleared
    and the stream held in [streamRef] is stopped, and both references are
    emptied. *)
Theorem finalized_recording_yields_artifact :
  forall (mimeType : string) (w : World),
    stop_branch mimeType w = Finalized ->
    let w' := on_stop mimeType w in
    let u := nextURL (plat w) in
    audioURL (hook w') = Some u
    /\ objectURLs (plat w') !! u = Some (assembled mimeType w)
    /\ blob_bytes (assembled mimeType w)
       = concat (map blob_bytes (audioChunksRef (refs w)))
    /\ blob_type (assembled mimeType w) <> ""
    /\ (0 < blob_size (assembled mimeType w))%nat
    /\ recordingState (hook w') = stopped
    /\ error (hook w') = error (hook w)
    /\ streamRef (refs w') = None
    /\ durationIntervalRef (refs w') = None
    /\ (forall s, streamRef (refs w) = Some s -> s ∉ liveStreams (plat w'))
    /\ (forall t, durationIntervalRef (refs w) = Some t ->
                  t ∉ liveTimers (plat w')).
Proof.
  intros mimeType w B w' u. unfold w', u.
  rewrite (RecorderSessionFacts.on_stop_final_hook _ _ B),
    (RecorderSessionFacts.on_stop_final_refs _ _ B),
    (RecorderSessionFacts.on_stop_final_plat _ _ B).
  cbn [audioURL objectURLs recordingState error streamRef durationIntervalRef
       liveStreams liveTimers].
  split; [reflexivity |]. split; [apply lookup_insert_eq |].
  split; [reflexivity |]. split.
  { unfold assembled, new_Blob. cbn [blob_type].
    destruct (String.eqb mimeType "") eqn:E; [discriminate |].
    apply String.eqb_neq in E. exact E. }
  split.
  { unfold stop_branch in B. destruct (audioChunksRef (refs w)); [discriminate |].
    destruct (blob_size (assembled mimeType w) =? 0)%nat eqn:Z; [discriminate |].
    apply Nat.eqb_neq in Z. lia. }
  repeat split; try reflexivity.
  - intros s ->. intros Hin. apply elem_of_difference in Hin.
    destruct Hin as [_ Hn]. apply Hn. apply elem_of_singleton. reflexivity.
  - intros t ->. intros Hin. apply elem_of_difference in Hin.
    destruct Hin as [_ Hn]. apply Hn. apply elem_of_singleton. reflexivity.
Qed.

Lemma finalized_recording_yields_artifact_witness :
  let chunk := {| blob_bytes := [Byte.x01; Byte.x02]; blob_type := "audio/webm" |} in
  let w := run init [CallStart true; Settle Granted (env_ok 0);
                     DataAvailable 0 (Some chunk); DataAvailable 0 (Some chunk);
                     DataAvailable 0 (Some chunk); CallStop] in
  stop_branch "audio/webm;codecs=opus" w = Finalized
  /\ audioURL (hook (on_stop "audio/webm;codecs=opus" w)) = Some 0%nat
  /\ blob_size (assembled "audio/webm;codecs=opus" w) = 6%nat
  /\ recordingState (hook (on_stop "audio/webm;codecs=opus" w)) = stopped.
Proof.
  intros chunk w.
  assert (B : stop_branch "audio/webm;codecs=opus" w = Finalized) by reflexivity.
  destruct (finalized_recording_yields_artifact _ w B)
    as (Hu & _ & _ & _ & _ & Hs & _).
  split; [exact B |]. split; [exact Hu |]. split; [reflexivity | exact Hs].
Defined.

(** X5.  In every reachable state the hook's references point at
    resources that still exist: the stream in [streamRef] has live tracks,
    the timer in [durationIntervalRef] is still firing, the recorder in
    [mediaRecorderRef] exists, and the URL in [audioURL] has not been
    revoked. *)
Theorem references_stay_live :
  forall w : World,
    reachable w ->
    (forall s, streamRef (refs w) = Some s -> s ∈ liveStreams (plat w))
    /\ (forall t, durationIntervalRef (refs w) = Some t ->
                  t ∈ liveTimers (plat w))
    /\ (forall r, mediaRecorderRef (refs w) = Some r ->
                  is_Some (recorders (plat w) !! r))
    /\ (forall u, audioURL (hook w) = Some u ->
                  is_Some (objectURLs (plat w) !! u)).
Proof. exact RecorderSessionFacts.reachable_refs_live. Qed.

Lemma references_stay_live_witness :
  let w := run init [CallStart true; Settle Granted (env_ok 0)] in
  reachable w
  /\ streamRef (refs w) = Some 0%nat
  /\ 0%nat ∈ liveStreams (plat w)
  /\ durationIntervalRef (refs w) = Some 1%positive
  /\ 1%positive ∈ liveTimers (plat w).
Proof.
  intros w.
  assert (Hw : reachable w) by (eexists; reflexivity).
  destruct (references_stay_live w Hw) as (Hs & Ht & _).
  split; [exact Hw |]. split; [reflexivity |].
  split; [apply Hs; reflexivity |]. split; [reflexivity |].
  apply Ht. reflexivity.
Defined.

(** X6.  [resetRecording], from any state, leaves the hook as a freshly
    mounted one shows it (inactive, no URL, no error, duration 0) with an
    empty chunk buffer and empty [streamRef] and [durationIntervalRef];
    the stream and the timer those references held are stopped, the URL
    the hook showed is revoked, a recorder that was recording is made
    inactive, and nothing else is opened. *)
Theorem reset_returns_to_idle :
  forall w : World,
    let w' := resetRecording w in
    hook w' = hook init
    /\ audioChunksRef (refs w') = []
    /\ streamRef (refs w') = None
    /\ durationIntervalRef (refs w') = None
    /\ (forall s, streamRef (refs w) = Some s -> s ∉ liveStreams (plat w'))
    /\ (forall t, durationIntervalRef (refs w) = Some t ->
                  t ∉ liveTimers (plat w'))
    /\ (forall u, audioURL (hook w) = Some u -> objectURLs (plat w') !! u = None)
    /\ (forall r rec,
          recordingState (hook w) = recording ->
          mediaRecorderRef (refs w) = Some r ->
          recorders (plat w) !! r = Some rec ->
          mr_state <$> recorders (plat w') !! r = Some inactive)
    /\ liveStreams (plat w') ⊆ liveStreams (plat w)
    /\ liveTimers (plat w') ⊆ liveTimers (plat w)
    /\ nextStream (plat w') = nextStream (plat w).
Proof.
  intros w w'. unfold w', resetRecording.
  rewrite RecorderFacts.resetRecording_in_hook, RecorderFacts.resetRecording_in_refs,
    RecorderFacts.resetRecording_in_plat.
  cbn [audioChunksRef streamRef durationIntervalRef liveStreams liveTimers
       objectURLs recorders nextStream].
  repeat split; try reflexivity.
  - intros s ->. intros Hin. apply elem_of_difference in Hin.
    destruct Hin as [_ Hn]. apply Hn. apply elem_of_singleton. reflexivity.
  - intros t ->. intros Hin. apply elem_of_difference in Hin.
    destruct Hin as [_ Hn]. apply Hn. apply elem_of_singleton. reflexivity.
  - intros u ->. apply lookup_delete_eq.
  - intros r rec Hs Hr Hrec. unfold stopped_recorders. rewrite Hr, Hs.
    destruct (decide (recording = recording)); [| congruence].
    rewrite lookup_alter_eq, Hrec. cbn. unfold inactivate.
    destruct (mr_state rec) eqn:E; cbn; [rewrite E |..]; reflexivity.
  - destruct (streamRef (refs w)); [apply RecorderFacts.difference_subseteq | reflexivity].
  - destruct (durationIntervalRef (refs w)); [| reflexivity].
    intros x Hx. apply elem_of_difference in Hx. tauto.
Qed.

Lemma reset_returns_to_idle_witness :
  let w := run init [CallStart true; Settle Granted (env_ok 0)] in
  streamRef (refs w) = Some 0%nat
  /\ (0%nat ∉ liveStreams (plat (resetRecording w)))
  /\ durationIntervalRef (refs w) = Some 1%positive
  /\ (1%positive ∉ liveTimers (plat (resetRecording w)))
  /\ recordingState (hook (resetRecording w)) = inactive.
Proof.
  intros w.
  destruct (reset_returns_to_idle w) as (Hh & _ & _ & _ & Hs & Ht & _).
  split; [reflexivity |]. split; [apply Hs; reflexivity |].
  split; [reflexivity |]. split; [apply Ht; reflexivity |].
  rewrite Hh. reflexivity.
Defined.

(** X7.  [stopRecording] never touches the hook's state or references,
    the streams, the timers or the URLs.  When the state is not
    [recording], or no recorder was ever created, it does nothing at all;
    otherwise it makes the current recorder inactive, and the state only
    changes once that recorder's [stop] event arrives. *)
Theorem stopRecording_only_stops_the_recorder :
  forall w : World,
    hook (stopRecording w) = hook w
    /\ refs (stopRecording w) = refs w
    /\ liveStreams (plat (stopRecording w)) = liveStreams (plat w)
    /\ liveTimers (plat (stopRecording w)) = liveTimers (plat w)
    /\ objectURLs (plat (stopRecording w)) = objectURLs (plat w)
    /\ (recordingState (hook w) <> recording -> stopRecording w = w)
    /\ (mediaRecorderRef (refs w) = None -> stopRecording w = w)
    /\ (forall r rec,
          recordingState (hook w) = recording ->
          mediaRecorderRef (refs w) = Some r ->
          recorders (plat w) !! r = Some rec ->
          recorders (plat (stopRecording w)) !! r
          = Some {| mr_stream := mr_stream rec; mr_mimeType := mr_mimeType rec;
                    mr_state := inactive |}).
Proof.
  intros w. unfold stopRecording.
  rewrite RecorderFacts.stopRecording_in_hook, RecorderFacts.stopRecording_in_refs,
    RecorderFacts.stopRecording_in_plat.
  cbn [liveStreams liveTimers objectURLs recorders].
  repeat split; try reflexivity.
  - intros Hn. unfold stopRecording_in.
    destruct (mediaRecorderRef (refs w)); [| reflexivity].
    destruct (decide _); [contradiction | reflexivity].
  - intros Hn. unfold stopRecording_in. rewrite Hn. reflexivity.
  - intros r rec Hs Hr Hrec. unfold stopped_recorders. rewrite Hr, Hs.
    destruct (decide (recording = recording)); [| congruence].
    rewrite lookup_alter_eq, Hrec. cbn. unfold inactivate.
    destruct rec as [s m st]. destruct st; reflexivity.
Qed.

Lemma stopRecording_only_stops_the_recorder_witness :
  let w := run init [CallStart true; Settle Granted (env_ok 0)] in
  recordingState (hook w) = recording
  /\ mr_state <$> recorders (plat (stopRecording w)) !! 0%nat = Some inactive
  /\ recordingState (hook init) <> recording
  /\ stopRecording init = init.
Proof.
  intros w.
  destruct (stopRecording_only_stops_the_recorder w) as (_ & _ & _ & _ & _ & _ & _ & H).
  destruct (stopRecording_only_stops_the_recorder init) as (_ & _ & _ & _ & _ & H0 & _).
  assert (N : recordingState (hook init) <> recording) by discriminate.
  split; [reflexivity |]. split.
  - rewrite (H 0%nat {| mr_stream := 0; mr_mimeType := "audio/webm;codecs=opus";
                         mr_state := recording |} eq_refl eq_refl eq_refl).
    reflexivity.
  - split; [exact N | exact (H0 N)].
Defined.

(** X8.  The interval callback sets [duration] to the whole number of
    seconds elapsed since the recording started, rounding down, and
    touches nothing else; the value is never negative once the clock has
    reached the start time, and it never decreases as the clock
    advances. *)
Theorem tick_counts_whole_seconds :
  forall (w : World) (now : Z),
    let d := duration (hook (on_tick now w)) in
    1000 * d <= now - startTimeRef (refs w) < 1000 * d + 1000
    /\ (startTimeRef (refs w) <= now -> 0 <= d)
    /\ (forall later, now <= later -> d <= duration (hook (on_tick later w)))
    /\ recordingState (hook (on_tick now w)) = recordingState (hook w)
    /\ audioURL (hook (on_tick now w)) = audioURL (hook w)
    /\ error (hook (on_tick now w)) = error (hook w)
    /\ refs (on_tick now w) = refs w
    /\ plat (on_tick now w) = plat w.
Proof.
  intros w now d. unfold d, on_tick.
  cbn [hook duration setDuration with_hook].
  set (e := now - startTimeRef (refs w)).
  pose proof (Z.div_mod e 1000 ltac:(lia)) as Hdm.
  pose proof (Z.mod_pos_bound e 1000 ltac:(lia)) as Hb.
  split; [lia |]. split; [intros Hle; apply Z.div_pos; lia |].
  split; [intros later Hl; apply Z.div_le_mono; lia |].
  repeat split; reflexivity.
Qed.

Lemma tick_counts_whole_seconds_witness :
  let w := run init [CallStart true; Settle Granted (env_ok 1000)] in
  startTimeRef (refs w) <= 3999
  /\ duration (hook (on_tick 3999 w)) = 2
  /\ (3999 <= 4000 -> duration (hook (on_tick 3999 w))
                      <= duration (hook (on_tick 4000 w))).
Proof.
  intros w.
  destruct (tick_counts_whole_seconds w 3999) as (_ & _ & Hm & _).
  split; [cbn; lia |]. split; [reflexivity |].
  intros H. exact (Hm 4000 H).
Defined.

(** X9.  One whole recording on a fresh hook: start, grant on a working
    platform, any sequence of data events of which at least one carries
    bytes, stop, and the recorder's [stop] event.  It ends in state
    [stopped] with no error, the published blob is exactly the non-empty
    chunks concatenated in arrival order, and nothing is left behind: no
    stream is live and no timer is firing. *)
Theorem whole_session_yields_chunks_and_releases :
  forall (t : Z) (datas : list (option Blob)),
    kept_chunks datas <> [] ->
    let w := run init (session t datas) in
    hook w = {| recordingState := stopped; audioURL := Some 0%nat;
                error := None; duration := 0 |}
    /\ objectURLs (plat w) !! 0%nat
       = Some (new_Blob (kept_chunks datas) "audio/webm;codecs=opus")
    /\ liveStreams (plat w) = ∅
    /\ liveTimers (plat w) = ∅
    /\ streamRef (refs w) = None
    /\ durationIntervalRef (refs w) = None.
Proof. exact RecorderSessionFacts.whole_session. Qed.

Lemma whole_session_yields_chunks_and_releases_witness :
  let a := {| blob_bytes := [Byte.x01]; blob_type := "" |} in
  let e := {| blob_bytes := []; blob_type := "" |} in
  let b := {| blob_bytes := [Byte.x02; Byte.x03]; blob_type := "" |} in
  let datas := [Some a; Some e; None; Some b] in
  kept_chunks datas <> []
  /\ kept_chunks datas = [a; b]
  /\ liveStreams (plat (run init (session 0 datas))) = ∅
  /\ blob_bytes <$> objectURLs (plat (run init (session 0 datas))) !! 0%nat
     = Some [Byte.x01; Byte.x02; Byte.x03].
Proof.
  intros a e b datas.
  assert (Hne : kept_chunks datas <> []) by discriminate.
  destruct (whole_session_yields_chunks_and_releases 0 datas Hne)
    as (_ & Ho & Hl & _).
  split; [exact Hne |]. split; [reflexivity |]. split; [exact Hl |].
  rewrite Ho. reflexivity.
Defined.

End RecorderExtras.

(** ** The live hook and its client, beyond the claims *)

Module LiveSessionFacts.

Import Deepgram LiveSession.
Local Open Scope list_scope.

Lemma append_assoc (a b c : string) : (a +:+ b) +:+ c = a +:+ (b +:+ c).
Proof.
  induction a as [| x a IH]; [reflexivity |].
  change (String x ((a +:+ b) +:+ c) = String x (a +:+ (b +:+ c))).
  rewrite IH. reflexivity.
Qed.

Lemma append_empty_r (a : string) : a +:+ "" = a.
Proof.
  induction a as [| x a IH]; [reflexivity |].
  change (String x (a +:+ "") = String x a). rewrite IH. reflexivity.
Qed.

(** **** Frames on an open channel *)

Lemma set_sent_same (w : World) : set_sent (sent (plat w)) w = w.
Proof. destruct w as [h r c p]; destruct p. reflexivity. Qed.

Lemma send_all_open (frames : list (list Z)) (w : World) (k : nat) :
  connection (client w) = Some k ->
  client_isConnected (client w) = true ->
  send_all frames w
  = set_sent (sent (plat w) ++ map (fun frame => (k, frame)) frames) w.
Proof.
  revert w. induction frames as [| frame frames IH]; intros w Hk Hc.
  - cbn [send_all fold_left map]. rewrite app_nil_r. symmetry. apply set_sent_same.
  - unfold send_all. cbn [fold_left]. fold (send_all frames (sendAudio frame w)).
    assert (E : sendAudio frame w = set_sent (sent (plat w) ++ [(k, frame)]) w).
    { unfold sendAudio. rewrite Hk, Hc. reflexivity. }
    rewrite E, IH by assumption.
    change (sent (plat (set_sent (sent (plat w) ++ [(k, frame)]) w)))
      with (sent (plat w) ++ [(k, frame)]).
    cbn [map]. rewrite <- List.app_assoc. reflexivity.
Qed.

(** **** Every converted sample is a 16-bit value *)

Lemma float32_to_int16_range (x : Pcm.number) :
  -32768 <= Pcm.float32_to_int16 x <= 32767.
Proof.
  destruct x as [q | | |].
  - rewrite PcmFacts.code_refines_spec. apply PcmFacts.quantize_spec_range.
  - vm_compute. split; discriminate.
  - vm_compute. split; discriminate.
  - vm_compute. split; discriminate.
Qed.

Lemma convert_frame_int16 (inputData : list Pcm.number) :
  int16_frame (Pcm.convert_frame inputData).
Proof.
  unfold int16_frame, Pcm.convert_frame.
  induction inputData as [| x rest IH]; cbn [map]; constructor;
    [apply float32_to_int16_range | exact IH].
Qed.

Lemma sent_same_int16 (w w' : World) :
  sent (plat w') = sent (plat w) -> sent_int16 w -> sent_int16 w'.
Proof. unfold sent_int16. intros ->. auto. Qed.

Lemma resume_sent (res : AcquireResult) (env : Env) (w : World) :
  sent (plat (startListening_resume res env w)) = sent (plat w).
Proof.
  unfold startListening_resume.
  destruct (pendingAcquire (plat w)); [reflexivity |].
  destruct res; [| reflexivity].
  destruct (contextThrows env); [reflexivity |].
  destruct (liveThrows env); reflexivity.
Qed.

Lemma step_sent_int16 (w : World) (a : Action) :
  sent_int16 w -> sent_int16 (step w a).
Proof.
  intros H. destruct a; cbn [step].
  - apply (sent_same_int16 w); [| exact H].
    unfold startListening_begin. destruct throws; reflexivity.
  - apply (sent_same_int16 w); [apply resume_sent | exact H].
  - apply (sent_same_int16 w); [| exact H].
    rewrite DeepgramFacts.stopListening_plat. reflexivity.
  - apply (sent_same_int16 w); [reflexivity | exact H].
  - destruct (created k w); [| exact H]. apply (sent_same_int16 w); [reflexivity | exact H].
  - destruct (created k w); [| exact H]. apply (sent_same_int16 w); [reflexivity | exact H].
  - destruct (created k w); [| exact H]. apply (sent_same_int16 w); [reflexivity | exact H].
  - destruct (created k w); [| exact H]. unfold on_Transcript.
    destruct (to_result data) as [result |]; [| exact H].
    apply (sent_same_int16 w); [| exact H].
    unfold onTranscript. destruct (is_final result), (res_words result); reflexivity.
  - destruct (decide _); [| exact H]. unfold onaudioprocess, sendAudio.
    destruct (isConnectionActive w); [| exact H].
    destruct (connection (client w)) as [k |];
      [| apply (sent_same_int16 w); [reflexivity | exact H]].
    destruct (client_isConnected (client w));
      [| apply (sent_same_int16 w); [reflexivity | exact H]].
    unfold sent_int16.
    change (sent (plat (set_sent (sent (plat w) ++ [(k, Pcm.convert_frame inputData)]) w)))
      with (sent (plat w) ++ [(k, Pcm.convert_frame inputData)]).
    apply Forall_app. split; [exact H |].
    constructor; [apply convert_frame_int16 | constructor].
Qed.

Lemma reachable_sent_int16 (w : World) : reachable w -> sent_int16 w.
Proof.
  revert w. apply DeepgramFacts.live_reachable_invariant; [| apply step_sent_int16].
  constructor.
Qed.


(** **** Runs of transcript events *)

Lemma deliver_cons (r : TranscriptionResult) (results : list TranscriptionResult)
    (w : World) :
  deliver (r :: results) w = deliver results (onTranscript r w).
Proof. reflexivity. Qed.

Lemma deliver_snoc (results : list TranscriptionResult) (r : TranscriptionResult)
    (w : World) :
  deliver (results ++ [r]) w = onTranscript r (deliver results w).
Proof. unfold deliver. rewrite fold_left_app. reflexivity. Qed.

Lemma onTranscript_texts (r : TranscriptionResult) (w : World) :
  finalTranscript (hook (onTranscript r w))
  = finalTranscript (hook w) +:+ (if is_final r then " " +:+ res_transcript r else "")
  /\ transcript (hook (onTranscript r w))
     = transcript (hook w) +:+ (if is_final r then " " +:+ res_transcript r else "")
  /\ interimTranscript (hook (onTranscript r w))
     = (if is_final r then "" else res_transcript r)
  /\ confidence (hook (onTranscript r w)) = res_confidence r
  /\ words (hook (onTranscript r w)) = default (words (hook w)) (res_words r).
Proof.
  unfold onTranscript.
  destruct (is_final r), (res_words r); cbn [default];
    rewrite ?append_empty_r; repeat split; try reflexivity;
    symmetry; apply append_empty_r.
Qed.

Lemma deliver_texts (results : list TranscriptionResult) (w : World) :
  finalTranscript (hook (deliver results w))
  = finalTranscript (hook w) +:+ appended results
  /\ transcript (hook (deliver results w))
     = transcript (hook w) +:+ appended results.
Proof.
  revert w. induction results as [| r results IH]; intros w.
  - cbn [deliver fold_left appended]. rewrite !append_empty_r. split; reflexivity.
  - rewrite deliver_cons. destruct (IH (onTranscript r w)) as [Hf Ht].
    destruct (onTranscript_texts r w) as (Ef & Et & _).
    rewrite Hf, Ht, Ef, Et. cbn [appended]. rewrite !append_assoc.
    split; reflexivity.
Qed.

(** **** [transcript] and [finalTranscript] move together *)

Lemma step_texts_equal (w : World) (a : Action) :
  transcript (hook w) = finalTranscript (hook w) ->
  transcript (hook (step w a)) = finalTranscript (hook (step w a)).
Proof.
  intros H.
  assert (Hsame : forall w0, transcript (hook w0) = transcript (hook w) ->
                    finalTranscript (hook w0) = finalTranscript (hook w) ->
                    transcript (hook w0) = finalTranscript (hook w0))
    by (intros w0 -> ->; exact H).
  destruct a; cbn [step].
  - unfold startListening_begin. destruct throws; apply Hsame; reflexivity.
  - apply Hsame; [| apply DeepgramFacts.resume_final].
    unfold startListening_resume.
    destruct (pendingAcquire (plat w)); [reflexivity |].
    destruct res; [| reflexivity].
    destruct (contextThrows env); [reflexivity |].
    destruct (liveThrows env); reflexivity.
  - rewrite DeepgramFacts.stopListening_hook. exact H.
  - reflexivity.
  - destruct (created k w); [apply Hsame; reflexivity | exact H].
  - destruct (created k w); [apply Hsame; reflexivity | exact H].
  - destruct (created k w); [apply Hsame; reflexivity | exact H].
  - destruct (created k w); [| exact H]. unfold on_Transcript.
    destruct (to_result data) as [r |]; [| exact H].
    destruct (onTranscript_texts r w) as (Ef & Et & _). rewrite Ef, Et, H.
    reflexivity.
  - destruct (decide _); [| exact H].
    destruct (DeepgramFacts.onaudioprocess_hook inputData w) as [-> _]. exact H.
Qed.

(** **** The values [connectionState] takes *)

Lemma step_state_known (w : World) (a : Action) :
  state_known w -> state_known (step w a).
Proof.
  unfold state_known. intros H.
  assert (Hsame : forall w0, connectionState (hook w0) = connectionState (hook w) ->
                    connectionState (hook w0) = None
                    \/ connectionState (hook w0) = Some OPEN
                    \/ connectionState (hook w0) = Some CLOSED)
    by (intros w0 ->; exact H).
  destruct a; cbn [step].
  - unfold startListening_begin. destruct throws; apply Hsame; reflexivity.
  - apply Hsame. apply (DeepgramFacts.resume_sync res env w).
  - left. rewrite DeepgramFacts.stopListening_hook. reflexivity.
  - apply Hsame. reflexivity.
  - destruct (created k w); [right; left; reflexivity | exact H].
  - destruct (created k w); [right; right; reflexivity | exact H].
  - destruct (created k w); [apply Hsame; reflexivity | exact H].
  - destruct (created k w); [| exact H]. unfold on_Transcript.
    destruct (to_result data) as [r |]; [| exact H].
    apply Hsame. unfold onTranscript.
    destruct (is_final r), (res_words r); reflexivity.
  - destruct (decide _); [| exact H].
    destruct (DeepgramFacts.onaudioprocess_hook inputData w) as [-> _]. exact H.
Qed.

(** **** Reset in live mode *)

Lemma clearTranscript_hook (w : World) :
  hook (clearTranscript w)
  = {| transcript := ""; interimTranscript := ""; finalTranscript := "";
       confidence := 0%Q; isConnected := isConnected (hook w);
       isListening := isListening (hook w); error := None;
       connectionState := connectionState (hook w); words := [] |}.
Proof. destruct w as [h r c p]; destruct h. reflexivity. Qed.

Lemma clearTranscript_rest (w : World) :
  refs (clearTranscript w) = refs w
  /\ client (clearTranscript w) = client w
  /\ plat (clearTranscript w) = plat w.
Proof. repeat split; reflexivity. Qed.

Lemma clear_stop_commute (w : World) :
  clearTranscript (stopListening w) = stopListening (clearTranscript w).
Proof.
  destruct (clearTranscript_rest w) as (Er & Ec & Ep).
  destruct (clearTranscript_rest (stopListening w)) as (Er' & Ec' & Ep').
  apply DeepgramFacts.live_world_ext.
  - rewrite clearTranscript_hook, !DeepgramFacts.stopListening_hook,
      clearTranscript_hook. reflexivity.
  - rewrite Er', !DeepgramFacts.stopListening_refs. reflexivity.
  - rewrite Ec', !DeepgramFacts.stopListening_client, Ec. reflexivity.
  - rewrite Ep', !DeepgramFacts.stopListening_plat, Er, Ec, Ep. reflexivity.
Qed.

Lemma handleReset_live_hook (w : World) :
  hook (handleReset_live w) = hook init /\ refs (handleReset_live w) = refs init.
Proof.
  unfold handleReset_live.
  destruct (clearTranscript_rest (stopListening w)) as (Er' & _).
  rewrite clearTranscript_hook, Er', DeepgramFacts.stopListening_hook,
    DeepgramFacts.stopListening_refs.
  split; reflexivity.
Qed.


(** **** References point at live resources *)

Lemma live_refs_same (w w0 : World) :
  refs w0 = refs w ->
  connection (client w0) = connection (client w) ->
  liveStreams (plat w0) = liveStreams (plat w) ->
  openContexts (plat w0) = openContexts (plat w) ->
  wiredProcessors (plat w0) = wiredProcessors (plat w) ->
  nextConnection (plat w0) = nextConnection (plat w) ->
  refs_live w -> refs_live w0.
Proof.
  unfold refs_live. intros -> -> -> -> -> ->. auto.
Qed.

Lemma elem_of_union_singleton `{Countable A} (x : A) (X : gset A) : x ∈ {[x]} ∪ X.
Proof. apply elem_of_union_l. apply elem_of_singleton. reflexivity. Qed.

Lemma live_resume_refs_live (res : AcquireResult) (env : Env) (w : World) :
  refs_live w -> refs_live (startListening_resume res env w).
Proof.
  intros H. unfold startListening_resume.
  destruct (pendingAcquire (plat w)) as [| n]; [exact H |].
  destruct res; [| apply (live_refs_same w); [reflexivity .. | exact H]].
  destruct H as (Hs & Hc & Hp & Hk).
  destruct (contextThrows env).
  { repeat split.
    - intros s E. injection E as <-. apply elem_of_union_singleton.
    - exact Hc.
    - exact Hp.
    - exact Hk. }
  destruct (liveThrows env).
  { repeat split.
    - intros s E. injection E as <-. apply elem_of_union_singleton.
    - intros c E. injection E as <-. apply elem_of_union_singleton.
    - intros p E. injection E as <-. apply elem_of_union_singleton.
    - exact Hk. }
  repeat split.
  - intros s E. injection E as <-. apply elem_of_union_singleton.
  - intros c E. injection E as <-. apply elem_of_union_singleton.
  - intros p E. injection E as <-. apply elem_of_union_singleton.
  - intros k E. injection E as <-.
    change (nextConnection (plat w) < S (nextConnection (plat w)))%nat. lia.
Qed.

Lemma live_step_refs_live (w : World) (a : Action) :
  refs_live w -> refs_live (step w a).
Proof.
  intros H. destruct a; cbn [step].
  - unfold startListening_begin.
    destruct throws; apply (live_refs_same w); try reflexivity; exact H.
  - apply live_resume_refs_live. exact H.
  - destruct H as (_ & _ & _ & Hk). unfold refs_live.
    rewrite DeepgramFacts.stopListening_refs, DeepgramFacts.stopListening_client,
      DeepgramFacts.stopListening_plat.
    cbn [streamRef audioContextRef processorRef connection nextConnection].
    repeat split; try discriminate. exact Hk.
  - apply (live_refs_same w); try reflexivity; exact H.
  - destruct (created k w); [apply (live_refs_same w); try reflexivity |]; exact H.
  - destruct (created k w); [apply (live_refs_same w); try reflexivity |]; exact H.
  - destruct (created k w); [apply (live_refs_same w); try reflexivity |]; exact H.
  - destruct (created k w); [| exact H]. unfold on_Transcript.
    destruct (to_result data) as [r |]; [| exact H].
    unfold onTranscript.
    destruct (is_final r), (res_words r);
      apply (live_refs_same w); try reflexivity; exact H.
  - destruct (decide _); [| exact H]. unfold onaudioprocess, sendAudio.
    destruct (isConnectionActive w); [| exact H].
    destruct (connection (client w)) eqn:Ek;
      [destruct (client_isConnected (client w)) |];
      (apply (live_refs_same w); [reflexivity | | reflexivity .. | exact H]);
      cbn [client console_warn set_sent set_warnings with_plat connection];
      rewrite Ek; reflexivity.
Qed.

Lemma live_reachable_refs_live (w : World) : reachable w -> refs_live w.
Proof.
  revert w. apply DeepgramFacts.live_reachable_invariant; [| apply live_step_refs_live].
  repeat split; cbn; discriminate.
Qed.

(** **** A start that fails after the grant *)

Lemma live_resume_fails (env : Env) (w : World) :
  (0 < pendingAcquire (plat w))%nat ->
  is_Some (contextThrows env) \/ is_Some (liveThrows env) ->
  let w' := startListening_resume Granted env w in
  isListening (hook w') = false
  /\ is_Some (error (hook w'))
  /\ streamRef (refs w') = Some (nextStream (plat w))
  /\ liveStreams (plat w') = {[nextStream (plat w)]} ∪ liveStreams (plat w)
  /\ client w' = client w
  /\ nextConnection (plat w') = nextConnection (plat w).
Proof.
  intros Hp Hf. unfold startListening_resume.
  destruct (pendingAcquire (plat w)) as [| n]; [lia |].
  destruct (contextThrows env) as [e1 |] eqn:E1.
  { repeat split; try reflexivity. eexists; reflexivity. }
  destruct (liveThrows env) as [e2 |] eqn:E2.
  { repeat split; try reflexivity. eexists; reflexivity. }
  exfalso. destruct Hf as [[x Hx] | [x Hx]]; discriminate.
Qed.

Lemma clearTranscript_idem (w : World) :
  clearTranscript (clearTranscript w) = clearTranscript w.
Proof.
  destruct (clearTranscript_rest (clearTranscript w)) as (Er & Ec & Ep).
  apply DeepgramFacts.live_world_ext; [| assumption ..].
  rewrite (clearTranscript_hook (clearTranscript w)), clearTranscript_hook.
  reflexivity.
Qed.

End LiveSessionFacts.

(** ** Further properties: the live hook and its client *)

Section LiveExtras.

Import Deepgram LiveSession.
Local Open Scope list_scope.

(** X10.  While a channel exists and the client believes it connected,
    a sequence of [sendAudio] calls hands every frame to that channel, in
    call order, with nothing dropped, nothing reordered and no warning;
    nothing else in the state changes. *)
Theorem frames_sent_in_order_while_open :
  forall (frames : list (list Z)) (w : World) (k : nat),
    connection (client w) = Some k ->
    client_isConnected (client w) = true ->
    send_all frames w
    = set_sent (sent (plat w) ++ map (fun frame => (k, frame)) frames) w
    /\ sent (plat (send_all frames w))
       = sent (plat w) ++ map (fun frame => (k, frame)) frames
    /\ warnings (plat (send_all frames w)) = warnings (plat w).
Proof.
  intros frames w k Hk Hc.
  pose proof (LiveSessionFacts.send_all_open frames w k Hk Hc) as E.
  split; [exact E |]. rewrite E. split; reflexivity.
Qed.

Lemma frames_sent_in_order_while_open_witness :
  let w := run init [CallStartListening None; Settle Granted env_ok; Open 0] in
  connection (client w) = Some 0%nat
  /\ client_isConnected (client w) = true
  /\ sent (plat (send_all [[1; 2]; [3]] w)) = [(0%nat, [1; 2]); (0%nat, [3])].
Proof.
  intros w.
  assert (Hk : connection (client w) = Some 0%nat) by reflexivity.
  assert (Hc : client_isConnected (client w) = true) by reflexivity.
  destruct (frames_sent_in_order_while_open [[1; 2]; [3]] w 0%nat Hk Hc)
    as (_ & Hs & _).
  split; [exact Hk |]. split; [exact Hc |]. rewrite Hs. reflexivity.
Defined.

(** X11.  The audio callback converts a frame sample by sample: the
    converted frame has as many samples as the input, and every one of
    them lies in the 16-bit signed range, whatever the input holds
    (infinities and NaN included).  Hence in every reachable state every
    frame ever handed to a channel is a frame of 16-bit samples. *)
Theorem sent_frames_hold_int16_samples :
  (forall inputData : list Pcm.number,
     length (Pcm.convert_frame inputData) = length inputData
     /\ Forall (fun v => -32768 <= v <= 32767) (Pcm.convert_frame inputData))
  /\ (forall w : World,
        reachable w ->
        Forall (fun kf => Forall (fun v => -32768 <= v <= 32767) (snd kf))
          (sent (plat w))).
Proof.
  split.
  - intros inputData. split.
    + unfold Pcm.convert_frame. apply length_map.
    + apply LiveSessionFacts.convert_frame_int16.
  - intros w Hw. exact (LiveSessionFacts.reachable_sent_int16 w Hw).
Qed.

Lemma sent_frames_hold_int16_samples_witness :
  let w := run init [CallStartListening None; Settle Granted env_ok; Open 0;
                     AudioProcess 0 [Pcm.Fin 1.5; Pcm.NaN; Pcm.NegInf]] in
  reachable w
  /\ sent (plat w) = [(0%nat, [32767; 0; -32768])]
  /\ Forall (fun kf => Forall (fun v => -32768 <= v <= 32767) (snd kf))
       (sent (plat w)).
Proof.
  intros w.
  assert (Hw : reachable w) by (eexists; reflexivity).
  destruct sent_frames_hold_int16_samples as [_ H].
  split; [exact Hw |]. split; [reflexivity | exact (H w Hw)].
Defined.

(** X12.  Over any run of transcript events, [finalTranscript] and
    [transcript] both grow by the texts of the final events, in arrival
    order, each after one space, and by nothing else.  After the last
    event the interim text is that event's text, or empty when it was
    final, the confidence is that event's own confidence, and the words
    are that event's words when it carries any.  In every reachable state
    [transcript] and [finalTranscript] are equal. *)
Theorem transcripts_accumulate_in_order :
  forall (results : list TranscriptionResult) (w : World),
    finalTranscript (hook (deliver results w))
    = finalTranscript (hook w) +:+ appended results
    /\ transcript (hook (deliver results w))
       = transcript (hook w) +:+ appended results
    /\ (forall r,
          let w' := deliver (results ++ [r]) w in
          interimTranscript (hook w') = (if is_final r then "" else res_transcript r)
          /\ confidence (hook w') = res_confidence r
          /\ words (hook w')
             = default (words (hook (deliver results w))) (res_words r))
    /\ (reachable w -> transcript (hook w) = finalTranscript (hook w)).
Proof.
  intros results w.
  destruct (LiveSessionFacts.deliver_texts results w) as [Hf Ht].
  split; [exact Hf |]. split; [exact Ht |]. split.
  - intros r w'. unfold w'. rewrite LiveSessionFacts.deliver_snoc.
    destruct (LiveSessionFacts.onTranscript_texts r (deliver results w))
      as (_ & _ & Hi & Hc & Hw).
    auto.
  - clear Hf Ht. revert w. apply DeepgramFacts.live_reachable_invariant;
      [reflexivity | apply LiveSessionFacts.step_texts_equal].
Qed.

Lemma transcripts_accumulate_in_order_witness :
  let w := deliver [interim_hel; final_hello_world; interim_hel] init in
  reachable init
  /\ transcript (hook init) = finalTranscript (hook init)
  /\ finalTranscript (hook w) = " hello world"
  /\ transcript (hook w) = " hello world".
Proof.
  intros w.
  assert (R : reachable init) by (exists []; reflexivity).
  destruct (transcripts_accumulate_in_order
              [interim_hel; final_hello_world; interim_hel] init)
    as (Hf & Ht & _ & He).
  split; [exact R |]. split; [exact (He R) |]. split; [exact Hf | exact Ht].
Defined.

(** X13.  A [Transcript] payload with a first alternative and no
    [is_final] member is handled as an interim result: the accumulated
    texts stay as they were, the interim text becomes the alternative's
    transcript (the empty string when that is missing) and the confidence
    becomes the alternative's confidence (0 when that is missing). *)
Theorem payload_without_is_final_is_interim :
  forall (data : TranscriptData) (alt : Alternative) (w : World),
    data_alternative data = Some alt ->
    data_is_final data = None ->
    let w' := on_Transcript data w in
    finalTranscript (hook w') = finalTranscript (hook w)
    /\ transcript (hook w') = transcript (hook w)
    /\ interimTranscript (hook w') = default "" (alt_transcript alt)
    /\ confidence (hook w') = default 0%Q (alt_confidence alt)
    /\ words (hook w') = default (words (hook w)) (alt_words alt).
Proof.
  intros data alt w Ha Hf w'. unfold w', on_Transcript, to_result.
  rewrite Ha, Hf. cbn [default].
  match goal with
  | |- context [onTranscript ?r w] =>
      destruct (LiveSessionFacts.onTranscript_texts r w) as (E1 & E2 & E3 & E4 & E5);
      rewrite E1, E2, E3, E4, E5
  end.
  cbn [is_final res_transcript res_confidence res_words].
  rewrite !LiveSessionFacts.append_empty_r. repeat split; reflexivity.
Qed.

Lemma payload_without_is_final_is_interim_witness :
  let alt := {| alt_transcript := Some "hel"; alt_confidence := None;
                alt_words := None |} in
  let data := {| data_alternative := Some alt; data_is_final := None;
                 data_speaker := None; data_start := None; data_end := None |} in
  data_alternative data = Some alt
  /\ data_is_final data = None
  /\ interimTranscript (hook (on_Transcript data init)) = "hel"
  /\ finalTranscript (hook (on_Transcript data init)) = "".
Proof.
  intros alt data.
  destruct (payload_without_is_final_is_interim data alt init eq_refl eq_refl)
    as (Hf & _ & Hi & _).
  split; [reflexivity |]. split; [reflexivity |]. split; [exact Hi | exact Hf].
Defined.

(** X14.  Reset in live mode, [stopListening] followed by
    [clearTranscript], leaves the hook showing exactly what a freshly
    mounted hook shows and every reference empty, from any state.  The
    two calls commute, doing the reset twice is the same as doing it
    once, and [clearTranscript] alone touches neither the references,
    the client nor any browser resource. *)
Theorem live_reset_returns_to_initial_view :
  forall w : World,
    hook (handleReset_live w) = hook init
    /\ refs (handleReset_live w) = refs init
    /\ clearTranscript (stopListening w) = stopListening (clearTranscript w)
    /\ handleReset_live (handleReset_live w) = handleReset_live w
    /\ refs (clearTranscript w) = refs w
    /\ client (clearTranscript w) = client w
    /\ plat (clearTranscript w) = plat w
    /\ isListening (hook (clearTranscript w)) = isListening (hook w)
    /\ connectionState (hook (clearTranscript w)) = connectionState (hook w).
Proof.
  intros w.
  destruct (LiveSessionFacts.handleReset_live_hook w) as [Hh Hr].
  split; [exact Hh |]. split; [exact Hr |].
  split; [apply LiveSessionFacts.clear_stop_commute |]. split.
  - unfold handleReset_live.
    rewrite <- (LiveSessionFacts.clear_stop_commute (stopListening w)).
    rewrite DeepgramFacts.stopListening_idem.
    apply LiveSessionFacts.clearTranscript_idem.
  - rewrite LiveSessionFacts.clearTranscript_hook. repeat split; reflexivity.
Qed.

(** X15.  In every reachable state the hook's [connectionState] is
    null, [OPEN] or [CLOSED] (the SDK's [CONNECTING] and [CLOSING] are
    never stored), and [isConnected] is true exactly when it is
    [OPEN]. *)
Theorem connection_state_is_null_open_or_closed :
  forall w : World,
    reachable w ->
    (connectionState (hook w) = None
     \/ connectionState (hook w) = Some OPEN
     \/ connectionState (hook w) = Some CLOSED)
    /\ (isConnected (hook w) = true <-> connectionState (hook w) = Some OPEN).
Proof.
  intros w Hw. split.
  - revert w Hw. apply DeepgramFacts.live_reachable_invariant;
      [left; reflexivity | apply LiveSessionFacts.step_state_known].
  - destruct (DeepgramFacts.reachable_in_sync w Hw) as (H1 & H2 & _).
    rewrite H2. symmetry. exact H1.
Qed.

Lemma connection_state_is_null_open_or_closed_witness :
  let w := run init [CallStartListening None; Settle Granted env_ok; Open 0;
                     Close 0] in
  reachable w
  /\ connectionState (hook w) = Some CLOSED
  /\ (isConnected (hook w) = true <-> connectionState (hook w) = Some OPEN).
Proof.
  intros w.
  assert (Hw : reachable w) by (eexists; reflexivity).
  destruct (connection_state_is_null_open_or_closed w Hw) as [_ H].
  split; [exact Hw |]. split; [reflexivity | exact H].
Defined.

(** X16.  When [startListening] fails after the device was granted
    (the audio context cannot be built, or the channel cannot be
    created), its [catch] reports the error and clears [isListening] but
    releases nothing: the stream just acquired is still live and still
    held in [streamRef], and no channel was opened.  A later
    [stopListening] stops that stream. *)
Theorem failed_listen_start_keeps_the_stream :
  forall (env : Env) (w : World),
    (0 < pendingAcquire (plat w))%nat ->
    is_Some (contextThrows env) \/ is_Some (liveThrows env) ->
    let s := nextStream (plat w) in
    let w' := startListening_resume Granted env w in
    isListening (hook w') = false
    /\ is_Some (error (hook w'))
    /\ streamRef (refs w') = Some s
    /\ s ∈ liveStreams (plat w')
    /\ client w' = client w
    /\ nextConnection (plat w') = nextConnection (plat w)
    /\ (s ∉ liveStreams (plat (stopListening w'))).
Proof.
  intros env w Hp Hf s w'.
  destruct (LiveSessionFacts.live_resume_fails env w Hp Hf)
    as (Hl & He & Hs & Hlive & Hc & Hn).
  fold w' in Hl, He, Hs, Hlive, Hc, Hn. fold s in Hs, Hlive.
  repeat split; try assumption.
  - rewrite Hlive. apply LiveSessionFacts.elem_of_union_singleton.
  - rewrite DeepgramFacts.stopListening_plat. cbn [liveStreams]. rewrite Hs.
    intros Hin. apply elem_of_difference in Hin. destruct Hin as [_ Hx].
    apply Hx. apply elem_of_singleton. reflexivity.
Qed.

Lemma failed_listen_start_keeps_the_stream_witness :
  let w := startListening_begin None init in
  let env := {| contextThrows := None;
                liveThrows := Some (ErrorObject "Error" "no network") |} in
  (0 < pendingAcquire (plat w))%nat
  /\ (is_Some (contextThrows env) \/ is_Some (liveThrows env))
  /\ streamRef (refs (startListening_resume Granted env w)) = Some 0%nat
  /\ error (hook (startListening_resume Granted env w)) = Some "no network".
Proof.
  intros w env.
  assert (Hp : (0 < pendingAcquire (plat w))%nat) by (cbn; lia).
  assert (Hf : is_Some (contextThrows env) \/ is_Some (liveThrows env))
    by (right; eexists; reflexivity).
  destruct (failed_listen_start_keeps_the_stream env w Hp Hf) as (_ & _ & Hs & _).
  split; [exact Hp |]. split; [exact Hf |]. split; [exact Hs | reflexivity].
Defined.

(** X17.  In every reachable state the live hook's references point at
    resources that still exist: the stream in [streamRef] has live
    tracks, the context in [audioContextRef] is not closed, the processor
    in [processorRef] is still wired into the graph, and the client's
    channel is one that was created. *)
Theorem live_references_stay_live :
  forall w : World,
    reachable w ->
    (forall s, streamRef (refs w) = Some s -> s ∈ liveStreams (plat w))
    /\ (forall c, audioContextRef (refs w) = Some c -> c ∈ openContexts (plat w))
    /\ (forall p, processorRef (refs w) = Some p -> p ∈ wiredProcessors (plat w))
    /\ (forall k, connection (client w) = Some k ->
                  (k < nextConnection (plat w))%nat).
Proof. exact LiveSessionFacts.live_reachable_refs_live. Qed.

Lemma live_references_stay_live_witness :
  let w := run init [CallStartListening None; Settle Granted env_ok] in
  reachable w
  /\ streamRef (refs w) = Some 0%nat
  /\ 0%nat ∈ liveStreams (plat w)
  /\ processorRef (refs w) = Some 0%nat
  /\ 0%nat ∈ wiredProcessors (plat w).
Proof.
  intros w.
  assert (Hw : reachable w) by (eexists; reflexivity).
  destruct (live_references_stay_live w Hw) as (Hs & _ & Hp & _).
  split; [exact Hw |]. split; [reflexivity |].
  split; [apply Hs; reflexivity |]. split; [reflexivity |].
  apply Hp. reflexivity.
Defined.

End LiveExtras.

(** ** Further properties: the response analyzer *)

Section AnalyzerExtras.

Import Analyzer.
Local Open Scope list_scope.
Local Open Scope Z_scope.

Variable includes : string -> bool.
Variable words_length : nat.

(** The score before clamping is 50, plus 15 per positive keyword, minus
    20 per negative keyword, plus a bonus of 0 or 10. *)
Lemma score_shape (scenarioId : option string) :
  exists bonus,
    (bonus = 0 \/ bonus = 10)
    /\ confidence_score (simulatePythonAnalysis includes words_length scenarioId)
       = Z.max 0 (Z.min 100
           (50 + Z.of_nat (length (List.filter includes positive_list)) * 15
            - Z.of_nat (length (List.filter includes negative_list)) * 20 + bonus)).
Proof.
  unfold simulatePythonAnalysis.
  assert (Hex : is_scenario scenarioId "call-1" && is_scenario scenarioId "call-2" = false).
  { destruct scenarioId as [s |]; [| reflexivity]. cbn [is_scenario].
    destruct (String.eqb s "call-1") eqn:E1; [| reflexivity].
    apply String.eqb_eq in E1. subst s. reflexivity. }
  destruct (is_scenario scenarioId "call-1") eqn:E1;
    destruct (is_scenario scenarioId "call-2") eqn:E2; try discriminate Hex;
    cbn [andb]; destruct (includes "irs"); destruct (includes "microsoft");
    match goal with
    | |- context [let '(q, m) := ?c in _] => destruct c
    end; cbn [confidence_score];
    first [exists 0; split; [left; reflexivity | f_equal; f_equal; lia]
          | exists 10; split; [right; reflexivity | f_equal; f_equal; lia]].
Qed.


Lemma simulate_fields (scenarioId : option string) :
  let a := simulatePythonAnalysis includes words_length scenarioId in
  let cs := confidence_score a in
  quality a = (if 80 <=? cs then excellent else if 60 <=? cs then good
               else if 40 <=? cs then fair else poor)
  /\ recommendations a
     = (if cs <? 60 then
          ["Practice saying 'no' firmly and hanging up immediately";
           "Remember: legitimate organizations don't create false urgency"]
        else [])
       ++ (if (length (positive_keywords a) =? 0)%nat then
             ["Use phrases like 'I need to verify this' or 'I'll call back through official channels'"]
           else [])
       ++ (if (0 <? length (negative_keywords a))%nat then
             ["Avoid showing panic or agreeing to demands from unknown callers"]
           else [])
       ++ (if 80 <=? cs then
             ["Excellent work! Consider helping others learn these skills"]
           else [])
  /\ positive_keywords a = List.filter includes positive_list
  /\ negative_keywords a = List.filter includes negative_list
  /\ error a = None.
Proof.
  unfold simulatePythonAnalysis.
  destruct (is_scenario scenarioId "call-1" && includes "irs");
    destruct (is_scenario scenarioId "call-2" && includes "microsoft");
    match goal with
    | |- context [Z.max 0 (Z.min 100 ?raw)] => generalize (Z.max 0 (Z.min 100 raw))
    end;
    intros cs;
    (destruct (80 <=? cs) eqn:E1;
     [| destruct (60 <=? cs) eqn:E2; [| destruct (40 <=? cs) eqn:E3]]);
    cbn [confidence_score quality recommendations positive_keywords
         negative_keywords error];
    rewrite ?E1, ?E2, ?E3; repeat split; reflexivity.
Qed.

(** X18.  The analysis always scores between 0 and 100, and its
    quality tier is fixed by the score alone: excellent from 80, good
    from 60, fair from 40, poor below; it is never the error tier and
    carries no error text.  The readers of the result agree with the
    tier: the display colour is green, blue, yellow or red in that order,
    and the scenario counts as passed exactly for the tiers excellent and
    good. *)
Theorem analysis_score_fixes_tier_and_colour :
  forall scenarioId : option string,
    let a := simulatePythonAnalysis includes words_length scenarioId in
    0 <= confidence_score a <= 100
    /\ (quality a = excellent <-> 80 <= confidence_score a)
    /\ (quality a = good <-> 60 <= confidence_score a < 80)
    /\ (quality a = fair <-> 40 <= confidence_score a < 60)
    /\ (quality a = poor <-> confidence_score a < 40)
    /\ quality a <> error_quality
    /\ error a = None
    /\ scoreColor a = match quality a with
                      | excellent => "green"
                      | good => "blue"
                      | fair => "yellow"
                      | _ => "red"
                      end
    /\ getScoreColor (confidence_score a)
       = match quality a with
         | excellent => "text-green-600 bg-green-100"
         | good => "text-blue-600 bg-blue-100"
         | fair => "text-yellow-600 bg-yellow-100"
         | _ => "text-red-600 bg-red-100"
         end
    /\ (wasSuccessful a = true <-> quality a = excellent \/ quality a = good).
Proof.
  intros scenarioId a.
  destruct (simulate_fields scenarioId) as (Hq & _ & _ & _ & He).
  fold a in Hq, He.
  destruct (score_shape scenarioId) as (bonus & _ & Hs). fold a in Hs.
  assert (Hb : 0 <= confidence_score a <= 100) by (rewrite Hs; lia).
  unfold scoreColor, getScoreColor, wasSuccessful. rewrite Hq.
  clear Hs Hq. generalize dependent (confidence_score a). intros cs Hb.
  split; [exact Hb |].
  (destruct (80 <=? cs) eqn:E1;
    [| destruct (60 <=? cs) eqn:E2; [| destruct (40 <=? cs) eqn:E3]]);
    rewrite ?Z.leb_le, ?Z.leb_gt in *;
    repeat split; intros; try discriminate; try lia; try reflexivity;
    try (left; reflexivity); try (right; reflexivity); try exact He;
    try (match goal with H : _ \/ _ |- _ => destruct H; discriminate end).
Qed.

(** X19.  The analysis comes without any recommendation exactly when
    the response matched one positive keyword and no negative one; every
    other response gets at least one.  A score below 60 always brings the
    two basic recommendations first, and a score from 80 always ends with
    the congratulation. *)
Theorem recommendations_empty_iff_single_positive :
  forall scenarioId : option string,
    let a := simulatePythonAnalysis includes words_length scenarioId in
    (recommendations a = []
     <-> length (positive_keywords a) = 1%nat /\ negative_keywords a = [])
    /\ (confidence_score a < 60 ->
        exists rest,
          recommendations a
          = "Practice saying 'no' firmly and hanging up immediately"
            :: "Remember: legitimate organizations don't create false urgency"
            :: rest)
    /\ (80 <= confidence_score a ->
        exists front,
          recommendations a
          = front ++ ["Excellent work! Consider helping others learn these skills"]).
Proof.
  intros scenarioId a.
  destruct (simulate_fields scenarioId) as (_ & Hr & Hp & Hn & _).
  fold a in Hr, Hp, Hn.
  destruct (score_shape scenarioId) as (bonus & Hbonus & Hs). fold a in Hs.
  rewrite <- Hp, <- Hn in Hs. rewrite Hr. clear Hr Hp Hn.
  set (p := length (positive_keywords a)) in *.
  set (n := length (negative_keywords a)) in *.
  assert (Hn0 : negative_keywords a = [] <-> n = 0%nat).
  { unfold n. destruct (negative_keywords a); cbn; split; congruence. }
  rewrite Hn0. clear Hn0.
  generalize dependent (confidence_score a). intros cs Hs.
  split; [| split].
  - destruct (cs <? 60) eqn:E1; destruct (p =? 0)%nat eqn:E2;
      destruct (0 <? n)%nat eqn:E3; destruct (80 <=? cs) eqn:E4;
      rewrite ?Z.ltb_lt, ?Z.ltb_ge, ?Z.leb_le, ?Z.leb_gt, ?Nat.eqb_eq, ?Nat.eqb_neq,
        ?Nat.ltb_lt, ?Nat.ltb_ge in *;
      cbn [app]; split; intros H; try discriminate H; try lia; try reflexivity.
  - intros Hlt. apply Z.ltb_lt in Hlt. rewrite Hlt. cbn [app]. eexists. reflexivity.
  - intros Hge. apply Z.leb_le in Hge. rewrite Hge.
    rewrite !List.app_assoc. eexists. reflexivity.
Qed.

(** X20.  Keywords bound the verdict: a response that matches no
    positive keyword is never rated excellent, and a response that
    matches no negative keyword is never rated poor and never scores
    below 50. *)
Theorem keywords_bound_the_verdict :
  forall scenarioId : option string,
    let a := simulatePythonAnalysis includes words_length scenarioId in
    (positive_keywords a = [] ->
     quality a <> excellent /\ confidence_score a <= 60)
    /\ (negative_keywords a = [] ->
        quality a <> poor /\ 50 <= confidence_score a).
Proof.
  intros scenarioId a.
  destruct (simulate_fields scenarioId) as (Hq & _ & Hp & Hn & _).
  fold a in Hq, Hp, Hn.
  destruct (score_shape scenarioId) as (bonus & Hbonus & Hs). fold a in Hs.
  rewrite <- Hp, <- Hn in Hs. rewrite Hq. clear Hq Hp Hn.
  generalize dependent (confidence_score a). intros cs Hs.
  split; intros E; rewrite E in Hs; cbn [length Z.of_nat] in Hs.
  - assert (Hle : cs <= 60) by lia. split; [| exact Hle].
    destruct (80 <=? cs) eqn:E1; [apply Z.leb_le in E1; lia |].
    destruct (60 <=? cs), (40 <=? cs); discriminate.
  - assert (Hge : 50 <= cs) by lia. split; [| exact Hge].
    destruct (80 <=? cs); [discriminate |].
    destruct (60 <=? cs); [discriminate |].
    destruct (40 <=? cs) eqn:E3; [discriminate |].
    apply Z.leb_gt in E3. lia.
Qed.

End AnalyzerExtras.

Lemma recommendations_empty_iff_single_positive_witness :
  let one := fun k : string => String.eqb k "scam" in
  let yes := fun k : string => String.eqb k "yes" in
  (length (Analyzer.positive_keywords (Analyzer.simulatePythonAnalysis one 1 None))
     = 1%nat
   /\ Analyzer.negative_keywords (Analyzer.simulatePythonAnalysis one 1 None) = []
   /\ Analyzer.recommendations (Analyzer.simulatePythonAnalysis one 1 None) = [])
  /\ (Analyzer.confidence_score (Analyzer.simulatePythonAnalysis yes 1 None) < 60
      /\ exists rest,
           Analyzer.recommendations (Analyzer.simulatePythonAnalysis yes 1 None)
           = "Practice saying 'no' firmly and hanging up immediately"
             :: "Remember: legitimate organizations don't create false urgency"
             :: rest)%Z.
Proof.
  intros one yes. split.
  - destruct (recommendations_empty_iff_single_positive one 1 None) as [[_ H] _].
    split; [reflexivity |]. split; [reflexivity |].
    apply H. split; reflexivity.
  - destruct (recommendations_empty_iff_single_positive yes 1 None) as (_ & H & _).
    assert (Hlt : (Analyzer.confidence_score
                     (Analyzer.simulatePythonAnalysis yes 1 None) < 60)%Z)
      by reflexivity.
    split; [exact Hlt | exact (H Hlt)].
Defined.

Lemma keywords_bound_the_verdict_witness :
  let none := fun _ : string => false in
  Analyzer.positive_keywords (Analyzer.simulatePythonAnalysis none 1 (Some "call-1"))
  = []
  /\ Analyzer.quality (Analyzer.simulatePythonAnalysis none 1 (Some "call-1"))
     <> Analyzer.excellent
  /\ Analyzer.negative_keywords
       (Analyzer.simulatePythonAnalysis none 1 (Some "call-1")) = []
  /\ Analyzer.quality (Analyzer.simulatePythonAnalysis none 1 (Some "call-1"))
     <> Analyzer.poor.
Proof.
  intros none.
  destruct (keywords_bound_the_verdict none 1 (Some "call-1")) as [Hp Hn].
  split; [reflexivity |]. split; [apply (Hp eq_refl) |].
  split; [reflexivity |]. apply (Hn eq_refl).
Defined.

(** ** Further properties: the duration display *)

Module DisplayFacts.

Import Display.
Local Open Scope N_scope.

Lemma length_append (a b : string) :
  String.length (a +:+ b) = (String.length a + String.length b)%nat.
Proof.
  induction a as [| x a IH]; [reflexivity |].
  change (S (String.length (a +:+ b)) = S (String.length a + String.length b)).
  rewrite IH. reflexivity.
Qed.

Lemma append_inj_length (a1 a2 b1 b2 : string) :
  String.length a1 = String.length a2 ->
  a1 +:+ b1 = a2 +:+ b2 -> a1 = a2 /\ b1 = b2.
Proof.
  revert a2. induction a1 as [| x a1 IH]; intros [| y a2] Hl E; try discriminate Hl.
  - split; [reflexivity | exact E].
  - change (String x (a1 +:+ b1) = String y (a2 +:+ b2)) in E.
    injection E as -> E. injection Hl as Hl.
    destruct (IH a2 Hl E) as [-> ->]. split; reflexivity.
Qed.

Lemma decimal_digits_inj (a b : N) :
  decimal_digits a = decimal_digits b -> a = b.
Proof.
  unfold decimal_digits. intros E.
  apply DecimalN.Unsigned.to_uint_inj.
  assert (H : Some (N.to_uint a) = Some (N.to_uint b)).
  { rewrite <- !DecimalString.NilEmpty.usu. rewrite E. reflexivity. }
  injection H as H. exact H.
Qed.

Lemma formatTime_parts (seconds : Seconds) :
  formatTime seconds
  = decimal_digits (count seconds / 60) +:+ ":"
    +:+ two_digits (count seconds mod 60).
Proof. reflexivity. Qed.

Lemma below_60_spec (s : N) : s < 60 -> In s below_60.
Proof.
  intros H. unfold below_60. apply in_map_iff. exists (N.to_nat s).
  split; [apply N2Nat.id |]. apply in_seq. lia.
Qed.

Lemma two_digits_length (s : N) : s < 60 -> String.length (two_digits s) = 2%nat.
Proof.
  intros H.
  assert (C : forallb (fun x => Nat.eqb (String.length (two_digits x)) 2) below_60
              = true) by (vm_compute; reflexivity).
  rewrite forallb_forall in C. apply Nat.eqb_eq. apply C. apply below_60_spec. exact H.
Qed.

Lemma two_digits_inj (a b : N) :
  a < 60 -> b < 60 -> two_digits a = two_digits b -> a = b.
Proof.
  intros Ha Hb E.
  assert (C : forallb
                (fun x => forallb
                            (fun y => implb (String.eqb (two_digits x) (two_digits y))
                                        (N.eqb x y)) below_60) below_60
              = true) by (vm_compute; reflexivity).
  rewrite forallb_forall in C. specialize (C a (below_60_spec a Ha)).
  rewrite forallb_forall in C. specialize (C b (below_60_spec b Hb)).
  apply String.eqb_eq in E. rewrite E in C. apply N.eqb_eq. exact C.
Qed.

Lemma formatTime_inj (a b : Seconds) :
  formatTime a = formatTime b -> count a = count b.
Proof.
  rewrite !formatTime_parts. intros E.
  assert (Ha : count a mod 60 < 60) by (apply N.mod_lt; discriminate).
  assert (Hb : count b mod 60 < 60) by (apply N.mod_lt; discriminate).
  assert (Hl : String.length (decimal_digits (count a / 60))
               = String.length (decimal_digits (count b / 60))).
  { apply (f_equal String.length) in E. rewrite !length_append in E.
    rewrite (two_digits_length _ Ha), (two_digits_length _ Hb) in E. lia. }
  destruct (append_inj_length _ _ _ _ Hl E) as [Em Es].
  apply decimal_digits_inj in Em.
  apply (String.app_inj ":") in Es. apply (two_digits_inj _ _ Ha Hb) in Es.
  rewrite (N.div_mod (count a) 60), (N.div_mod (count b) 60) by discriminate.
  rewrite Em, Es. reflexivity.
Qed.

End DisplayFacts.

(** X21.  For every whole number of seconds up to
    [Number.MAX_SAFE_INTEGER], [formatTime] prints the whole minutes, a
    colon, and the remaining seconds on exactly two characters (with a
    leading zero below ten); two different durations are never printed
    alike. *)
Theorem formatTime_two_digit_seconds_and_injective :
  forall a b : Display.Seconds,
    Display.formatTime a
    = Display.decimal_digits (Display.count a / 60) +:+ ":"
      +:+ Display.two_digits (Display.count a mod 60)
    /\ String.length (Display.two_digits (Display.count a mod 60)) = 2%nat
    /\ ((Display.count a mod 60 < 10)%N ->
        Display.two_digits (Display.count a mod 60)
        = "0" +:+ Display.decimal_digits (Display.count a mod 60))
    /\ (Display.formatTime a = Display.formatTime b ->
        Display.count a = Display.count b).
Proof.
  intros a b. split; [reflexivity |]. split.
  - apply DisplayFacts.two_digits_length. apply N.mod_lt. discriminate.
  - split; [| apply DisplayFacts.formatTime_inj].
    intros H. unfold Display.two_digits. apply N.ltb_lt in H. rewrite H. reflexivity.
Qed.

Lemma formatTime_two_digit_seconds_and_injective_witness :
  Display.formatTime Display.sixty_five = "1:05"
  /\ (Display.count Display.sixty_five mod 60 < 10)%N
  /\ Display.two_digits (Display.count Display.sixty_five mod 60) = "05"
  /\ (Display.formatTime Display.sixty_five
      = Display.formatTime Display.sixty_five ->
      Display.count Display.sixty_five = Display.count Display.sixty_five).
Proof.
  assert (L : (Display.count Display.sixty_five mod 60 < 10)%N) by reflexivity.
  destruct (formatTime_two_digit_seconds_and_injective
              Display.sixty_five Display.sixty_five) as (_ & _ & Hz & Hi).
  split; [reflexivity |]. split; [exact L |].
  split; [exact (Hz L) | exact Hi].
Defined.
